(** * Real-Time Multilingual Query Handler: a shallow embedding

    The development follows the layout of the repository:

    - [Py]      the fragment of Python the program relies on (text, values,
                exceptions, [str.strip], [str.format], slicing);
    - [Json]    the [json] module as the program uses it:
                [json.dumps(_, indent=2)] and [json.loads];
    - [Evaluation]        utils/evaluation.py;
    - [TranslationEngine] backend/translation_engine.py;
    - [ResponseGenerator] backend/response_generator.py;
    - [Server]            backend/server.py;
    - [App]               app.py.

    Definitions come first, the theorems about them afterwards. *)

From Stdlib Require Import ZArith NArith QArith Lia Bool String Ascii.
From Stdlib Require Import DecimalN DecimalPos DecimalFacts.
From stdpp Require Import base option list strings gmap.

Local Open Scope N_scope.

(* ===================================================================== *)
(** * Python fragment                                                     *)
(* ===================================================================== *)

Module Py.

(** A Python [str] is a sequence of Unicode code points. *)
Abbreviation char := N.
Definition text := list char.

(** [lit "abc"] is the Python literal ['abc'] (ASCII only). *)
Definition lit (s : string) : text :=
  List.map N_of_ascii (list_ascii_of_string s).

(** Code points that a well-formed text may hold: Unicode scalar values,
    that is everything up to U+10FFFF except the surrogate range. *)
Definition is_surrogate (c : char) : bool := (55296 <=? c) && (c <=? 57343).
Definition scalar (c : char) : bool := (c <? 1114112) && negb (is_surrogate c).
Definition valid_text (s : text) : bool := forallb scalar s.

(** Python values that appear in the program: the JSON-shaped ones.  A
    [dict] keeps its items in insertion order; keys are [str]. *)
#[local] Unset Elimination Schemes.
Inductive pyval :=
| PNone
| PBool (b : bool)
| PInt (z : Z)
| PStr (s : text)
| PList (l : list pyval)
| PDict (d : list (text * pyval)).
#[local] Set Elimination Schemes.

(** Induction over values that also reaches list elements and dict values. *)
Fixpoint pyval_ind (P : pyval -> Prop)
    (HNone : P PNone) (HBool : forall b, P (PBool b))
    (HInt : forall z, P (PInt z)) (HStr : forall s, P (PStr s))
    (HList : forall l, Forall P l -> P (PList l))
    (HDict : forall d, Forall (fun kv => P (snd kv)) d -> P (PDict d))
    (v : pyval) {struct v} : P v :=
  match v with
  | PNone => HNone
  | PBool b => HBool b
  | PInt z => HInt z
  | PStr s => HStr s
  | PList l =>
      HList l ((fix go (l : list pyval) : Forall P l :=
                  match l with
                  | [] => List.Forall_nil P
                  | x :: l' =>
                      @List.Forall_cons _ P x l'
                        (pyval_ind P HNone HBool HInt HStr HList HDict x) (go l')
                  end) l)
  | PDict d =>
      HDict d ((fix go (d : list (text * pyval))
                  : Forall (fun kv => P (snd kv)) d :=
                  match d with
                  | [] => List.Forall_nil _
                  | kv :: d' =>
                      @List.Forall_cons _ (fun kv => P (snd kv)) kv d'
                        (pyval_ind P HNone HBool HInt HStr HList HDict (snd kv))
                        (go d')
                  end) d)
  end.

(** [d[k] = v] on an insertion-ordered dict: an existing key keeps its
    place, a new key goes last.  [dict(pairs)] inserts the pairs in turn. *)
Fixpoint dict_set (d : list (text * pyval)) (k : text) (v : pyval)
  : list (text * pyval) :=
  match d with
  | [] => [(k, v)]
  | (k', v') :: d' =>
      if bool_decide (k' = k) then (k, v) :: d' else (k', v') :: dict_set d' k v
  end.
Definition dict_of_pairs (pairs : list (text * pyval)) : list (text * pyval) :=
  fold_left (fun d kv => dict_set d (fst kv) (snd kv)) pairs [].

(** [d.get(k)]: [None] here is a missing key. *)
Fixpoint dict_get (d : list (text * pyval)) (k : text) : option pyval :=
  match d with
  | [] => None
  | (k', v) :: d' => if bool_decide (k' = k) then Some v else dict_get d' k
  end.

(** Exceptions below [Exception]; [str(e)] is the carried message. *)
Inductive exn_class :=
| RuntimeError | JSONDecodeError | AttributeError | KeyError | ValueError
| IndexError | ImportError | HTTPError | ConnectionError | LangDetectException
| OpenAIError.

Record exn := Exn { exn_kind : exn_class; exn_str : text }.

(** [type(v).__name__], and the error of calling a method the type of [v]
    does not have: ['list' object has no attribute 'get']. *)
Definition type_name (v : pyval) : text :=
  match v with
  | PNone => lit "NoneType"
  | PBool _ => lit "bool"
  | PInt _ => lit "int"
  | PStr _ => lit "str"
  | PList _ => lit "list"
  | PDict _ => lit "dict"
  end.
Definition no_attribute (v : pyval) (attr : text) : exn :=
  Exn AttributeError
    ([39] ++ type_name v ++ lit "' object has no attribute '" ++ attr ++ [39]).

(** Outcome of running a piece of Python.  [Beyond] marks the inputs this
    model does not cover (a float in a JSON document, a document past the
    limits of the interpreter); no handler catches it and no theorem below
    is about it. *)
Inductive outcome (A : Type) :=
| Ret (a : A)
| Raise (e : exn)
| Beyond.
Arguments Ret {A} a.
Arguments Raise {A} e.
Arguments Beyond {A}.

Definition bind {A B} (m : outcome A) (k : A -> outcome B) : outcome B :=
  match m with
  | Ret a => k a
  | Raise e => Raise e
  | Beyond => Beyond
  end.

#[export] Instance outcome_ret : MRet outcome := @Ret.
#[export] Instance outcome_bind : MBind outcome := fun A B k m => bind m k.

(** [try: m  except Exception as e: h e] *)
Definition try_except {A} (m : outcome A) (h : exn -> outcome A) : outcome A :=
  match m with
  | Raise e => h e
  | _ => m
  end.

(** Truthiness of a [str]: [if s:] and [s or d]. *)
Definition truthy (s : text) : bool :=
  match s with [] => false | _ :: _ => true end.
Definition or_else (s d : text) : text := if truthy s then s else d.

(** [s[:n]] *)
Definition slice_to (n : nat) (s : text) : text := firstn n s.

(** [str.isspace] on one code point, and [str.strip()]. *)
Definition isspace (c : char) : bool :=
  ((9 <=? c) && (c <=? 13)) || ((28 <=? c) && (c <=? 32))
  || (c =? 133) || (c =? 160) || (c =? 5760)
  || ((8192 <=? c) && (c <=? 8202))
  || (c =? 8232) || (c =? 8233) || (c =? 8239) || (c =? 8287) || (c =? 12288).

Fixpoint lstrip (s : text) : text :=
  match s with
  | c :: r => if isspace c then lstrip r else s
  | [] => []
  end.
Definition strip (s : text) : text := rev (lstrip (rev (lstrip s))).

(** [s.startswith(p)] *)
Fixpoint startswith (p s : text) : bool :=
  match p, s with
  | [], _ => true
  | a :: p', b :: s' => (a =? b) && startswith p' s'
  | _ :: _, [] => false
  end.

Definition text_eqb (a b : text) : bool := bool_decide (a = b).

(** ** [str.format] with keyword arguments only

    Literal text is copied, a doubled brace stands for one brace, and
    [{field}] is replaced by the keyword argument of that name.  A field
    with a conversion, a format spec, an attribute or an index (one of
    [! : . [] in it) is outside this model: the scan gives up at the first
    [!], [:] or opening bracket of a field, after which braces nest and
    brackets hide them.  So is a field with a character outside ASCII
    (decimal digits of other scripts count as an index), an index too
    long for a machine word or written with leading zeros, and a missing
    name whose [repr] is more than the name between quotes. *)

Definition is_plain_field (f : text) : bool :=
  forallb (fun c => negb ((c =? 33) || (c =? 58) || (c =? 46) || (c =? 91))) f.

Fixpoint kwarg (kwargs : list (text * text)) (k : text) : option text :=
  match kwargs with
  | [] => None
  | (k', v) :: rest => if bool_decide (k' = k) then Some v else kwarg rest k
  end.

(** No positional argument is passed, so every index is out of range. *)
Definition index_error (index : text) : exn :=
  Exn IndexError (lit "Replacement index " ++ index
                  ++ lit " out of range for positional args tuple").

(** [str(KeyError(f))] is [repr(f)]: the name between single quotes when it
    is printable ASCII without a quote or a backslash. *)
Definition plainly_quoted (f : text) : bool :=
  forallb (fun c => (32 <=? c) && (c <=? 126)
                    && negb (c =? 39) && negb (c =? 92)) f.
Definition key_error (f : text) : exn := Exn KeyError ([39] ++ f ++ [39]).

Definition format_field (kwargs : list (text * text)) (f : text) : outcome text :=
  if negb (is_plain_field f) then Beyond
  else if negb (forallb (fun c => c <? 128) f) then Beyond
  else if forallb (fun c => (48 <=? c) && (c <=? 57)) f
  then match f with
       | [] => Raise (index_error (lit "0"))
       | c :: r =>
           if (c =? 48) && truthy r then Beyond
           else if (length f <=? 18)%nat then Raise (index_error f)
           else Beyond
       end
  else match kwarg kwargs f with
       | Some v => Ret v
       | None => if plainly_quoted f then Raise (key_error f) else Beyond
       end.

(** The scan keeps in [field] the name being read once a brace opened. *)
Fixpoint format_scan (kwargs : list (text * text)) (s : text)
    (field : option text) : outcome text :=
  match s with
  | [] =>
      match field with
      | None => Ret []
      | Some _ => Raise (Exn ValueError (lit "expected '}' before end of string"))
      end
  | c :: r =>
      match field with
      | Some f =>
          if c =? 125 then
            v ← format_field kwargs f;
            rest ← format_scan kwargs r None;
            Ret (v ++ rest)
          else if c =? 123 then
            Raise (Exn ValueError (lit "unexpected '{' in field name"))
          else if (c =? 33) || (c =? 58) || (c =? 91) then Beyond
          else format_scan kwargs r (Some (f ++ [c]))
      | None =>
          if c =? 123 then
            match r with
            | [] => Raise (Exn ValueError
                             (lit "Single '{' encountered in format string"))
            | 123 :: r' => rest ← format_scan kwargs r' None; Ret (123 :: rest)
            | _ => format_scan kwargs r (Some [])
            end
          else if c =? 125 then
            match r with
            | 125 :: r' => rest ← format_scan kwargs r' None; Ret (125 :: rest)
            | _ => Raise (Exn ValueError (lit "Single '}' encountered in format string"))
            end
          else rest ← format_scan kwargs r None; Ret (c :: rest)
      end
  end.

Definition format (template : text) (kwargs : list (text * text)) : outcome text :=
  format_scan kwargs template None.

End Py.

Export Py.



(* ===================================================================== *)
(** * The [json] module                                                   *)
(* ===================================================================== *)

Module Json.

(** ** [json.dumps(obj, indent=2)]

    Defaults otherwise: [ensure_ascii=True], item separator [','] and key
    separator [': '] (the defaults when an indent is given). *)

(** [format(d, 'x')] for one hexadecimal digit, and ['{0:04x}'.format(n)]. *)
Definition hexdigit (d : N) : char := if d <? 10 then 48 + d else 87 + d.
Definition hex4 (n : N) : text :=
  [hexdigit (n / 4096 mod 16); hexdigit (n / 256 mod 16);
   hexdigit (n / 16 mod 16); hexdigit (n mod 16)].

(** One code point under [ensure_ascii]: the short escapes, printable ASCII
    as it is, [\uXXXX] for the rest of the BMP and a surrogate pair above. *)
Definition escape_char (c : char) : text :=
  if c =? 34 then [92; 34]
  else if c =? 92 then [92; 92]
  else if c =? 10 then [92; 110]
  else if c =? 13 then [92; 114]
  else if c =? 9 then [92; 116]
  else if c =? 8 then [92; 98]
  else if c =? 12 then [92; 102]
  else if (32 <=? c) && (c <=? 126) then [c]
  else if c <? 65536 then 92 :: 117 :: hex4 c
  else
    let n := c - 65536 in
    let s1 := N.lor 55296 (N.land (N.shiftr n 10) 1023) in
    let s2 := N.lor 56320 (N.land n 1023) in
    (92 :: 117 :: hex4 s1) ++ (92 :: 117 :: hex4 s2).

Definition encode_str (s : text) : text :=
  34 :: flat_map escape_char s ++ [34].

(** [repr] of an [int]. *)
Fixpoint uint_digits (d : Decimal.uint) : text :=
  match d with
  | Decimal.Nil => []
  | Decimal.D0 d => 48 :: uint_digits d
  | Decimal.D1 d => 49 :: uint_digits d
  | Decimal.D2 d => 50 :: uint_digits d
  | Decimal.D3 d => 51 :: uint_digits d
  | Decimal.D4 d => 52 :: uint_digits d
  | Decimal.D5 d => 53 :: uint_digits d
  | Decimal.D6 d => 54 :: uint_digits d
  | Decimal.D7 d => 55 :: uint_digits d
  | Decimal.D8 d => 56 :: uint_digits d
  | Decimal.D9 d => 57 :: uint_digits d
  end.
Definition encode_nat (n : N) : text := uint_digits (N.to_uint n).
Definition encode_int (z : Z) : text :=
  match z with
  | Zneg p => 45 :: encode_nat (Npos p)
  | _ => encode_nat (Z.to_N z)
  end.

(** ['\n' + ' ' * (2 * level)] *)
Definition newline_indent (level : nat) : text :=
  10 :: repeat 32 (2 * level)%nat.

(** [_item_separator + newline_indent] *)
Definition separator (level : nat) : text := 44 :: newline_indent level.

(** [sep.join(chunks)] *)
Fixpoint join (sep : text) (chunks : list text) : text :=
  match chunks with
  | [] => []
  | [c] => c
  | c :: cs => c ++ sep ++ join sep cs
  end.

(** Every chunk behind its separator: what [join] adds after the first. *)
Definition separated (sep : text) (chunks : list text) : text :=
  flat_map (fun c => sep ++ c) chunks.

(** [key: value] of one dict item, given the encoder of values. *)
Definition encode_item (enc : pyval -> text) (kv : text * pyval) : text :=
  encode_str (fst kv) ++ [58; 32] ++ enc (snd kv).

Fixpoint encode (level : nat) (v : pyval) : text :=
  match v with
  | PNone => lit "null"
  | PBool true => lit "true"
  | PBool false => lit "false"
  | PInt z => encode_int z
  | PStr s => encode_str s
  | PList [] => lit "[]"
  | PList l =>
      [91] ++ newline_indent (S level)
      ++ join (separator (S level)) (List.map (encode (S level)) l)
      ++ newline_indent level ++ [93]
  | PDict [] => lit "{}"
  | PDict d =>
      [123] ++ newline_indent (S level)
      ++ join (separator (S level))
           (List.map (encode_item (encode (S level))) d)
      ++ newline_indent level ++ [125]
  end.

Definition dumps (v : pyval) : text := encode 0 v.

(** ** [json.loads]

    The decoder of the standard library: [scanstring] for string bodies,
    the number pattern, the three literals, and the array and object loops
    that call back into [scan_once].  Whitespace is [' \t\n\r']. *)

Inductive scan (A : Type) :=
| Scanned (a : A) (rest : text)   (* a value and the text after it *)
| Malformed                       (* JSONDecodeError *)
| FloatLiteral                    (* a float, NaN or Infinity: not modelled *)
| OverLimit                       (* past a limit of the interpreter, see below *)
| Exhausted.                      (* recursion budget used up *)
Arguments Scanned {A} a rest.
Arguments Malformed {A}.
Arguments FloatLiteral {A}.
Arguments OverLimit {A}.
Arguments Exhausted {A}.

(** Two limits of the interpreter decide what the decoder does with very
    long integers and very deep documents.  CPython from 3.11 on (and the
    later releases of 3.7 to 3.10) refuses with [ValueError] to convert an
    integer literal of more than 4300 digits, unless it is configured
    otherwise; older ones convert it.  And the decoder gives up with
    [RecursionError] on containers nested too deep, where exactly depends
    on the recursion limit, on the version and on the depth of the call
    stack at the call.  The model follows the decoder up to 4300 digits
    and up to 100 levels, well inside what any CPython reads, and says nothing
    about documents past that ([OverLimit]). *)
Definition max_digits : nat := 4300.
Definition max_depth : nat := 100.

Definition is_ws (c : char) : bool :=
  (c =? 32) || (c =? 9) || (c =? 10) || (c =? 13).

Fixpoint skip_ws (s : text) : text :=
  match s with
  | c :: r => if is_ws c then skip_ws r else s
  | [] => []
  end.

Definition hexval (c : char) : option N :=
  if (48 <=? c) && (c <=? 57) then Some (c - 48)
  else if (97 <=? c) && (c <=? 102) then Some (c - 87)
  else if (65 <=? c) && (c <=? 70) then Some (c - 55)
  else None.

(** [int(esc, 16)] on exactly four hexadecimal digits. *)
Definition unhex4 (a b c d : char) : option N :=
  match hexval a, hexval b, hexval c, hexval d with
  | Some x, Some y, Some z, Some w => Some (((x * 16 + y) * 16 + z) * 16 + w)
  | _, _, _, _ => None
  end.

(** The table [BACKSLASH] of one-letter escapes. *)
Definition backslash (e : char) : option char :=
  if e =? 34 then Some 34
  else if e =? 92 then Some 92
  else if e =? 47 then Some 47
  else if e =? 98 then Some 8
  else if e =? 102 then Some 12
  else if e =? 110 then Some 10
  else if e =? 114 then Some 13
  else if e =? 116 then Some 9
  else None.

Definition is_high (u : N) : bool := (55296 <=? u) && (u <=? 56319).
Definition is_low (u : N) : bool := (56320 <=? u) && (u <=? 57343).
Definition join_surrogates (u u2 : N) : N :=
  65536 + N.lor (N.shiftl (u - 55296) 10) (u2 - 56320).

(** [scanstring] in strict mode, entered just after the opening quote;
    [acc] holds the decoded characters so far. *)
Fixpoint scanstring (s : text) (acc : text) : scan text :=
  match s with
  | [] => Malformed
  | c :: r =>
      if c =? 34 then Scanned acc r
      else if c =? 92 then
        match r with
        | [] => Malformed
        | e :: r1 =>
            if e =? 117 then
              match r1 with
              | h1 :: h2 :: h3 :: h4 :: r2 =>
                  match unhex4 h1 h2 h3 h4 with
                  | None => Malformed
                  | Some u =>
                      match r2 with
                      | b :: e2 :: r3 =>
                          if is_high u && (b =? 92) && (e2 =? 117) then
                            match r3 with
                            | g1 :: g2 :: g3 :: g4 :: r4 =>
                                match unhex4 g1 g2 g3 g4 with
                                | None => Malformed
                                | Some u2 =>
                                    if is_low u2
                                    then scanstring r4
                                           (acc ++ [join_surrogates u u2])
                                    else scanstring r2 (acc ++ [u])
                                end
                            | _ => Malformed
                            end
                          else scanstring r2 (acc ++ [u])
                      | _ => scanstring r2 (acc ++ [u])
                      end
                  end
              | _ => Malformed
              end
            else
              match backslash e with
              | Some ch => scanstring r1 (acc ++ [ch])
              | None => Malformed
              end
        end
      else if c <? 32 then Malformed
      else scanstring r (acc ++ [c])
  end.

Definition is_digit (c : char) : bool := (48 <=? c) && (c <=? 57).

(** The run [[0-9]*] with its value, most significant digit first. *)
Fixpoint digits (s : text) (acc : N) : N * text :=
  match s with
  | c :: r => if is_digit c then digits r (acc * 10 + (c - 48)) else (acc, s)
  | [] => (acc, [])
  end.

(** Does a fraction [\.[0-9]+] or an exponent [[eE][-+]?[0-9]+] follow? *)
Definition has_frac (s : text) : bool :=
  match s with
  | 46 :: d :: _ => is_digit d
  | _ => false
  end.
Definition has_exp (s : text) : bool :=
  match s with
  | e :: r =>
      ((e =? 101) || (e =? 69)) &&
      match r with
      | d :: r' =>
          is_digit d ||
          (((d =? 45) || (d =? 43)) &&
           match r' with d' :: _ => is_digit d' | [] => false end)
      | [] => false
      end
  | [] => false
  end.

(** [NUMBER_RE] at the head of [s]: an optional minus sign, then a single
    zero or a non-zero digit followed by digits; a fraction or an exponent
    after that makes the literal a float. *)
Definition finish_number (neg : bool) (count : nat) (n : N) (r : text)
  : scan pyval :=
  if has_frac r || has_exp r then FloatLiteral
  else if (max_digits <? count)%nat then OverLimit
  else Scanned (PInt (if neg then Z.opp (Z.of_N n) else Z.of_N n)) r.

(** [count] is the number of digits matched: what was there less what is
    left. *)
Definition scan_integer (neg : bool) (s : text) : scan pyval :=
  match s with
  | c :: r =>
      if c =? 48 then finish_number neg 1 0 r
      else if is_digit c
           then let (n, r') := digits r (c - 48) in
                finish_number neg (length s - length r') n r'
           else Malformed
  | [] => Malformed
  end.

Definition scan_number (s : text) : scan pyval :=
  match s with
  | c :: r => if c =? 45 then scan_integer true r else scan_integer false s
  | [] => Malformed
  end.

(** What [scan_once] does when no string, container or literal starts
    here: a number, or one of [NaN], [Infinity], [-Infinity]. *)
Definition scan_atom (s : text) : scan pyval :=
  if startswith (lit "null") s then Scanned PNone (skipn 4 s)
  else if startswith (lit "true") s then Scanned (PBool true) (skipn 4 s)
  else if startswith (lit "false") s then Scanned (PBool false) (skipn 5 s)
  else
    match scan_number s with
    | Malformed =>
        if startswith (lit "NaN") s || startswith (lit "Infinity") s
           || startswith (lit "-Infinity") s
        then FloatLiteral else Malformed
    | r => r
    end.

(** [scan_once], with the bodies of [JSONArray] and [JSONObject].  The
    array loop is entered at the first element, the object loop just after
    the opening quote of a key.  [depth] is how many containers may still
    be entered one inside the other. *)
Fixpoint scan_once (fuel : nat) (depth : nat) (s : text) : scan pyval :=
  match fuel with
  | O => Exhausted
  | S fuel' =>
      match s with
      | [] => Malformed
      | c :: r =>
          if c =? 34 then
            match scanstring r [] with
            | Scanned str r' => Scanned (PStr str) r'
            | Malformed => Malformed
            | FloatLiteral => FloatLiteral
            | OverLimit => OverLimit
            | Exhausted => Exhausted
            end
          else if c =? 123 then
            match depth with
            | O => OverLimit
            | S depth' =>
                match r with
                | 34 :: r' => object_loop fuel' depth' r' []
                | _ =>
                    match skip_ws r with
                    | c' :: r' =>
                        if c' =? 125 then Scanned (PDict []) r'
                        else if c' =? 34 then object_loop fuel' depth' r' []
                        else Malformed
                    | [] => Malformed
                    end
                end
            end
          else if c =? 91 then
            match depth with
            | O => OverLimit
            | S depth' =>
                match skip_ws r with
                | c' :: r' =>
                    if c' =? 93 then Scanned (PList []) r'
                    else array_loop fuel' depth' (c' :: r') []
                | [] => array_loop fuel' depth' [] []
                end
            end
          else scan_atom s
      end
  end
with array_loop (fuel : nat) (depth : nat) (s : text) (values : list pyval)
  : scan pyval :=
  match fuel with
  | O => Exhausted
  | S fuel' =>
      match scan_once fuel' depth s with
      | Scanned value r =>
          match skip_ws r with
          | c :: r' =>
              if c =? 93 then Scanned (PList (values ++ [value])) r'
              else if c =? 44
                   then array_loop fuel' depth (skip_ws r') (values ++ [value])
                   else Malformed
          | [] => Malformed
          end
      | Malformed => Malformed
      | FloatLiteral => FloatLiteral
      | OverLimit => OverLimit
      | Exhausted => Exhausted
      end
  end
with object_loop (fuel : nat) (depth : nat) (s : text)
    (pairs : list (text * pyval)) : scan pyval :=
  match fuel with
  | O => Exhausted
  | S fuel' =>
      match scanstring s [] with
      | Scanned key r =>
          match skip_ws r with
          | c :: r1 =>
              if c =? 58 then
                match scan_once fuel' depth (skip_ws r1) with
                | Scanned value r2 =>
                    match skip_ws r2 with
                    | c2 :: r3 =>
                        if c2 =? 125
                        then Scanned
                               (PDict (dict_of_pairs (pairs ++ [(key, value)])))
                               r3
                        else if c2 =? 44 then
                          match skip_ws r3 with
                          | 34 :: r4 =>
                              object_loop fuel' depth r4 (pairs ++ [(key, value)])
                          | _ => Malformed
                          end
                        else Malformed
                    | [] => Malformed
                    end
                | Malformed => Malformed
                | FloatLiteral => FloatLiteral
                | OverLimit => OverLimit
                | Exhausted => Exhausted
                end
              else Malformed
          | [] => Malformed
          end
      | Malformed => Malformed
      | FloatLiteral => FloatLiteral
      | OverLimit => OverLimit
      | Exhausted => Exhausted
      end
  end.

(** ** Documents that [dumps] and [loads] carry faithfully

    A value is well formed when its strings hold Unicode scalar values only
    and no dict has the same key twice (which no Python dict has). *)
Fixpoint wf (v : pyval) : bool :=
  match v with
  | PStr s => valid_text s
  | PList l => forallb wf l
  | PDict d =>
      forallb (fun kv => valid_text (fst kv) && wf (snd kv)) d
      && bool_decide (NoDup (List.map fst d))
  | _ => true
  end.

(** A value fits when its integers have at most [max_digits] digits and
    its containers nest at most [depth] deep. *)
Fixpoint fits (depth : nat) (v : pyval) {struct v} : bool :=
  match v with
  | PInt z => (length (encode_nat (Z.abs_N z)) <=? max_digits)%nat
  | PList l =>
      match depth with
      | O => false
      | S depth' => forallb (fits depth') l
      end
  | PDict d =>
      match depth with
      | O => false
      | S depth' => forallb (fun kv => fits depth' (snd kv)) d
      end
  | _ => true
  end.

(** The values [dumps] and [loads] carry faithfully, as [loads] is called
    by the program. *)
Definition round_trips (v : pyval) : bool := wf v && fits max_depth v.

(** [json.dumps(v, indent=2)] where the program calls it.  The encoder
    meets the same two limits as the decoder: the interpreters that refuse
    to read an integer of more than 4300 digits refuse to write it, and
    the encoder recurses with the nesting.  A value past them is outside
    the model. *)
Definition dumps_within (v : pyval) : outcome text :=
  if fits max_depth v then Ret (dumps v) else Beyond.

(** What may follow an encoded value: nothing, a comma or a line break. *)
Definition delim (rest : text) : Prop :=
  match rest with
  | [] => True
  | c :: _ => c = 44 \/ c = 10
  end.

(** A text that starts with a character that can open a value. *)
Definition opens_value (s : text) : Prop :=
  match s with
  | [] => False
  | c :: _ => is_ws c = false /\ c <> 93 /\ c <> 125
  end.

(** [v] is read back by [scan_once] from its encoding at any nesting
    level, whatever delimiter follows, once the budget covers its length
    and [depth] its nesting. *)
Definition decodes (depth : nat) (v : pyval) : Prop :=
  forall level rest fuel,
    delim rest -> (length (encode level v) <= fuel)%nat ->
    scan_once fuel depth (encode level v ++ rest) = Scanned v rest.

Definition decode_error : exn := Exn JSONDecodeError (lit "invalid JSON document").

(** [json.loads(s)]: optional whitespace, one value, optional whitespace,
    end of text; anything left over is "Extra data".  Entering a container
    costs two units of the budget and at least one character, so twice the
    length is more than the decoder can use ([JsonFacts.loads_not_exhausted]). *)
Definition loads (s : text) : outcome pyval :=
  let s0 := skip_ws s in
  match scan_once (S (2 * length s0)) max_depth s0 with
  | Scanned v rest =>
      match skip_ws rest with
      | [] => Ret v
      | _ :: _ => Raise decode_error
      end
  | Malformed => Raise decode_error
  | FloatLiteral => Beyond
  | OverLimit => Beyond
  | Exhausted => Beyond
  end.

End Json.

(* ===================================================================== *)
(** * Effects: the world outside and the trace of what was done           *)
(* ===================================================================== *)

Module Effects.

(** The keyword arguments of [openai.ChatCompletion.create].  A message is
    a role and a content; the temperature literal is kept as a rational. *)
Record chat_request := ChatRequest {
  model : text;
  messages : list (text * text);
  temperature : Q;
  max_tokens : Z
}.

(** What [requests.post] hands back. *)
Record http_response := HttpResponse {
  status_code : Z;
  body : text
}.

(** What an outside party answers: a value, or an exception. *)
Definition answer (A : Type) : Type := exn + A.

(** Everything the program reads from its surroundings. *)
Record world := World {
  (* os.getenv("OPENAI_API_KEY", "") in app.py *)
  app_key : text;
  (* os.getenv("OPENAI_API_KEY") in the backend modules *)
  backend_key : option text;
  (* os.getenv("BACKEND_URL", "http://localhost:8000") *)
  BACKEND_URL : text;
  (* [import openai] succeeds; [hasattr(openai, 'Model')] *)
  openai_importable : bool;
  openai_has_Model : bool;
  (* resp.choices[0].message.content of the completion, or the exception *)
  chat_completion : chat_request -> answer text;
  (* requests.post(url, json=payload, timeout=10) *)
  http_post : text -> pyval -> answer http_response;
  (* langdetect.detect, when the package can be imported *)
  langdetect : option (text -> answer text);
  (* the packages backend/ and utils/ are on the import path *)
  backend_present : bool;
  utils_evaluation_present : bool;
  (* utils.prompts.CANNED_REPLY_TEMPLATE, when utils.prompts can be imported *)
  canned_template : option text
}.

(** What the program does that can be seen from outside, in order. *)
Inductive fn :=
| f_detect_language_local
| f_call_remote_translate | f_translate_with_openai | f_translate_local
| f_call_remote_response | f_generate_reply_with_openai | f_generate_local_reply.

Inductive widget :=
| st_warning | st_error | st_success | st_info | st_markdown | st_write
| st_subheader.

Inductive event :=
| Call (f : fn)                             (* entry into a helper of app.py *)
| Post (url : text) (payload : pyval)       (* an HTTP request sent *)
| Chat (req : chat_request)                 (* a chat completion requested *)
| Show (w : widget) (msg : text).           (* something put on the page *)

(** A computation: the events it caused and how it ended. *)
Definition io (A : Type) : Type := (list event * outcome A)%type.

Definition io_ret {A} (a : A) : io A := ([], Ret a).
Definition io_bind {A B} (m : io A) (k : A -> io B) : io B :=
  match m with
  | (tr, Ret a) => let (tr', r) := k a in (tr ++ tr', r)
  | (tr, Raise e) => (tr, Raise e)
  | (tr, Beyond) => (tr, Beyond)
  end.
(** [try: m  except Exception as e: h e] *)
Definition io_try {A} (m : io A) (h : exn -> io A) : io A :=
  match m with
  | (tr, Raise e) => let (tr', r) := h e in (tr ++ tr', r)
  | _ => m
  end.
Definition emit (e : event) : io unit := ([e], Ret tt).
Definition lift {A} (o : outcome A) : io A := ([], o).
Definition raise {A} (k : exn_class) (msg : text) : io A :=
  ([], Raise (Exn k msg)).
Definition ask {A} (a : answer A) : io A :=
  match a with
  | inl e => ([], Raise e)
  | inr x => ([], Ret x)
  end.

End Effects.

Export Effects.

#[export] Instance io_mret : MRet io := @io_ret.
#[export] Instance io_mbind : MBind io := fun A B k m => io_bind m k.

(* ===================================================================== *)
(** * utils/evaluation.py                                                 *)
(* ===================================================================== *)

Module Evaluation.

(** The files of the working directory: path to content.  A path that is
    not in the map does not exist. *)
Abbreviation files := (gmap string text).

Definition DATA_FILE : string := "data/evaluations.json".

(** [data.append(entry)]: only a list has [append]. *)
Definition append (data entry : pyval) : outcome pyval :=
  match data with
  | PList l => Ret (PList (l ++ [entry]))
  | _ => Raise (no_attribute data (lit "append"))
  end.

Definition save_evaluation (fs : files) (entry : pyval) : outcome files :=
  data ← match fs !! DATA_FILE with
         | Some content => try_except (Json.loads content) (fun _ => Ret (PList []))
         | None => Ret (PList [])
         end;
  data ← append data entry;
  content ← Json.dumps_within data;
  Ret (<[DATA_FILE := content]> fs).

Definition load_evaluations (fs : files) : outcome pyval :=
  match fs !! DATA_FILE with
  | None => Ret (PList [])
  | Some content => Json.loads content
  end.

End Evaluation.

(* ===================================================================== *)
(** * backend/translation_engine.py                                       *)
(* ===================================================================== *)

Module TranslationEngine.

Definition translate_local (text0 : text) : outcome text := Ret text0.

(** [not OPENAI_API_KEY] for the value of [os.getenv("OPENAI_API_KEY")]. *)
Definition key_missing (k : option text) : bool :=
  match k with
  | None => true
  | Some s => negb (truthy s)
  end.

Definition model_name (w : world) : text :=
  if openai_has_Model w then lit "gpt-4o-mini" else lit "gpt-4o".

Definition prompt (text0 : text) : text :=
  lit "You are a high quality translator. Translate the text below into clear natural English and output ONLY the translation."
  ++ [10; 10] ++ lit "Text:" ++ [10] ++ text0 ++ [10; 10]
  ++ lit "Translate into English:".

Definition request (w : world) (text0 : text) : chat_request :=
  {| model := model_name w;
     messages := [(lit "user", prompt text0)];
     temperature := 0;
     max_tokens := 1024 |}.

Definition translate_openai (w : world) (text0 : text) : io text :=
  if key_missing (backend_key w)
  then raise RuntimeError (lit "OpenAI key not configured")
  else
    _ ← (if openai_importable w then mret tt
         else raise ImportError (lit "No module named 'openai'"));
    _ ← emit (Chat (request w text0));
    content ← ask (chat_completion w (request w text0));
    mret (strip content).

End TranslationEngine.

(* ===================================================================== *)
(** * backend/response_generator.py                                       *)
(* ===================================================================== *)

Module ResponseGenerator.

(** [name or "Customer"]; [None] is the argument left out, which the
    signature defaults to the empty string. *)
Definition name_or_customer (name : option text) : text :=
  or_else (default [] name) (lit "Customer").

(** The module needs [CANNED_REPLY_TEMPLATE] of utils/prompts.py, which it
    imports when it is loaded; here it is an argument. *)
Definition generate_local_reply (CANNED_REPLY_TEMPLATE : text)
    (translated_text : text) (name : option text) : outcome text :=
  format CANNED_REPLY_TEMPLATE
    [(lit "name", name_or_customer name);
     (lit "excerpt", slice_to 120 translated_text)].

Definition prompt (translated_text : text) : text :=
  lit "You are an empathetic customer support agent. Using the message below, write a concise and polite reply (3-6 sentences)."
  ++ [10; 10] ++ lit "Customer message:" ++ [10] ++ translated_text
  ++ [10; 10] ++ lit "Reply:".

Definition request (w : world) (translated_text : text) (temp : Q)
  : chat_request :=
  {| model := TranslationEngine.model_name w;
     messages := [(lit "user", prompt translated_text)];
     temperature := temp;
     max_tokens := 256 |}.

(** [temperature] defaults to [0.2]. *)
Definition default_temperature : Q := 2 # 10.

Definition generate_openai_reply (w : world) (translated_text : text)
    (name : option text) (temp : Q) : io text :=
  if TranslationEngine.key_missing (backend_key w)
  then raise RuntimeError (lit "OpenAI key not configured")
  else
    _ ← (if openai_importable w then mret tt
         else raise ImportError (lit "No module named 'openai'"));
    _ ← emit (Chat (request w translated_text temp));
    content ← ask (chat_completion w (request w translated_text temp));
    mret (strip content).

End ResponseGenerator.

(* ===================================================================== *)
(** * backend/server.py                                                   *)
(* ===================================================================== *)

Module Server.

(** [POST /translate] with a body that validated as [TranslateRequest]. *)
Definition translate (w : world) (text0 : text) : io pyval :=
  translated ← io_try (TranslationEngine.translate_openai w text0)
                      (fun _ => lift (TranslationEngine.translate_local text0));
  mret (PDict [(lit "translated_text", PStr translated)]).

(** [POST /response]; [name] defaults to the empty string. *)
Definition response (w : world) (translated_text : text) (name : option text)
  : io pyval :=
  reply ← io_try
    (ResponseGenerator.generate_openai_reply w translated_text name
       ResponseGenerator.default_temperature)
    (fun _ =>
       match canned_template w with
       | Some tpl =>
           lift (format tpl
                   [(lit "name", ResponseGenerator.name_or_customer name);
                    (lit "excerpt", slice_to 120 translated_text)])
       | None => raise ImportError (lit "No module named 'utils.prompts'")
       end);
  mret (PDict [(lit "reply", PStr reply)]).

End Server.

(* ===================================================================== *)
(** * app.py                                                              *)
(* ===================================================================== *)

Module App.

Import Evaluation.

(** ** Utility functions *)

Definition detect_language_local (w : world) (text0 : text) : io text :=
  _ ← emit (Call f_detect_language_local);
  io_try
    (match langdetect w with
     | None => raise ImportError (lit "No module named 'langdetect'")
     | Some detect => ask (detect text0)
     end)
    (fun _ => mret (lit "unknown")).

(** [resp.raise_for_status()] *)
Definition raise_for_status (resp : http_response) : io unit :=
  if ((400 <=? status_code resp) && (status_code resp <? 600))%Z
  then raise HTTPError (lit "HTTP error status")
  else mret tt.

(** [data.get(key, "")] on the decoded body.  Only a dict has [get]; a
    stored value that is not a string is outside this model. *)
Definition get_text (data : pyval) (key : text) : outcome text :=
  match data with
  | PDict d =>
      match dict_get d key with
      | None => Ret []
      | Some (PStr s) => Ret s
      | Some _ => Beyond
      end
  | _ => Raise (no_attribute data (lit "get"))
  end.

Definition call_remote_translate (w : world) (text0 : text) : io text :=
  _ ← emit (Call f_call_remote_translate);
  io_try
    (let url := BACKEND_URL w ++ lit "/translate" in
     let payload := PDict [(lit "text", PStr text0)] in
     _ ← emit (Post url payload);
     resp ← ask (http_post w url payload);
     _ ← raise_for_status resp;
     data ← lift (Json.loads (body resp));
     lift (get_text data (lit "translated_text")))
    (fun e => raise RuntimeError (lit "Remote translation failed: " ++ exn_str e)).

Definition call_remote_response (w : world) (translated_text : text)
    (name : text) : io text :=
  _ ← emit (Call f_call_remote_response);
  io_try
    (let url := BACKEND_URL w ++ lit "/response" in
     let payload := PDict [(lit "translated_text", PStr translated_text);
                           (lit "name", PStr name)] in
     _ ← emit (Post url payload);
     resp ← ask (http_post w url payload);
     _ ← raise_for_status resp;
     data ← lift (Json.loads (body resp));
     lift (get_text data (lit "reply")))
    (fun e => raise RuntimeError
                (lit "Remote response generation failed: " ++ exn_str e)).

(** [from backend.translation_engine import ...] works when the package is
    there and the engine's own import of langdetect does. *)
Definition engine_importable (w : world) : bool :=
  backend_present w && bool_decide (is_Some (langdetect w)).

Definition translate_local (w : world) (text0 : text) : io text :=
  _ ← emit (Call f_translate_local);
  io_try
    (if engine_importable w
     then lift (TranslationEngine.translate_local text0)
     else raise ImportError (lit "No module named 'backend.translation_engine'"))
    (fun _ => mret text0).

(** The last-resort reply, an f-string; [nm = name or "Customer"]. *)
Definition last_resort_reply (translated_text nm : text) : text :=
  lit "Hi " ++ nm
  ++ lit ", thanks for reaching out. We received your message: " ++ [34]
  ++ slice_to 120 translated_text ++ lit "..." ++ [34]
  ++ lit " We'll get back within 24 hours.".

Definition generate_local_reply (w : world) (translated_text : text)
    (name : option text) : io text :=
  _ ← emit (Call f_generate_local_reply);
  io_try
    (match backend_present w, canned_template w with
     | true, Some tpl =>
         lift (ResponseGenerator.generate_local_reply tpl translated_text name)
     | _, _ => raise ImportError (lit "No module named 'backend.response_generator'")
     end)
    (fun _ =>
       io_try
         (match canned_template w with
          | Some tpl =>
              lift (format tpl
                      [(lit "name", or_else (default [] name) (lit "Customer"));
                       (lit "excerpt", slice_to 120 translated_text)])
          | None => raise ImportError (lit "No module named 'utils.prompts'")
          end)
         (fun _ =>
            let nm := or_else (default [] name) (lit "Customer") in
            mret (last_resort_reply translated_text nm))).

Definition LOCAL_FILE : string := "data/evaluations_local.json".

(** The body of the [except] branch of [save_evaluation_local]. *)
Definition save_evaluation_fallback (fs : files) (entry : pyval)
  : outcome files :=
  data ← match fs !! LOCAL_FILE with
         | Some content => try_except (Json.loads content) (fun _ => Ret (PList []))
         | None => Ret (PList [])
         end;
  data ← Evaluation.append data entry;
  content ← Json.dumps_within data;
  Ret (<[LOCAL_FILE := content]> fs).

Definition save_evaluation_local (w : world) (fs : files) (entry : pyval)
  : outcome files :=
  try_except
    (if utils_evaluation_present w
     then Evaluation.save_evaluation fs entry
     else Raise (Exn ImportError (lit "No module named 'utils.evaluation'")))
    (fun _ => save_evaluation_fallback fs entry).

Definition model_name (w : world) : text :=
  if openai_has_Model w then lit "gpt-4o-mini" else lit "gpt-4o".

Definition translation_prompt (text0 : text) : text :=
  lit "You are a translator. Translate the following text into clear natural English. "
  ++ lit "Output ONLY the translation." ++ [10; 10]
  ++ lit "Text:" ++ [10] ++ text0 ++ [10; 10] ++ lit "Translate into English:".

Definition translation_request (w : world) (text0 : text) : chat_request :=
  {| model := model_name w;
     messages := [(lit "user", translation_prompt text0)];
     temperature := 0;
     max_tokens := 1024 |}.

Definition translate_with_openai (w : world) (text0 : text) : io text :=
  _ ← emit (Call f_translate_with_openai);
  if negb (truthy (app_key w))
  then raise RuntimeError (lit "OpenAI API key not configured.")
  else
    io_try
      (_ ← (if openai_importable w then mret tt
            else raise ImportError (lit "No module named 'openai'"));
       _ ← emit (Chat (translation_request w text0));
       content ← ask (chat_completion w (translation_request w text0));
       mret (strip content))
      (fun e => raise RuntimeError (lit "OpenAI translation failed: " ++ exn_str e)).

Definition reply_prompt (translated_text : text) : text :=
  lit "You are an empathetic customer support agent. Using the message below, write a concise, polite reply "
  ++ lit "(3-6 sentences). Ask clarifying questions if needed and suggest next steps."
  ++ [10; 10] ++ lit "Customer message:" ++ [10] ++ translated_text
  ++ [10; 10] ++ lit "Reply:".

Definition reply_request (w : world) (translated_text : text) (temp : Q)
  : chat_request :=
  {| model := model_name w;
     messages := [(lit "user", reply_prompt translated_text)];
     temperature := temp;
     max_tokens := 256 |}.

Definition generate_reply_with_openai (w : world) (translated_text : text)
    (name : text) (temp : Q) : io text :=
  _ ← emit (Call f_generate_reply_with_openai);
  if negb (truthy (app_key w))
  then raise RuntimeError (lit "OpenAI API key not configured.")
  else
    io_try
      (_ ← (if openai_importable w then mret tt
            else raise ImportError (lit "No module named 'openai'"));
       _ ← emit (Chat (reply_request w translated_text temp));
       content ← ask (chat_completion w (reply_request w translated_text temp));
       mret (strip content))
      (fun e => raise RuntimeError
                  (lit "OpenAI response generation failed: " ++ exn_str e)).

(** ** The page *)

(** The sidebar: each field is the string the select box returned. *)
Record settings := Settings {
  backend_choice : text;        (* "remote (FastAPI)" or "local" *)
  translation_backend : text;   (* "auto", "openai" or "local" *)
  response_mode : text;         (* "AI-generated (if available)" or "Canned (template)" *)
  ai_temperature : Q
}.

(** The form [incoming_form]. *)
Record form := Form {
  customer_name : text;
  incoming_text : text;
  want_generate : bool;
  submit_btn : bool
}.

(** The three variables the script sets before it looks at the form. *)
Record page := Page {
  translated : text;
  suggested : text;
  detected_lang : text
}.

Definition initial_page : page := Page [] [] (lit "unknown").

(** [if msg: st.error(msg)] for a message that may still be [None]. *)
Definition show_error (msg : option text) : io unit :=
  match msg with
  | Some m => if truthy m then emit (Show st_error m) else mret tt
  | None => mret tt
  end.

(** Step 2: the translated text together with [translate_error]. *)
Definition resolve_translation (w : world) (s : settings) (incoming : text)
  : io (text * option text) :=
  io_try
    (if startswith (lit "remote") (backend_choice s) then
       io_try
         (t ← call_remote_translate w incoming; mret (t, None))
         (fun e_remote =>
            let translate_error :=
              lit "Remote translation failed: " ++ exn_str e_remote in
            t ← (if text_eqb (translation_backend s) (lit "openai")
                    && truthy (app_key w)
                 then translate_with_openai w incoming
                 else if text_eqb (translation_backend s) (lit "local")
                 then translate_local w incoming
                 else if truthy (app_key w)
                 then translate_with_openai w incoming
                 else translate_local w incoming);
            mret (t, Some translate_error))
     else
       t ← (if text_eqb (translation_backend s) (lit "openai")
               && truthy (app_key w)
            then translate_with_openai w incoming
            else translate_local w incoming);
       mret (t, None))
    (fun e => mret ([], Some (exn_str e))).

(** Step 3, inside [if want_generate]: the reply together with [gen_error]. *)
Definition generate_suggestion (w : world) (s : settings)
    (translated0 name : text) : io (text * option text) :=
  io_try
    (r ← (if startswith (lit "AI") (response_mode s)
             || text_eqb (response_mode s) (lit "AI-generated (if available)")
          then
            if startswith (lit "remote") (backend_choice s) then
              io_try
                (call_remote_response w translated0 name)
                (fun _ =>
                   if truthy (app_key w)
                   then generate_reply_with_openai w translated0 name
                          (ai_temperature s)
                   else generate_local_reply w translated0 (Some name))
            else
              if text_eqb (translation_backend s) (lit "openai")
                 && truthy (app_key w)
              then generate_reply_with_openai w translated0 name
                     (ai_temperature s)
              else generate_local_reply w translated0 (Some name)
          else generate_local_reply w translated0 (Some name));
     mret (r, None))
    (fun e => mret ([], Some (exn_str e))).

(** The script from the defaults down to the end of step 3. *)
Definition process_query (w : world) (s : settings) (f : form) : io page :=
  if negb (submit_btn f) then mret initial_page
  else if negb (truthy (strip (incoming_text f))) then
    _ ← emit (Show st_warning (lit "Please paste a message to translate."));
    mret initial_page
  else
    _ ← emit (Show st_markdown (lit "### Processing"));
    lang ← detect_language_local w (incoming_text f);
    _ ← emit (Show st_write
                (lit "**Detected language code:** `" ++ lang ++ lit "`"));
    '(translated0, translate_error) ← resolve_translation w s (incoming_text f);
    _ ← show_error translate_error;
    suggested0 ←
      (if truthy translated0 then
         _ ← emit (Show st_markdown (lit "### Translated to English"));
         _ ← emit (Show st_success translated0);
         if want_generate f then
           '(suggested0, gen_error) ←
             generate_suggestion w s translated0 (customer_name f);
           _ ← show_error gen_error;
           _ ← (if truthy suggested0 then
                  _ ← emit (Show st_markdown (lit "### Suggested Reply"));
                  emit (Show st_info suggested0)
                else emit (Show st_warning (lit "No suggested reply produced.")));
           mret suggested0
         else mret []
       else
         _ ← emit (Show st_warning (lit "No translation was produced."));
         mret []);
    mret (Page translated0 suggested0 lang).

(** Step 4: the entry the save button assembles, and the button.
    [rating] is [int(rating)] of the slider, which runs from 1 to 5. *)
Definition make_entry (incoming : text) (p : page) (rating : Z)
    (comments : text) : pyval :=
  PDict [(lit "input", PStr incoming);
         (lit "detected_language", PStr (detected_lang p));
         (lit "translated", PStr (translated p));
         (lit "suggested", PStr (suggested p));
         (lit "rating", PInt rating);
         (lit "comments", PStr comments)].

(** The block closes the branch that processed a message: the script
    reaches it only in a run whose form was submitted with a message that
    is not blank.  [save_clicked] is what [st.button] returned in that
    run. *)
Definition evaluation_block (w : world) (fs : files) (f : form) (p : page)
    (rating : Z) (comments : text) (save_clicked : bool) : io files :=
  if negb (submit_btn f) then mret fs
  else if negb (truthy (strip (incoming_text f))) then mret fs
  else
    _ ← emit (Show st_markdown (lit "---"));
    _ ← emit (Show st_subheader (lit "Quick Evaluation"));
    if save_clicked then
      io_try
        (fs' ← lift (save_evaluation_local w fs
                       (make_entry (incoming_text f) p rating comments));
         _ ← emit (Show st_success (lit "Evaluation saved."));
         mret fs')
        (fun e =>
           _ ← emit (Show st_error (lit "Failed to save evaluation: " ++ exn_str e));
           mret fs)
    else mret fs.

(** One run of the script from the defaults to the end of step 4: the page
    variables and the files it leaves. *)
Definition run (w : world) (fs : files) (s : settings) (f : form)
    (rating : Z) (comments : text) (save_clicked : bool) : io (page * files) :=
  p ← process_query w s f;
  fs' ← evaluation_block w fs f p rating comments save_clicked;
  mret (p, fs').

End App.

(* ===================================================================== *)
(** * Vocabulary of the properties                                        *)
(* ===================================================================== *)

Module Properties.

Import Evaluation.

#[export] Instance outcome_fmap : FMap outcome := fun A B f m =>
  match m with
  | Ret a => Ret (f a)
  | Raise e => Raise e
  | Beyond => Beyond
  end.

(** ** Evaluation entries *)

(** An entry as the data model has it: five texts and a rating. *)
Record entry := Entry {
  input : text;
  detected_language : text;
  translated_text : text;
  suggested_reply : text;
  rating : Z;
  comments : text
}.

(** The dict the save button builds for it. *)
Definition entry_dict (e : entry) : pyval :=
  App.make_entry (input e)
    (App.Page (translated_text e) (suggested_reply e) (detected_language e))
    (rating e) (comments e).

(** Texts hold Unicode scalar values; the rating is one of 1 to 5. *)
Definition entry_ok (e : entry) : Prop :=
  valid_text (input e) = true /\ valid_text (detected_language e) = true /\
  valid_text (translated_text e) = true /\ valid_text (suggested_reply e) = true /\
  valid_text (comments e) = true /\ (1 <= rating e <= 5)%Z.

(** [save_evaluation] called once per entry, in order. *)
Fixpoint save_all (fs : files) (entries : list pyval) : outcome files :=
  match entries with
  | [] => Ret fs
  | e :: es => fs' ← save_evaluation fs e; save_all fs' es
  end.

(** The state of the log after the entries [done] went in: no file yet when
    nothing was saved, else the encoded list. *)
Definition holds (fs : files) (done : list pyval) : Prop :=
  (done = [] /\ fs !! DATA_FILE = None)
  \/ fs !! DATA_FILE = Some (Json.dumps (PList done)).

(** ** Templates *)

(** A format string cut into literal text and the two placeholders. *)
Inductive piece :=
| Lit (s : text)
| NameField
| ExcerptField.

(** Literal text as it is written inside a format string: braces doubled. *)
Definition escape_brace (c : char) : text :=
  if (c =? 123) || (c =? 125) then [c; c] else [c].

Definition piece_text (p : piece) : text :=
  match p with
  | Lit s => flat_map escape_brace s
  | NameField => lit "{name}"
  | ExcerptField => lit "{excerpt}"
  end.
Definition template_text (ps : list piece) : text := flat_map piece_text ps.

(** The template with a name and an excerpt put in the placeholders. *)
Definition fill (ps : list piece) (name excerpt : text) : text :=
  flat_map (fun p => match p with
                     | Lit s => s
                     | NameField => name
                     | ExcerptField => excerpt
                     end) ps.

(** The name to greet: the literal "Customer" when none was given or the
    one given is empty. *)
Definition greeted (name : option text) : text :=
  match name with
  | Some (c :: n) => c :: n
  | _ => lit "Customer"
  end.

(** The first 120 characters, or the whole text if it is shorter. *)
Definition excerpt (translated : text) : text :=
  if (length translated <=? 120)%nat then translated else firstn 120 translated.

(** The pieces of the last-resort f-string of app.py. *)
Definition last_resort_pieces : list piece :=
  [Lit (lit "Hi "); NameField;
   Lit (lit ", thanks for reaching out. We received your message: " ++ [34]);
   ExcerptField;
   Lit (lit "..." ++ [34] ++ lit " We'll get back within 24 hours.")].

(** ** Prompts *)

(** The instruction the specification quotes for translation. *)
Definition quoted_instruction : text :=
  lit "You are a translator. Translate the following text into clear natural English. Output ONLY the translation.".

(** The instruction the Translation Engine sends. *)
Definition engine_instruction : text :=
  lit "You are a high quality translator. Translate the text below into clear natural English and output ONLY the translation.".

(** How both prompts embed the text after the instruction. *)
Definition embedding (text0 : text) : text :=
  [10; 10] ++ lit "Text:" ++ [10] ++ text0 ++ [10; 10]
  ++ lit "Translate into English:".

(** A request as the claim describes it, for a given instruction. *)
Definition translation_request_with (instruction : text) (req : chat_request)
    (text0 : text) : Prop :=
  messages req = [(lit "user", instruction ++ embedding text0)] /\
  temperature req = 0%Q /\ max_tokens req = 1024%Z.

Definition chat_requests (tr : list event) : list chat_request :=
  flat_map (fun e => match e with Chat r => [r] | _ => [] end) tr.

(** ** Strategies *)

Definition is_translation (e : event) : bool :=
  match e with
  | Call f_call_remote_translate | Call f_translate_with_openai
  | Call f_translate_local => true
  | _ => false
  end.

Definition is_reply (e : event) : bool :=
  match e with
  | Call f_call_remote_response | Call f_generate_reply_with_openai
  | Call f_generate_local_reply => true
  | _ => false
  end.

(** No event of the trace satisfies [p]. *)
Definition none_of (p : event -> bool) (tr : list event) : Prop :=
  Forall (fun e => p e = false) tr.

(** Every event a computation causes satisfies [P]. *)
Definition emits {A} (P : event -> Prop) (m : io A) : Prop := Forall P (fst m).

Definition not_reply (e : event) : Prop := is_reply e = false.
Definition not_translation (e : event) : Prop := is_translation e = false.

(** The computation ends without an exception reaching its caller. *)
Definition never_raises {A} (m : io A) : Prop := forall e, snd m <> Raise e.

(** The first thing the computation does is enter a translation strategy. *)
Definition starts_translating {A} (m : io A) : Prop :=
  exists e tl, fst m = e :: tl /\ is_translation e = true.

(** The trace falls into a part without any reply strategy followed by a
    part without any translation strategy, and a reply strategy in the
    second part means a translation strategy in the first. *)
Definition translation_first (tr : list event) : Prop :=
  exists before after,
    tr = before ++ after
    /\ none_of is_reply before /\ none_of is_translation after
    /\ (~ none_of is_reply after -> ~ none_of is_translation before).

(** [resp.raise_for_status()] lets the response through. *)
Definition http_success (resp : http_response) : Prop :=
  ~ (400 <= status_code resp < 600)%Z.

End Properties.

(* ===================================================================== *)
(** * Sample surroundings                                                 *)
(* ===================================================================== *)

Module Samples.

Import Properties.

Definition sample_template : list piece :=
  [Lit (lit "Hello "); NameField; Lit (lit ", we read {your} note: ");
   ExcerptField; Lit (lit " Thank you.")].

(** No key, no network, no optional package. *)
Definition offline : world :=
  {| app_key := [];
     backend_key := None;
     BACKEND_URL := lit "http://localhost:8000";
     openai_importable := false;
     openai_has_Model := false;
     chat_completion := fun _ => inl (Exn OpenAIError (lit "no connection"));
     http_post := fun _ _ => inl (Exn ConnectionError (lit "connection refused"));
     langdetect := None;
     backend_present := true;
     utils_evaluation_present := true;
     canned_template := Some (template_text sample_template) |}.

(** A key is set and the language model answers. *)
Definition online : world :=
  {| app_key := lit "sk-test";
     backend_key := Some (lit "sk-test");
     BACKEND_URL := lit "http://localhost:8000";
     openai_importable := true;
     openai_has_Model := false;
     chat_completion := fun _ => inr (lit " I would like to cancel my order. ");
     http_post := fun _ _ => inl (Exn ConnectionError (lit "connection refused"));
     langdetect := Some (fun _ => inl (Exn LangDetectException (lit "No features in text.")));
     backend_present := true;
     utils_evaluation_present := true;
     canned_template := Some (template_text sample_template) |}.

(** The backend answers every request with status 200 and the body [{}]. *)
Definition hollow_backend : world :=
  {| app_key := [];
     backend_key := None;
     BACKEND_URL := lit "http://localhost:8000";
     openai_importable := false;
     openai_has_Model := false;
     chat_completion := fun _ => inl (Exn OpenAIError (lit "no connection"));
     http_post := fun _ _ => inr (HttpResponse 200 (lit "{}"));
     langdetect := None;
     backend_present := true;
     utils_evaluation_present := true;
     canned_template := Some (template_text sample_template) |}.

Definition bonjour : text := lit "Bonjour, je voudrais annuler ma commande.".

Definition sample_entry : entry :=
  {| input := bonjour;
     detected_language := lit "fr";
     translated_text := bonjour;
     suggested_reply := lit "Hello Customer";
     rating := 4;
     comments := [233; 116; 233; 128512] |}.

Definition second_entry : entry :=
  {| input := lit "Hola";
     detected_language := lit "es";
     translated_text := lit "Hello";
     suggested_reply := [];
     rating := 5;
     comments := [] |}.

(** A log file somebody truncated by hand. *)
Definition broken_log : text := lit "[{ input: ".

Definition sample_settings : App.settings :=
  {| App.backend_choice := lit "local";
     App.translation_backend := lit "local";
     App.response_mode := lit "Canned (template)";
     App.ai_temperature := 2 # 10 |}.

Definition remote_settings : App.settings :=
  {| App.backend_choice := lit "remote (FastAPI)";
     App.translation_backend := lit "auto";
     App.response_mode := lit "AI-generated (if available)";
     App.ai_temperature := 2 # 10 |}.

Definition sample_form : App.form :=
  {| App.customer_name := [];
     App.incoming_text := bonjour;
     App.want_generate := true;
     App.submit_btn := true |}.

End Samples.

(* ===================================================================== *)
(** * Vocabulary of the further properties                                *)
(* ===================================================================== *)

Module Further.

Import Evaluation Properties Samples.

(** Every character is below 128. *)
Definition ascii_only (s : text) : bool := forallb (fun c => c <? 128) s.

(** No whitespace at either end. *)
Definition trimmed (s : text) : Prop :=
  lstrip s = s /\ lstrip (rev s) = rev s.

Definition is_list (v : pyval) : bool :=
  match v with PList _ => true | _ => false end.
Definition is_dict (v : pyval) : bool :=
  match v with PDict _ => true | _ => false end.

(** What the body of a remote-call helper computes before its [except]
    clause wraps a failure: the answer checked, decoded and looked up. *)
Definition served (a : answer http_response) (key : text) : outcome text :=
  match a with
  | inl e => Raise e
  | inr resp =>
      if ((400 <=? status_code resp) && (status_code resp <? 600))%Z
      then Raise (Exn HTTPError (lit "HTTP error status"))
      else data ← Json.loads (body resp); App.get_text data key
  end.

(** [raise RuntimeError(prefix + str(e))] for whatever was caught. *)
Definition wrapped (prefix : text) (o : outcome text) : outcome text :=
  match o with
  | Raise e => Raise (Exn RuntimeError (prefix ++ exn_str e))
  | _ => o
  end.

(** The HTTP requests and the helper entries of a trace, in order. *)
Definition posts (tr : list event) : list (text * pyval) :=
  flat_map (fun e => match e with Post u p => [(u, p)] | _ => [] end) tr.
Definition calls (tr : list event) : list fn :=
  flat_map (fun e => match e with Call f => [f] | _ => [] end) tr.

(** What is put on the page with a given widget. *)
Definition shown (k : widget) (tr : list event) : list text :=
  flat_map (fun e => match e with
                     | Show st_warning m => match k with st_warning => [m] | _ => [] end
                     | Show st_error m => match k with st_error => [m] | _ => [] end
                     | Show st_success m => match k with st_success => [m] | _ => [] end
                     | Show st_info m => match k with st_info => [m] | _ => [] end
                     | _ => []
                     end) tr.

(** The two requests the application sends to the backend. *)
Definition translate_url (w : world) : text := BACKEND_URL w ++ lit "/translate".
Definition translate_payload (text0 : text) : pyval :=
  PDict [(lit "text", PStr text0)].
Definition response_url (w : world) : text := BACKEND_URL w ++ lit "/response".
Definition response_payload (translated0 name : text) : pyval :=
  PDict [(lit "translated_text", PStr translated0); (lit "name", PStr name)].

(** The answer has a success status and its body decodes to [v]. *)
Definition carries (resp : http_response) (v : pyval) : Prop :=
  http_success resp /\ Json.loads (body resp) = Ret v.

(** The operator did not ask for the language model by name, or no key is
    set: the condition under which the local-only branches stay local. *)
Definition model_not_chosen (w : world) (s : App.settings) : Prop :=
  text_eqb (App.translation_backend s) (lit "openai") && truthy (app_key w) = false.

(** No request to the language model. *)
Definition not_chat (e : event) : Prop :=
  match e with Chat _ => False | _ => True end.

(** At most [n] events of the kind [p] in whatever the computation does. *)
Definition is_post (e : event) : bool :=
  match e with Post _ _ => true | _ => false end.
Definition is_chat (e : event) : bool :=
  match e with Chat _ => true | _ => false end.
Definition at_most {A} (n : nat) (p : event -> bool) (m : io A) : Prop :=
  (length (List.filter p (fst m)) <= n)%nat.

(** Steps 3 to 5 of the page for a given outcome of step 2: what
    [process_query] goes on to do once the language is detected and the
    translation resolved to [translated0] with [translate_error]. *)
Definition after_translation (w : world) (s : App.settings) (f : App.form)
    (lang translated0 : text) (translate_error : option text) : io App.page :=
  _ ← App.show_error translate_error;
  suggested0 ←
    (if truthy translated0 then
       _ ← emit (Show st_markdown (lit "### Translated to English"));
       _ ← emit (Show st_success translated0);
       if App.want_generate f then
         '(suggested0, gen_error) ←
           App.generate_suggestion w s translated0 (App.customer_name f);
         _ ← App.show_error gen_error;
         _ ← (if truthy suggested0 then
                _ ← emit (Show st_markdown (lit "### Suggested Reply"));
                emit (Show st_info suggested0)
              else emit (Show st_warning (lit "No suggested reply produced.")));
         mret suggested0
       else mret []
     else
       _ ← emit (Show st_warning (lit "No translation was produced."));
       mret []);
  mret (App.Page translated0 suggested0 lang).

(** The error messages of the helpers. *)
Definition remote_translation_failed : text := lit "Remote translation failed: ".
Definition remote_response_failed : text := lit "Remote response generation failed: ".
Definition openai_translation_failed : text := lit "OpenAI translation failed: ".
Definition openai_response_failed : text := lit "OpenAI response generation failed: ".
Definition key_not_configured : text := lit "OpenAI API key not configured.".

(** ** More surroundings *)

(** A key is set, and the model answers with blanks only. *)
Definition blank_model : world :=
  {| app_key := lit "sk-test";
     backend_key := Some (lit "sk-test");
     BACKEND_URL := lit "http://localhost:8000";
     openai_importable := true;
     openai_has_Model := true;
     chat_completion := fun _ => inr [32; 10; 9; 32];
     http_post := fun _ _ => inl (Exn ConnectionError (lit "connection refused"));
     langdetect := None;
     backend_present := true;
     utils_evaluation_present := true;
     canned_template := Some (template_text sample_template) |}.

(** The backend answers with the given status and body. *)
Definition backend_answering (status : Z) (body0 : text) : world :=
  {| app_key := [];
     backend_key := None;
     BACKEND_URL := lit "http://localhost:8000";
     openai_importable := false;
     openai_has_Model := false;
     chat_completion := fun _ => inl (Exn OpenAIError (lit "no connection"));
     http_post := fun _ _ => inr (HttpResponse status body0);
     langdetect := None;
     backend_present := true;
     utils_evaluation_present := true;
     canned_template := Some (template_text sample_template) |}.

(** The packages [utils] and [backend] are not on the import path. *)
Definition bare : world :=
  {| app_key := [];
     backend_key := None;
     BACKEND_URL := lit "http://localhost:8000";
     openai_importable := false;
     openai_has_Model := false;
     chat_completion := fun _ => inl (Exn OpenAIError (lit "no connection"));
     http_post := fun _ _ => inl (Exn ConnectionError (lit "connection refused"));
     langdetect := None;
     backend_present := false;
     utils_evaluation_present := false;
     canned_template := None |}.

(** A key is set, and neither the backend nor the model can be reached. *)
Definition model_down : world :=
  {| app_key := lit "sk-test";
     backend_key := Some (lit "sk-test");
     BACKEND_URL := lit "http://localhost:8000";
     openai_importable := true;
     openai_has_Model := false;
     chat_completion := fun _ => inl (Exn OpenAIError (lit "rate limit reached"));
     http_post := fun _ _ => inl (Exn ConnectionError (lit "connection refused"));
     langdetect := None;
     backend_present := true;
     utils_evaluation_present := true;
     canned_template := Some (template_text sample_template) |}.

(** A template that names a placeholder nobody fills. *)
Definition stray_template : text := lit "Dear {name}, {greeting}".

Definition with_template (tpl : text) : world :=
  {| app_key := [];
     backend_key := None;
     BACKEND_URL := lit "http://localhost:8000";
     openai_importable := false;
     openai_has_Model := false;
     chat_completion := fun _ => inl (Exn OpenAIError (lit "no connection"));
     http_post := fun _ _ => inl (Exn ConnectionError (lit "connection refused"));
     langdetect := None;
     backend_present := true;
     utils_evaluation_present := true;
     canned_template := Some tpl |}.

Definition openai_settings : App.settings :=
  {| App.backend_choice := lit "local";
     App.translation_backend := lit "openai";
     App.response_mode := lit "AI-generated (if available)";
     App.ai_temperature := 2 # 10 |}.

Definition canned_remote_settings : App.settings :=
  {| App.backend_choice := lit "remote (FastAPI)";
     App.translation_backend := lit "openai";
     App.response_mode := lit "Canned (template)";
     App.ai_temperature := 2 # 10 |}.

Definition blank_form : App.form :=
  {| App.customer_name := lit "Ana";
     App.incoming_text := [32; 10; 32];
     App.want_generate := true;
     App.submit_btn := true |}.

(** A log another tool wrote on one line. *)
Definition compact_log : text := lit "[1, [2]]".
(** A log that holds an object instead of a list. *)
Definition object_log : text := lit "{}".

End Further.

(* ===================================================================== *)
(** * Facts about the [json] module                                       *)
(* ===================================================================== *)

Module JsonFacts.
Import Json.

(** Arithmetic with [/] and [mod] by constants goes through [lia]. *)
Ltac divmod := 
  let go := (Z.to_euclidean_division_equations; lia) in
  zify; go.

Lemma hexval_hexdigit d : d < 16 -> hexval (hexdigit d) = Some d.
Proof.
  intros Hd. unfold hexval, hexdigit.
  destruct (N.ltb_spec d 10) as [Hlt|Hge].
  - replace ((48 <=? 48 + d) && (48 + d <=? 57)) with true
      by (symmetry; apply andb_true_iff; split; apply N.leb_le; lia).
    f_equal. lia.
  - replace ((48 <=? 87 + d) && (87 + d <=? 57)) with false
      by (symmetry; apply andb_false_iff; right; apply N.leb_gt; lia).
    replace ((97 <=? 87 + d) && (87 + d <=? 102)) with true
      by (symmetry; apply andb_true_iff; split; apply N.leb_le; lia).
    f_equal. lia.
Qed.

Lemma unhex4_hex4 n :
  n < 65536 ->
  unhex4 (hexdigit (n / 4096 mod 16)) (hexdigit (n / 256 mod 16))
         (hexdigit (n / 16 mod 16)) (hexdigit (n mod 16)) = Some n.
Proof.
  intros Hn. unfold unhex4.
  rewrite !hexval_hexdigit by divmod.
  f_equal. divmod.
Qed.


(** Bit operations of the surrogate arithmetic, as sums. *)
Lemma lor_high a b : b < 1024 -> N.lor (a * 1024) b = a * 1024 + b.
Proof.
  intros Hb.
  assert (Hland : N.land (a * 1024) b = 0).
  { apply N.bits_inj. intros n. rewrite N.land_spec, N.bits_0.
    change 1024 with (2 ^ 10).
    destruct (N.lt_ge_cases n 10) as [Hn|Hn].
    - rewrite N.mul_pow2_bits_low by assumption. reflexivity.
    - rewrite <- (N.mod_small b (2 ^ 10)) by exact Hb.
      rewrite N.mod_pow2_bits_high by assumption. apply andb_false_r. }
  rewrite <- N.lxor_lor by exact Hland.
  symmetry. apply N.add_nocarry_lxor. exact Hland.
Qed.

Lemma land_1023 x : N.land x 1023 = x mod 1024.
Proof. change 1023 with (N.ones 10). rewrite N.land_ones. reflexivity. Qed.

Lemma high_surrogate n :
  n < 1048576 ->
  N.lor 55296 (N.land (N.shiftr n 10) 1023) = 55296 + n / 1024.
Proof.
  intros Hn. rewrite land_1023, N.shiftr_div_pow2.
  change (2 ^ 10) with 1024. change 55296 with (54 * 1024).
  rewrite lor_high by divmod. divmod.
Qed.

Lemma low_surrogate n :
  N.lor 56320 (N.land n 1023) = 56320 + n mod 1024.
Proof.
  rewrite land_1023. change 56320 with (55 * 1024).
  rewrite lor_high by divmod. reflexivity.
Qed.

Lemma join_surrogates_split n :
  n < 1048576 ->
  join_surrogates (55296 + n / 1024) (56320 + n mod 1024) = 65536 + n.
Proof.
  intros Hn. unfold join_surrogates.
  rewrite N.shiftl_mul_pow2. change (2 ^ 10) with 1024.
  replace (55296 + n / 1024 - 55296) with (n / 1024) by divmod.
  replace (56320 + n mod 1024 - 56320) with (n mod 1024) by divmod.
  rewrite lor_high by divmod. divmod.
Qed.

(** One step of [scanstring] for each shape of escape. *)
Lemma scanstring_plain c rest acc :
  c <> 34 -> c <> 92 -> 32 <= c ->
  scanstring (c :: rest) acc = scanstring rest (acc ++ [c]).
Proof.
  intros H1 H2 H3. cbn [scanstring].
  destruct (N.eqb_spec c 34); [contradiction|].
  destruct (N.eqb_spec c 92); [contradiction|].
  destruct (N.ltb_spec c 32); [lia|]. reflexivity.
Qed.

Lemma scanstring_u h1 h2 h3 h4 rest acc u :
  unhex4 h1 h2 h3 h4 = Some u -> is_high u = false ->
  scanstring (92 :: 117 :: h1 :: h2 :: h3 :: h4 :: rest) acc
  = scanstring rest (acc ++ [u]).
Proof.
  intros Hu Hh. cbn [scanstring]. cbn [N.eqb Pos.eqb]. rewrite Hu, Hh.
  destruct rest as [|b [|e2 r3]]; reflexivity.
Qed.

Lemma scanstring_pair h1 h2 h3 h4 g1 g2 g3 g4 rest acc u u2 :
  unhex4 h1 h2 h3 h4 = Some u -> is_high u = true ->
  unhex4 g1 g2 g3 g4 = Some u2 -> is_low u2 = true ->
  scanstring (92 :: 117 :: h1 :: h2 :: h3 :: h4
              :: 92 :: 117 :: g1 :: g2 :: g3 :: g4 :: rest) acc
  = scanstring rest (acc ++ [join_surrogates u u2]).
Proof.
  intros Hu Hh Hu2 Hl. cbn [scanstring]. cbn [N.eqb Pos.eqb].
  rewrite Hu, Hh. cbn [andb]. rewrite Hu2, Hl. reflexivity.
Qed.

Lemma scanstring_escape c rest acc :
  scalar c = true ->
  scanstring (escape_char c ++ rest) acc = scanstring rest (acc ++ [c]).
Proof.
  unfold scalar, is_surrogate. intros Hc.
  apply andb_true_iff in Hc as [Hmax Hsur].
  apply N.ltb_lt in Hmax. apply negb_true_iff in Hsur.
  unfold escape_char.
  destruct (N.eqb_spec c 34) as [->|H34]; [reflexivity|].
  destruct (N.eqb_spec c 92) as [->|H92]; [reflexivity|].
  destruct (N.eqb_spec c 10) as [->|H10]; [reflexivity|].
  destruct (N.eqb_spec c 13) as [->|H13]; [reflexivity|].
  destruct (N.eqb_spec c 9) as [->|H9]; [reflexivity|].
  destruct (N.eqb_spec c 8) as [->|H8]; [reflexivity|].
  destruct (N.eqb_spec c 12) as [->|H12]; [reflexivity|].
  destruct ((32 <=? c) && (c <=? 126)) eqn:Hprint.
  { apply andb_true_iff in Hprint as [Hlo _]. apply N.leb_le in Hlo.
    apply scanstring_plain; assumption. }
  destruct (N.ltb_spec c 65536) as [Hbmp|Hastral].
  - unfold hex4. cbn [app].
    apply scanstring_u; [apply unhex4_hex4; exact Hbmp|].
    unfold is_high. apply andb_false_iff.
    apply andb_false_iff in Hsur as [H|H]; [left; exact H|].
    apply N.leb_gt in H.
    destruct (N.leb_spec 55296 c); [right; apply N.leb_gt; lia | left; reflexivity].
  - cbv zeta. rewrite high_surrogate, low_surrogate by lia.
    unfold hex4. cbn [app].
    assert (Hq : (c - 65536) / 1024 < 1024) by divmod.
    assert (Hr : (c - 65536) mod 1024 < 1024) by divmod.
    assert (Hj : join_surrogates (55296 + (c - 65536) / 1024)
                   (56320 + (c - 65536) mod 1024) = c)
      by (rewrite join_surrogates_split; lia).
    rewrite <- Hj at 9.
    apply scanstring_pair.
    + apply unhex4_hex4. divmod.
    + unfold is_high. apply andb_true_iff; split; apply N.leb_le; divmod.
    + apply unhex4_hex4. lia.
    + unfold is_low. apply andb_true_iff; split; apply N.leb_le; divmod.
Qed.

Lemma scanstring_body s rest acc :
  valid_text s = true ->
  scanstring (flat_map escape_char s ++ 34 :: rest) acc = Scanned (acc ++ s) rest.
Proof.
  revert acc. induction s as [|c s IH]; intros acc Hs.
  - cbn. rewrite app_nil_r. reflexivity.
  - cbn [valid_text forallb] in Hs. apply andb_true_iff in Hs as [Hc Hs].
    cbn [flat_map]. rewrite <- app_assoc.
    rewrite scanstring_escape by exact Hc.
    rewrite IH by exact Hs. rewrite <- app_assoc. reflexivity.
Qed.


(** Integers. *)
Lemma delim_not_digit c rest : delim (c :: rest) -> is_digit c = false.
Proof. intros [->| ->]; reflexivity. Qed.

Lemma delim_no_float rest : delim rest -> has_frac rest || has_exp rest = false.
Proof. destruct rest as [|c r]; [reflexivity|]. intros [->| ->]; reflexivity. Qed.

Lemma digits_stop rest acc : delim rest -> digits rest acc = (acc, rest).
Proof.
  destruct rest as [|c r]; [reflexivity|]. intros H.
  cbn [digits]. rewrite (delim_not_digit _ _ H). reflexivity.
Qed.

Lemma digits_uint d acc rest :
  delim rest ->
  digits (uint_digits d ++ rest) (N.pos acc) = (N.pos (Pos.of_uint_acc d acc), rest).
Proof.
  intros Hr. revert acc.
  induction d; intros acc; cbn [uint_digits app Pos.of_uint_acc];
    [apply digits_stop; exact Hr | ..];
    cbn [digits]; change (is_digit _) with true; cbv iota;
    rewrite <- IHd; f_equal; lia.
Qed.

Lemma nzhead_not_D0 d l : Decimal.nzhead d <> Decimal.D0 l.
Proof. induction d; cbn; try discriminate. exact IHd. Qed.

Lemma unorm_fix_D0 l : Decimal.unorm (Decimal.D0 l) = Decimal.D0 l -> l = Decimal.Nil.
Proof.
  rewrite unorm_D0. unfold Decimal.unorm.
  destruct (Decimal.nzhead l) eqn:E; intros H; try discriminate H.
  - congruence.
  - exfalso. exact (nzhead_not_D0 _ _ E).
Qed.

(** The digits counted are the digits written. *)
Lemma count_fits c (t rest : text) :
  (length (c :: t) <= max_digits)%nat ->
  (max_digits <? length (c :: t ++ rest) - length rest)%nat = false.
Proof.
  intros H. apply Nat.ltb_ge. cbn [length] in *. rewrite length_app. lia.
Qed.

Lemma scan_integer_uint (neg : bool) d rest :
  Decimal.unorm d = d -> delim rest ->
  (length (uint_digits d) <= max_digits)%nat ->
  scan_integer neg (uint_digits d ++ rest)
  = Scanned (PInt (if neg then Z.opp (Z.of_N (N.of_uint d))
                   else Z.of_N (N.of_uint d))) rest.
Proof.
  intros Hd Hr Hlen.
  destruct d; [discriminate Hd | apply unorm_fix_D0 in Hd; subst d | ..];
    unfold scan_integer, finish_number; cbn [app uint_digits];
    cbn [N.eqb Pos.eqb is_digit N.leb N.compare Pos.compare Pos.compare_cont andb];
    try match goal with
        | |- context [digits _ (?a - ?b)] =>
            let v := eval vm_compute in (a - b) in change (a - b) with v
        end;
    rewrite ?(digits_uint _ _ _ Hr), ?(delim_no_float _ Hr);
    [reflexivity | ..]; (rewrite count_fits; [reflexivity | exact Hlen]).
Qed.

Lemma uint_digits_head d :
  d <> Decimal.Nil -> exists c t, uint_digits d = c :: t /\ is_digit c = true.
Proof. destruct d; [congruence|..]; intros _; eexists _, _; split; reflexivity. Qed.

Lemma scan_number_uint (neg : bool) d rest :
  Decimal.unorm d = d -> delim rest ->
  (length (uint_digits d) <= max_digits)%nat ->
  scan_number ((if neg then [45] else []) ++ uint_digits d ++ rest)
  = Scanned (PInt (if neg then Z.opp (Z.of_N (N.of_uint d))
                   else Z.of_N (N.of_uint d))) rest.
Proof.
  intros Hd Hr Hlen. destruct neg; cbn [app].
  - unfold scan_number. cbn [N.eqb Pos.eqb]. apply scan_integer_uint; assumption.
  - rewrite <- (scan_integer_uint false d rest Hd Hr Hlen).
    destruct (uint_digits_head d) as (c & t & Heq & Hc).
    { intros ->. discriminate Hd. }
    rewrite Heq. cbn [app]. unfold scan_number.
    destruct (N.eqb_spec c 45) as [->|_]; [discriminate Hc | reflexivity].
Qed.

Lemma to_uint_norm n : Decimal.unorm (N.to_uint n) = N.to_uint n.
Proof.
  rewrite <- (DecimalN.Unsigned.of_to n) at 2.
  symmetry. apply DecimalN.Unsigned.to_of.
Qed.

Lemma scan_number_int z rest :
  delim rest -> (length (encode_nat (Z.abs_N z)) <= max_digits)%nat ->
  scan_number (encode_int z ++ rest) = Scanned (PInt z) rest.
Proof.
  intros Hr Hlen. destruct z as [|p|p]; unfold encode_int, encode_nat in *;
    cbn [Z.abs_N Z.to_N] in *.
  - exact (scan_number_uint false _ _ (to_uint_norm 0) Hr Hlen).
  - pose proof (scan_number_uint false _ rest (to_uint_norm (N.pos p)) Hr Hlen) as H.
    rewrite DecimalN.Unsigned.of_to in H. exact H.
  - pose proof (scan_number_uint true _ rest (to_uint_norm (N.pos p)) Hr Hlen) as H.
    rewrite DecimalN.Unsigned.of_to in H. exact H.
Qed.


(** Whitespace and the first character of an encoding. *)
Lemma skip_ws_opens s : opens_value s -> skip_ws s = s.
Proof.
  destruct s as [|c r]; [intros []|]. intros (Hws & _ & _).
  cbn [skip_ws]. rewrite Hws. reflexivity.
Qed.

Lemma skip_ws_spaces n s : skip_ws (repeat 32 n ++ s) = skip_ws s.
Proof. induction n as [|n IH]; [reflexivity|]. exact IH. Qed.

Lemma skip_ws_newline_indent level s :
  skip_ws (newline_indent level ++ s) = skip_ws s.
Proof. unfold newline_indent. cbn [app skip_ws is_ws]. apply skip_ws_spaces. Qed.

Lemma opens_value_app s t : opens_value s -> opens_value (s ++ t).
Proof. destruct s; [intros []|]. exact id. Qed.

Lemma uint_digits_opens d : d <> Decimal.Nil -> opens_value (uint_digits d).
Proof. destruct d; [congruence|..]; intros _; repeat split; discriminate. Qed.

Lemma to_uint_nonnil n : N.to_uint n <> Decimal.Nil.
Proof. rewrite <- to_uint_norm. apply unorm_nonnil. Qed.

Lemma encode_opens level v : opens_value (encode level v).
Proof.
  destruct v as [| [|] | z | s | [|x l] | [|kv d]];
    try (repeat split; discriminate).
  destruct z; cbn [encode encode_int]; unfold encode_nat;
    try (apply uint_digits_opens, to_uint_nonnil).
  repeat split; discriminate.
Qed.

(** [join] as a head and the separated tail. *)
Lemma join_cons sep c cs :
  join sep (c :: cs) = c ++ flat_map (fun x => sep ++ x) cs.
Proof.
  revert c. induction cs as [|c' cs IH]; intros c.
  - cbn. rewrite app_nil_r. reflexivity.
  - change (join sep (c :: c' :: cs)) with (c ++ sep ++ join sep (c' :: cs)).
    rewrite IH. cbn [flat_map]. rewrite <- app_assoc. reflexivity.
Qed.

Lemma dict_set_fresh d k v :
  k ∉ List.map fst d -> dict_set d k v = d ++ [(k, v)].
Proof.
  induction d as [|[k' v'] d IH]; intros Hk; [reflexivity|].
  cbn [dict_set]. cbn [List.map fst] in Hk.
  apply not_elem_of_cons in Hk as [Hne Hk].
  rewrite bool_decide_eq_false_2 by congruence.
  rewrite IH by exact Hk. reflexivity.
Qed.

Lemma dict_of_pairs_nodup pairs acc :
  NoDup (List.map fst (acc ++ pairs)) ->
  fold_left (fun d kv => dict_set d (fst kv) (snd kv)) pairs acc = acc ++ pairs.
Proof.
  revert acc. induction pairs as [|[k v] pairs IH]; intros acc Hnd.
  - rewrite app_nil_r. reflexivity.
  - cbn [fold_left fst snd].
    assert (Hk : k ∉ List.map fst acc).
    { rewrite List.map_app in Hnd. apply NoDup_app in Hnd as (_ & Hdisj & _).
      intros Hin. apply (Hdisj k Hin). cbn. left. }
    rewrite dict_set_fresh by exact Hk.
    rewrite IH; rewrite <- app_assoc; [reflexivity | exact Hnd].
Qed.

Lemma dict_of_pairs_id d : NoDup (List.map fst d) -> dict_of_pairs d = d.
Proof. intros H. unfold dict_of_pairs. apply (dict_of_pairs_nodup d []). exact H. Qed.

Lemma lit_null : lit "null" = [110; 117; 108; 108].
Proof. reflexivity. Qed.
Lemma lit_true : lit "true" = [116; 114; 117; 101].
Proof. reflexivity. Qed.
Lemma lit_false : lit "false" = [102; 97; 108; 115; 101].
Proof. reflexivity. Qed.

(** Entering [scan_once] on something that is not a string or container. *)
Lemma scan_once_atom fuel depth c s :
  c <> 34 -> c <> 123 -> c <> 91 ->
  scan_once (S fuel) depth (c :: s) = scan_atom (c :: s).
Proof.
  intros H1 H2 H3. cbn [scan_once].
  destruct (N.eqb_spec c 34); [contradiction|].
  destruct (N.eqb_spec c 123); [contradiction|].
  destruct (N.eqb_spec c 91); [contradiction|]. reflexivity.
Qed.

Lemma scan_once_int fuel depth z rest :
  delim rest -> (length (encode_nat (Z.abs_N z)) <= max_digits)%nat ->
  scan_once (S fuel) depth (encode_int z ++ rest) = Scanned (PInt z) rest.
Proof.
  intros Hr Hlen. pose proof (scan_number_int z rest Hr Hlen) as Hn.
  assert (Hhead : exists c s, encode_int z ++ rest = c :: s
                    /\ (c = 45 \/ is_digit c = true)).
  { destruct z as [|p|p]; unfold encode_int, encode_nat.
    - exists 48, rest. split; [reflexivity | right; reflexivity].
    - pose proof (to_uint_nonnil (N.pos p)) as Hnn. cbn [Z.to_N].
      destruct (N.to_uint (N.pos p)); [congruence|..];
        eexists _, _; (split; [reflexivity | right; reflexivity]).
    - eexists _, _; split; [reflexivity | left; reflexivity]. }
  destruct Hhead as (c & s & Heq & Hc). rewrite Heq in *.
  assert (Hrange : c = 45 \/ (48 <= c /\ c <= 57)).
  { destruct Hc as [->|Hd]; [left; reflexivity | right].
    unfold is_digit in Hd. apply andb_true_iff in Hd as [A B].
    apply N.leb_le in A, B. split; assumption. }
  rewrite scan_once_atom by lia.
  unfold scan_atom. rewrite lit_null, lit_true, lit_false. cbn [startswith].
  destruct (N.eqb_spec 110 c); [lia|].
  destruct (N.eqb_spec 116 c); [lia|].
  destruct (N.eqb_spec 102 c); [lia|].
  cbn [andb]. rewrite Hn. reflexivity.
Qed.


(** The array loop over the elements that remain. *)
Lemma join_separated sep c cs : join sep (c :: cs) = c ++ separated sep cs.
Proof. apply join_cons. Qed.

Lemma separated_cons sep c cs :
  separated sep (c :: cs) = sep ++ c ++ separated sep cs.
Proof. unfold separated. cbn [flat_map]. rewrite <- app_assoc. reflexivity. Qed.

Lemma array_loop_items level depth rest xs :
  Forall (decodes depth) xs ->
  forall x acc fuel,
    decodes depth x ->
    (length (encode (S level) x)
     + length (separated (separator (S level)) (List.map (encode (S level)) xs))
     < fuel)%nat ->
    array_loop fuel depth
      (encode (S level) x
       ++ separated (separator (S level)) (List.map (encode (S level)) xs)
       ++ newline_indent level ++ 93 :: rest) acc
    = Scanned (PList (acc ++ x :: xs)) rest.
Proof.
  induction 1 as [|y ys Hy Hys IH]; intros x acc fuel Hx Hfuel;
    (destruct fuel as [|fuel]; [lia|]); cbn [array_loop List.map].
  - change (separated _ []) with (@nil char) in *. cbn [app length] in *.
    rewrite Hx; [| right; reflexivity | lia].
    rewrite skip_ws_newline_indent. reflexivity.
  - cbn [List.map] in Hfuel. rewrite separated_cons in *.
    rewrite !length_app in Hfuel.
    assert (Hsep : (1 <= length (separator (S level)))%nat) by (cbn; lia).
    unfold separator at 1. rewrite <- !app_assoc. cbn [app].
    rewrite Hx; [| left; reflexivity | lia].
    cbn [skip_ws is_ws N.eqb Pos.eqb orb]. cbn [N.eqb Pos.eqb].
    rewrite skip_ws_newline_indent.
    rewrite skip_ws_opens by apply opens_value_app, encode_opens.
    rewrite IH; [| exact Hy | lia].
    rewrite <- app_assoc. reflexivity.
Qed.


Lemma encode_item_length enc k v :
  length (encode_item enc (k, v)) = (length (encode_str k) + 2 + length (enc v))%nat.
Proof. unfold encode_item. cbn [fst snd]. rewrite !length_app. cbn. lia. Qed.

(** The object loop over the items that remain, entered after the opening
    quote of the first key. *)
Lemma object_loop_items level depth rest d :
  Forall (fun kv => valid_text (fst kv) = true /\ decodes depth (snd kv)) d ->
  forall k v acc fuel,
    valid_text k = true -> decodes depth v ->
    (length (encode_item (encode (S level)) (k, v))
     + length (separated (separator (S level))
                 (List.map (encode_item (encode (S level))) d)) < fuel)%nat ->
    object_loop fuel depth
      (flat_map escape_char k ++ 34 :: 58 :: 32 :: encode (S level) v
       ++ separated (separator (S level))
            (List.map (encode_item (encode (S level))) d)
       ++ newline_indent level ++ 125 :: rest) acc
    = Scanned (PDict (dict_of_pairs (acc ++ (k, v) :: d))) rest.
Proof.
  induction 1 as [|[k' v'] d [Hk' Hv'] Hd IH]; intros k v acc fuel Hk Hv Hfuel;
    (destruct fuel as [|fuel]; [lia|]); cbn [object_loop List.map];
    rewrite scanstring_body by exact Hk; cbn [app];
    cbn [skip_ws is_ws N.eqb Pos.eqb orb]; cbn [N.eqb Pos.eqb];
    rewrite skip_ws_opens by apply opens_value_app, encode_opens;
    rewrite encode_item_length in Hfuel.
  - change (separated _ []) with (@nil char) in *. cbn [app length] in *.
    rewrite Hv; [| right; reflexivity | lia].
    rewrite skip_ws_newline_indent. reflexivity.
  - cbn [List.map] in Hfuel. rewrite separated_cons in *.
    rewrite !length_app, encode_item_length in Hfuel.
    assert (Hsep : (1 <= length (separator (S level)))%nat) by (cbn; lia).
    unfold separator at 1. rewrite <- !app_assoc. cbn [app].
    rewrite Hv; [| left; reflexivity | lia].
    cbn [skip_ws is_ws N.eqb Pos.eqb orb]. cbn [N.eqb Pos.eqb].
    rewrite skip_ws_newline_indent.
    unfold encode_item at 1. unfold encode_str. cbn [fst snd app].
    cbn [skip_ws is_ws N.eqb Pos.eqb orb]. rewrite <- !app_assoc. cbn [app].
    rewrite IH; [| exact Hk' | exact Hv' | rewrite encode_item_length; lia].
    rewrite <- app_assoc. reflexivity.
Qed.


Lemma forallb_Forall_both {A} (f : A -> bool) (P : A -> Prop) l :
  forallb f l = true -> Forall (fun x => f x = true -> P x) l -> Forall P l.
Proof.
  induction l as [|x l IH]; intros Hf Hall; [constructor|].
  cbn [forallb] in Hf. apply andb_true_iff in Hf as [Hx Hl].
  inversion Hall; subst. constructor; auto.
Qed.

(** Every well-formed value that fits is read back from its encoding. *)
Lemma scan_once_encode v :
  forall depth, wf v = true -> fits depth v = true -> decodes depth v.
Proof.
  induction v as [| b | z | s | l IH | d IH] using pyval_ind;
    intros depth Hwf Hfit level rest fuel Hrest Hfuel.
  - destruct fuel; [cbn in Hfuel; lia | reflexivity].
  - destruct b; (destruct fuel; [cbn in Hfuel; lia | reflexivity]).
  - destruct fuel as [|fuel].
    + pose proof (encode_opens level (PInt z)) as Ho.
      destruct (encode level (PInt z)); [destruct Ho | cbn in Hfuel; lia].
    + apply scan_once_int; [exact Hrest|].
      apply Nat.leb_le. exact Hfit.
  - destruct fuel as [|fuel]; [cbn in Hfuel; lia|].
    cbn [encode]. unfold encode_str. cbn [app scan_once N.eqb Pos.eqb].
    rewrite <- app_assoc. cbn [app].
    rewrite scanstring_body by exact Hwf. reflexivity.
  - cbn [wf] in Hwf. destruct depth as [|depth]; [discriminate Hfit|].
    cbn [fits] in Hfit.
    assert (Hall : Forall (decodes depth) l).
    { clear Hfuel. induction l as [|x l IHl]; [constructor|].
      cbn [forallb] in Hwf, Hfit.
      apply andb_true_iff in Hwf as [Hx Hl].
      apply andb_true_iff in Hfit as [Fx Fl].
      inversion IH; subst. constructor; auto. }
    destruct l as [|x xs].
    { destruct fuel; [cbn in Hfuel; lia | reflexivity]. }
    inversion Hall as [|? ? Hx Hxs]; subst.
    cbn [encode List.map] in *. rewrite join_separated in *.
    rewrite !length_app in Hfuel. cbn [length] in Hfuel.
    destruct fuel as [|fuel]; [lia|].
    rewrite <- !app_assoc. cbn [app scan_once N.eqb Pos.eqb].
    rewrite skip_ws_newline_indent.
    pose proof (encode_opens (S level) x) as Ho.
    rewrite skip_ws_opens by apply opens_value_app, Ho.
    destruct (encode (S level) x) as [|c r] eqn:Ex; [destruct Ho|].
    destruct Ho as (_ & Hc & _).
    cbn [app]. destruct (N.eqb_spec c 93); [contradiction|].
    rewrite app_comm_cons, <- Ex.
    rewrite array_loop_items; [reflexivity | exact Hxs | exact Hx |].
    rewrite Ex in *. cbn [length] in *. lia.
  - cbn [wf] in Hwf. apply andb_true_iff in Hwf as [Hitems Hnd].
    apply bool_decide_eq_true in Hnd.
    destruct depth as [|depth]; [discriminate Hfit|].
    cbn [fits] in Hfit.
    assert (Hall : Forall (fun kv => valid_text (fst kv) = true
                                     /\ decodes depth (snd kv)) d).
    { clear Hnd Hfuel. induction d as [|kv d IHd]; [constructor|].
      cbn [forallb] in Hitems, Hfit.
      apply andb_true_iff in Hitems as [Hkv Hd].
      apply andb_true_iff in Hkv as [Hk Hv].
      apply andb_true_iff in Hfit as [Fv Fd].
      inversion IH; subst. constructor; [split; auto | auto]. }
    destruct d as [|[k v] d].
    { destruct fuel; [cbn in Hfuel; lia | reflexivity]. }
    inversion Hall as [|? ? [Hk Hv] Hd]; subst. cbn [fst snd] in *.
    cbn [encode List.map] in *. rewrite join_separated in *.
    rewrite !length_app in Hfuel. cbn [length] in Hfuel.
    destruct fuel as [|fuel]; [lia|].
    rewrite <- !app_assoc. cbn [app scan_once N.eqb Pos.eqb].
    unfold newline_indent at 1. cbn [app].
    change (10 :: repeat 32 (2 * S level) ++ ?x)
      with (newline_indent (S level) ++ x).
    rewrite skip_ws_newline_indent.
    unfold encode_item at 1. unfold encode_str. cbn [fst snd app].
    rewrite <- !app_assoc. cbn [app skip_ws is_ws N.eqb Pos.eqb orb].
    rewrite object_loop_items; [| exact Hd | exact Hk | exact Hv | lia].
    cbn [app]. rewrite dict_of_pairs_id by exact Hnd. reflexivity.
Qed.

(** The decoder always moves forward, so its budget is never used up. *)
Ltac split_scan H :=
  repeat match type of H with
         | context [if ?b then _ else _] => destruct b
         | context [match ?x with _ => _ end] => destruct x eqn:?
         end.

Lemma scanstring_shorter n : forall s acc v r,
  (length s <= n)%nat -> scanstring s acc = Scanned v r ->
  (length r < length s)%nat.
Proof.
  induction n as [|n IH]; intros s acc v r Hn H.
  - destruct s; [discriminate H | cbn in Hn; lia].
  - destruct s as [|c s]; [discriminate H|].
    cbn [scanstring] in H. cbn [length] in *.
    split_scan H; try discriminate H;
      try (injection H as <- <-; cbn [length]; lia);
      (apply IH in H; [cbn [length] in *; lia | cbn [length] in *; lia]).
Qed.

Lemma skip_ws_length s : (length (skip_ws s) <= length s)%nat.
Proof.
  induction s as [|c s IH]; [reflexivity|].
  cbn [skip_ws]. destruct (is_ws c); cbn [length]; lia.
Qed.

Lemma digits_length s acc : (length (snd (digits s acc)) <= length s)%nat.
Proof.
  revert acc. induction s as [|c s IH]; intros acc; [reflexivity|].
  cbn [digits]. destruct (is_digit c); [|reflexivity].
  specialize (IH (acc * 10 + (c - 48))). cbn [length]. lia.
Qed.

Lemma scan_integer_shorter neg s v r :
  scan_integer neg s = Scanned v r -> (length r < length s)%nat.
Proof.
  unfold scan_integer, finish_number. intros H.
  destruct s as [|c t]; [discriminate H|]. cbn [length].
  destruct (c =? 48).
  - destruct (has_frac t || has_exp t); [discriminate H|].
    destruct (_ <? _)%nat; [discriminate H|]. injection H as _ <-. lia.
  - destruct (is_digit c); [|discriminate H].
    pose proof (digits_length t (c - 48)) as Hd.
    destruct (digits t (c - 48)) as [n r']. cbn [snd] in Hd.
    destruct (has_frac r' || has_exp r'); [discriminate H|].
    destruct (_ <? _)%nat; [discriminate H|].
    injection H as _ <-. lia.
Qed.

Lemma scan_number_shorter s v r :
  scan_number s = Scanned v r -> (length r < length s)%nat.
Proof.
  unfold scan_number. intros H. destruct s as [|c t]; [discriminate H|].
  destruct (c =? 45); apply scan_integer_shorter in H; cbn [length] in *; lia.
Qed.

Lemma startswith_length p s : startswith p s = true -> (length p <= length s)%nat.
Proof.
  revert s. induction p as [|a p IH]; intros s H; [cbn; lia|].
  destruct s as [|b s]; [discriminate H|]. cbn [startswith] in H.
  apply andb_true_iff in H as [_ H]. apply IH in H. cbn [length]. lia.
Qed.

Lemma scan_atom_shorter s v r :
  scan_atom s = Scanned v r -> (length r < length s)%nat.
Proof.
  unfold scan_atom. intros H.
  destruct (startswith (lit "null") s) eqn:E1.
  { injection H as _ <-. apply startswith_length in E1.
    rewrite length_skipn. cbn in E1. lia. }
  destruct (startswith (lit "true") s) eqn:E2.
  { injection H as _ <-. apply startswith_length in E2.
    rewrite length_skipn. cbn in E2. lia. }
  destruct (startswith (lit "false") s) eqn:E3.
  { injection H as _ <-. apply startswith_length in E3.
    rewrite length_skipn. cbn in E3. lia. }
  destruct (scan_number s) eqn:En; try discriminate H.
  - injection H as <- <-. exact (scan_number_shorter _ _ _ En).
  - destruct (_ || _); discriminate H.
Qed.

Lemma quote_match {A} (s : text) (f : text -> A) (d : A) :
  match s with 34 :: r' => f r' | _ => d end
  = match s with
    | c :: r => if c =? 34 then f r else d
    | [] => d
    end.
Proof.
  destruct s as [|c r]; [reflexivity|].
  destruct c as [|p]; [reflexivity|].
  do 6 (try destruct p as [p|p|]); reflexivity.
Qed.

Lemma skip_ws_cons s c r : skip_ws s = c :: r -> (S (length r) <= length s)%nat.
Proof. intros H. pose proof (skip_ws_length s) as L. rewrite H in L. exact L. Qed.

Lemma scan_progress fuel :
  (forall depth s v r,
     scan_once fuel depth s = Scanned v r -> (length r < length s)%nat)
  /\ (forall depth s vs v r,
        array_loop fuel depth s vs = Scanned v r -> (length r < length s)%nat)
  /\ (forall depth s ps v r,
        object_loop fuel depth s ps = Scanned v r -> (length r < length s)%nat).
Proof.
  induction fuel as [|fuel (IHs & IHa & IHo)];
    [repeat split; intros; discriminate|].
  repeat split.
  - intros depth s v r H. destruct s as [|c t]; [discriminate H|].
    cbn [scan_once] in H. cbn [length].
    destruct (c =? 34).
    { destruct (scanstring t []) eqn:Es; try discriminate H.
      injection H as _ <-. apply (scanstring_shorter _ _ _ _ _ (le_n _)) in Es. lia. }
    destruct (c =? 123).
    { destruct depth as [|depth]; [discriminate H|].
      rewrite quote_match in H.
      assert (Hws : match skip_ws t with
                    | [] => Malformed
                    | c' :: r' =>
                        if c' =? 125 then Scanned (PDict []) r'
                        else if c' =? 34 then object_loop fuel depth r' []
                             else Malformed
                    end = Scanned v r -> (length r < S (length t))%nat).
      { intros Hw. destruct (skip_ws t) as [|c' r'] eqn:E; [discriminate Hw|].
        apply skip_ws_cons in E.
        destruct (c' =? 125); [injection Hw as _ <-; lia|].
        destruct (c' =? 34); [|discriminate Hw]. apply IHo in Hw. lia. }
      destruct t as [|c1 t1]; [exact (Hws H)|].
      destruct (c1 =? 34); [|exact (Hws H)].
      apply IHo in H. cbn [length]. lia. }
    destruct (c =? 91).
    { destruct depth as [|depth]; [discriminate H|].
      destruct (skip_ws t) as [|c' r'] eqn:E.
      - apply IHa in H. cbn in H. lia.
      - apply skip_ws_cons in E.
        destruct (c' =? 93); [injection H as _ <-; lia|].
        apply IHa in H. cbn [length] in H. lia. }
    apply scan_atom_shorter in H. cbn [length] in H. lia.
  - intros depth s vs v r H. cbn [array_loop] in H.
    destruct (scan_once fuel depth s) as [value r1| | | |] eqn:E1;
      try discriminate H.
    apply IHs in E1.
    destruct (skip_ws r1) as [|c r'] eqn:E; [discriminate H|].
    apply skip_ws_cons in E.
    destruct (c =? 93); [injection H as _ <-; lia|].
    destruct (c =? 44); [|discriminate H].
    apply IHa in H. pose proof (skip_ws_length r'). lia.
  - intros depth s ps v r H. cbn [object_loop] in H.
    destruct (scanstring s []) as [key r0| | | |] eqn:E0; try discriminate H.
    apply (scanstring_shorter _ _ _ _ _ (le_n _)) in E0.
    destruct (skip_ws r0) as [|c r1] eqn:Er0; [discriminate H|].
    apply skip_ws_cons in Er0.
    destruct (c =? 58); [|discriminate H].
    destruct (scan_once fuel depth (skip_ws r1)) as [value r2| | | |] eqn:E2;
      try discriminate H.
    apply IHs in E2. pose proof (skip_ws_length r1) as L1.
    destruct (skip_ws r2) as [|c2 r3] eqn:Er2; [discriminate H|].
    apply skip_ws_cons in Er2.
    destruct (c2 =? 125); [injection H as _ <-; lia|].
    destruct (c2 =? 44); [|discriminate H].
    rewrite quote_match in H.
    destruct (skip_ws r3) as [|c3 r4] eqn:Er3; [discriminate H|].
    apply skip_ws_cons in Er3.
    destruct (c3 =? 34); [|discriminate H].
    apply IHo in H. lia.
Qed.

Lemma scanstring_decides n : forall s acc,
  (length s <= n)%nat ->
  scanstring s acc <> Exhausted /\ scanstring s acc <> FloatLiteral
  /\ scanstring s acc <> OverLimit.
Proof.
  induction n as [|n IH]; intros s acc Hn.
  - destruct s; [repeat split; discriminate | cbn in Hn; lia].
  - destruct s as [|c s]; [repeat split; discriminate|].
    cbn [scanstring]. cbn [length] in Hn.
    repeat match goal with
           | |- context [if ?b then _ else _] => destruct b
           | |- context [match ?x with _ => _ end] => destruct x eqn:?
           end;
      try (repeat split; discriminate);
      apply IH; cbn [length] in *; lia.
Qed.

Lemma scan_integer_not_exhausted neg s : scan_integer neg s <> Exhausted.
Proof.
  unfold scan_integer, finish_number. destruct s as [|c t]; [discriminate|].
  destruct (c =? 48).
  - destruct (has_frac t || has_exp t); [discriminate|].
    destruct (_ <? _)%nat; discriminate.
  - destruct (is_digit c); [|discriminate].
    destruct (digits t (c - 48)) as [n r'].
    destruct (has_frac r' || has_exp r'); [discriminate|].
    destruct (_ <? _)%nat; discriminate.
Qed.

Lemma scan_atom_not_exhausted s : scan_atom s <> Exhausted.
Proof.
  unfold scan_atom.
  destruct (startswith (lit "null") s); [discriminate|].
  destruct (startswith (lit "true") s); [discriminate|].
  destruct (startswith (lit "false") s); [discriminate|].
  destruct (scan_number s) eqn:E; try discriminate.
  - destruct (_ || _); discriminate.
  - exfalso. revert E. unfold scan_number.
    destruct s as [|c t]; [discriminate|].
    destruct (c =? 45); apply scan_integer_not_exhausted.
Qed.

Lemma scan_budget fuel :
  (forall depth s, (2 * length s < fuel)%nat -> scan_once fuel depth s <> Exhausted)
  /\ (forall depth s vs, (2 * length s + 2 <= fuel)%nat ->
        array_loop fuel depth s vs <> Exhausted)
  /\ (forall depth s ps, (2 * length s + 1 <= fuel)%nat ->
        object_loop fuel depth s ps <> Exhausted).
Proof.
  induction fuel as [|fuel (IHs & IHa & IHo)]; [repeat split; intros; lia|].
  destruct (scan_progress fuel) as (Ps & _ & _).
  repeat split.
  - intros depth s Hf. destruct s as [|c t]; [cbn [scan_once]; discriminate|].
    cbn [scan_once]. cbn [length] in Hf.
    destruct (c =? 34).
    { destruct (scanstring_decides _ t [] (le_n _)) as (H1 & H2 & H3).
      destruct (scanstring t []); congruence. }
    destruct (c =? 123).
    { destruct depth as [|depth]; [discriminate|].
      rewrite quote_match.
      assert (Hws : match skip_ws t with
                    | [] => Malformed
                    | c' :: r' =>
                        if c' =? 125 then Scanned (PDict []) r'
                        else if c' =? 34 then object_loop fuel depth r' []
                             else Malformed
                    end <> Exhausted).
      { destruct (skip_ws t) as [|c' r'] eqn:E; [discriminate|].
        apply skip_ws_cons in E.
        destruct (c' =? 125); [discriminate|].
        destruct (c' =? 34); [|discriminate]. apply IHo. lia. }
      destruct t as [|c1 t1]; [exact Hws|].
      destruct (c1 =? 34); [|exact Hws]. apply IHo. cbn [length] in Hf. lia. }
    destruct (c =? 91).
    { destruct depth as [|depth]; [discriminate|].
      destruct (skip_ws t) as [|c' r'] eqn:E.
      - apply IHa. cbn [length]. lia.
      - apply skip_ws_cons in E. destruct (c' =? 93); [discriminate|].
        apply IHa. cbn [length]. lia. }
    apply scan_atom_not_exhausted.
  - intros depth s vs Hf. cbn [array_loop].
    pose proof (IHs depth s) as Hs.
    destruct (scan_once fuel depth s) as [value r1| | | |] eqn:E1;
      try discriminate.
    + apply Ps in E1.
      destruct (skip_ws r1) as [|c r'] eqn:E; [discriminate|].
      apply skip_ws_cons in E.
      destruct (c =? 93); [discriminate|].
      destruct (c =? 44); [|discriminate].
      apply IHa. pose proof (skip_ws_length r'). lia.
    + exfalso. apply Hs; [lia | reflexivity].
  - intros depth s ps Hf. cbn [object_loop].
    destruct (scanstring_decides _ s [] (le_n _)) as (H1 & H2 & H3).
    destruct (scanstring s []) as [key r0| | | |] eqn:E0; try congruence.
    apply (scanstring_shorter _ _ _ _ _ (le_n _)) in E0.
    destruct (skip_ws r0) as [|c r1] eqn:Er0; [discriminate|].
    apply skip_ws_cons in Er0.
    destruct (c =? 58); [|discriminate].
    pose proof (skip_ws_length r1) as L1.
    pose proof (IHs depth (skip_ws r1)) as Hs.
    destruct (scan_once fuel depth (skip_ws r1)) as [value r2| | | |] eqn:E2;
      try discriminate.
    + apply Ps in E2.
      destruct (skip_ws r2) as [|c2 r3] eqn:Er2; [discriminate|].
      apply skip_ws_cons in Er2.
      destruct (c2 =? 125); [discriminate|].
      destruct (c2 =? 44); [|discriminate].
      rewrite quote_match.
      destruct (skip_ws r3) as [|c3 r4] eqn:Er3; [discriminate|].
      apply skip_ws_cons in Er3.
      destruct (c3 =? 34); [|discriminate].
      apply IHo. lia.
    + exfalso. apply Hs; [lia | reflexivity].
Qed.

(** [loads] ends in a value or a decoding error unless the document holds
    a float or is past a limit of the interpreter: its budget is never the
    reason for giving up. *)
Lemma loads_not_exhausted s :
  scan_once (S (2 * length (skip_ws s))) max_depth (skip_ws s) <> Exhausted.
Proof. apply scan_budget. lia. Qed.

End JsonFacts.

Module JsonRoundTrip.
Import Json JsonFacts.

(** [json.loads(json.dumps(v, indent=2))] gives [v] back. *)
Lemma loads_dumps v : round_trips v = true -> loads (dumps v) = Ret v.
Proof.
  unfold round_trips. intros H. apply andb_true_iff in H as [Hwf Hfit].
  unfold loads, dumps.
  rewrite skip_ws_opens by apply encode_opens.
  rewrite <- (app_nil_r (encode 0 v)) at 2.
  rewrite (scan_once_encode v max_depth Hwf Hfit 0%nat []
             (S (2 * length (encode 0 v))));
    [reflexivity | exact I | lia].
Qed.

Lemma wf_list_snoc l v : wf (PList l) = true -> wf v = true -> wf (PList (l ++ [v])) = true.
Proof.
  cbn [wf]. intros Hl Hv. rewrite forallb_app, Hl. cbn. rewrite Hv. reflexivity.
Qed.

Lemma fits_list_snoc depth l v :
  fits depth (PList l) = true -> fits depth (PList [v]) = true ->
  fits depth (PList (l ++ [v])) = true.
Proof.
  destruct depth as [|depth]; [discriminate|]. cbn [fits].
  intros Hl Hv. rewrite forallb_app, Hl. exact Hv.
Qed.

Lemma round_trips_snoc l v :
  round_trips (PList l) = true -> round_trips (PList [v]) = true ->
  round_trips (PList (l ++ [v])) = true.
Proof.
  unfold round_trips. intros Hl Hv.
  apply andb_true_iff in Hl as [Wl Fl]. apply andb_true_iff in Hv as [Wv Fv].
  apply andb_true_iff. split.
  - apply wf_list_snoc; [exact Wl|]. cbn [wf forallb] in Wv.
    apply andb_true_iff in Wv as [Wv _]. exact Wv.
  - apply fits_list_snoc; assumption.
Qed.

Lemma round_trips_nil : round_trips (PList []) = true.
Proof. reflexivity. Qed.

End JsonRoundTrip.

(* ===================================================================== *)
(** * The evaluation store                                                *)
(* ===================================================================== *)

Module EvaluationFacts.
Import Json JsonFacts JsonRoundTrip Evaluation Properties.

Lemma dumps_within_fits v :
  round_trips v = true -> dumps_within v = Ret (dumps v).
Proof.
  unfold round_trips, dumps_within. intros H.
  apply andb_true_iff in H as [_ ->]. reflexivity.
Qed.

Lemma save_evaluation_holds fs done e :
  holds fs done -> round_trips (PList done) = true ->
  round_trips (PList [e]) = true ->
  exists fs', save_evaluation fs e = Ret fs' /\ holds fs' (done ++ [e]).
Proof.
  intros Hfs Hdone He. unfold save_evaluation.
  pose proof (dumps_within_fits _ (round_trips_snoc _ _ Hdone He)) as Hw.
  destruct Hfs as [[-> Hnone] | Hsome].
  - rewrite Hnone. cbn [mbind outcome_bind bind Evaluation.append].
    cbn [app] in *. rewrite Hw. eexists; split; [reflexivity|].
    right. apply lookup_insert_eq.
  - rewrite Hsome, loads_dumps by exact Hdone.
    cbn [mbind outcome_bind bind try_except Evaluation.append].
    rewrite Hw. eexists; split; [reflexivity|]. right. apply lookup_insert_eq.
Qed.

Lemma save_all_holds es : forall fs done,
  holds fs done -> round_trips (PList done) = true ->
  Forall (fun e => round_trips (PList [e]) = true) es ->
  exists fs', save_all fs es = Ret fs' /\ holds fs' (done ++ es).
Proof.
  induction es as [|e es IH]; intros fs done Hfs Hdone Hes.
  - exists fs. rewrite app_nil_r. split; [reflexivity | exact Hfs].
  - inversion Hes as [|? ? He Hes']; subst.
    destruct (save_evaluation_holds fs done e Hfs Hdone He) as (fs1 & Hsave & Hfs1).
    destruct (IH fs1 (done ++ [e]) Hfs1 (round_trips_snoc _ _ Hdone He) Hes')
      as (fs' & Hall & Hfs').
    exists fs'. cbn [save_all]. rewrite Hsave. cbn.
    rewrite <- app_assoc in Hfs'. split; assumption.
Qed.

Lemma load_evaluations_holds fs done :
  holds fs done -> round_trips (PList done) = true ->
  load_evaluations fs = Ret (PList done).
Proof.
  intros [[-> Hnone] | Hsome] Hdone; unfold load_evaluations.
  - rewrite Hnone. reflexivity.
  - rewrite Hsome. apply loads_dumps. exact Hdone.
Qed.

Lemma entry_dict_wf e : entry_ok e -> wf (entry_dict e) = true.
Proof.
  intros (H1 & H2 & H3 & H4 & H5 & _).
  unfold entry_dict, App.make_entry. cbn [wf forallb fst snd App.translated App.suggested App.detected_lang].
  rewrite H1, H2, H3, H4, H5. vm_compute. reflexivity.
Qed.

(** A rating from the slider is far from the longest integer. *)
Lemma rating_fits depth z : (1 <= z <= 5)%Z -> fits depth (PInt z) = true.
Proof.
  intros Hz.
  assert (H : z = 1%Z \/ z = 2%Z \/ z = 3%Z \/ z = 4%Z \/ z = 5%Z) by lia.
  destruct H as [->|[->|[->|[->| ->]]]]; vm_compute; reflexivity.
Qed.

Lemma entry_dict_round_trips e :
  entry_ok e -> round_trips (PList [entry_dict e]) = true.
Proof.
  intros He. unfold round_trips. apply andb_true_iff. split.
  - cbn [wf forallb]. rewrite (entry_dict_wf e He). reflexivity.
  - destruct He as (_ & _ & _ & _ & _ & Hr).
    unfold entry_dict, App.make_entry.
    change (fits max_depth (PList [?v])) with (fits 99 v && true).
    change (fits 99 (PDict ?d)) with (forallb (fun kv => fits 98 (snd kv)) d).
    cbn [forallb snd fits andb].
    change (length (encode_nat (Z.abs_N (rating e))) <=? max_digits)%nat
      with (fits 98 (PInt (rating e))).
    rewrite (rating_fits 98 _ Hr). reflexivity.
Qed.

Lemma entries_round_trip es :
  Forall entry_ok es ->
  Forall (fun v => round_trips (PList [v]) = true) (List.map entry_dict es).
Proof.
  induction 1 as [|e es He _ IH]; cbn [List.map]; constructor;
    [apply entry_dict_round_trips; exact He | exact IH].
Qed.

(** A list round-trips when each of its elements would on its own. *)
Lemma round_trips_each l :
  Forall (fun v => round_trips (PList [v]) = true) l ->
  round_trips (PList l) = true.
Proof.
  induction l as [|x l IH] using rev_ind; intros H; [reflexivity|].
  apply Forall_app in H as [Hl Hx]. inversion Hx; subst.
  apply round_trips_snoc; [apply IH; exact Hl | assumption].
Qed.

(** A corrupt log counts as no history when an entry is saved. *)
Lemma save_evaluation_resets fs content err e :
  fs !! DATA_FILE = Some content -> loads content = Raise err ->
  round_trips (PList [e]) = true ->
  save_evaluation fs e = Ret (<[DATA_FILE := dumps (PList [e])]> fs).
Proof.
  intros Hc Hl He. unfold save_evaluation. rewrite Hc, Hl.
  cbn [mbind outcome_bind bind try_except Evaluation.append app].
  rewrite (dumps_within_fits _ He). reflexivity.
Qed.

(** What a save that returns has written. *)
Lemma save_evaluation_written fs fs' e :
  save_evaluation fs e = Ret fs' ->
  exists l, fs' = <[DATA_FILE := dumps (PList (l ++ [e]))]> fs.
Proof.
  unfold save_evaluation, dumps_within. intros Hs.
  destruct (fs !! DATA_FILE) as [c|]; [destruct (loads c) as [v| |]|];
    cbn [mbind outcome_bind bind try_except] in Hs; try discriminate.
  - destruct v; cbn [Evaluation.append mbind outcome_bind bind] in Hs;
      try discriminate.
    destruct (fits max_depth _); [|discriminate].
    injection Hs as <-. eexists. reflexivity.
  - cbn [Evaluation.append mbind outcome_bind bind] in Hs.
    destruct (fits max_depth _); [|discriminate].
    injection Hs as <-. exists []. reflexivity.
  - cbn [Evaluation.append mbind outcome_bind bind] in Hs.
    destruct (fits max_depth _); [|discriminate].
    injection Hs as <-. exists []. reflexivity.
Qed.

Lemma save_evaluation_fallback_written fs fs' e :
  App.save_evaluation_fallback fs e = Ret fs' ->
  exists l, fs' = <[App.LOCAL_FILE := dumps (PList (l ++ [e]))]> fs.
Proof.
  unfold App.save_evaluation_fallback, dumps_within. intros Hs.
  destruct (fs !! App.LOCAL_FILE) as [c|]; [destruct (loads c) as [v| |]|];
    cbn [mbind outcome_bind bind try_except] in Hs; try discriminate.
  - destruct v; cbn [Evaluation.append mbind outcome_bind bind] in Hs;
      try discriminate.
    destruct (fits max_depth _); [|discriminate].
    injection Hs as <-. eexists. reflexivity.
  - cbn [Evaluation.append mbind outcome_bind bind] in Hs.
    destruct (fits max_depth _); [|discriminate].
    injection Hs as <-. exists []. reflexivity.
  - cbn [Evaluation.append mbind outcome_bind bind] in Hs.
    destruct (fits max_depth _); [|discriminate].
    injection Hs as <-. exists []. reflexivity.
Qed.

(** [save_evaluation] leaves every other file alone. *)
Lemma save_evaluation_frame fs fs' e p :
  save_evaluation fs e = Ret fs' -> p <> DATA_FILE -> fs' !! p = fs !! p.
Proof.
  intros Hs Hp. destruct (save_evaluation_written fs fs' e Hs) as [l ->].
  apply lookup_insert_ne. congruence.
Qed.

Lemma save_evaluation_fallback_frame fs fs' e p :
  App.save_evaluation_fallback fs e = Ret fs' -> p <> App.LOCAL_FILE ->
  fs' !! p = fs !! p.
Proof.
  intros Hs Hp. destruct (save_evaluation_fallback_written fs fs' e Hs) as [l ->].
  apply lookup_insert_ne. congruence.
Qed.

End EvaluationFacts.

(* ===================================================================== *)
(** * The claims about the evaluation store                               *)
(* ===================================================================== *)

Import Json Evaluation Properties Samples.

(** C1. Saving N evaluation entries one after the other, starting without a
    log file, and then loading returns exactly those N entries in the order
    they were saved; in particular one saved entry comes back as the
    one-element list holding it. *)
Theorem C1_save_then_load (fs : files) (es : list entry) :
  fs !! DATA_FILE = None -> Forall entry_ok es ->
  (exists fs', save_all fs (List.map entry_dict es) = Ret fs' /\
               load_evaluations fs' = Ret (PList (List.map entry_dict es))) /\
  (forall e, entry_ok e ->
     exists fs', save_evaluation fs (entry_dict e) = Ret fs' /\
                 load_evaluations fs' = Ret (PList [entry_dict e])).
Proof.
  intros Hnone Hes.
  pose proof (EvaluationFacts.entries_round_trip es Hes) as Hall.
  split.
  - destruct (EvaluationFacts.save_all_holds (List.map entry_dict es) fs [])
      as (fs' & Hsave & Hfs'); [left; auto | reflexivity | exact Hall |].
    exists fs'. split; [exact Hsave|].
    apply EvaluationFacts.load_evaluations_holds; [exact Hfs'|].
    apply EvaluationFacts.round_trips_each. exact Hall.
  - intros e He.
    destruct (EvaluationFacts.save_evaluation_holds fs [] (entry_dict e))
      as (fs' & Hsave & Hfs');
      [left; auto | reflexivity
       | apply EvaluationFacts.entry_dict_round_trips; exact He |].
    exists fs'. split; [exact Hsave|].
    apply EvaluationFacts.load_evaluations_holds; [exact Hfs'|].
    apply EvaluationFacts.entry_dict_round_trips. exact He.
Qed.

Lemma C1_save_then_load_witness :
  exists fs', save_all ∅ (List.map entry_dict [sample_entry; second_entry]) = Ret fs' /\
    load_evaluations fs' = Ret (PList (List.map entry_dict [sample_entry; second_entry])).
Proof.
  apply (C1_save_then_load ∅ [sample_entry; second_entry]).
  - reflexivity.
  - repeat constructor; try reflexivity; cbn; lia.
Defined.

(** C2. The read path does not turn every malformed log into an empty
    history: on a log that is not valid JSON [load_evaluations] raises the
    decoder's error, while [save_evaluation] on the same log starts the
    history afresh. *)
Theorem C2_load_raises_on_malformed_log :
  load_evaluations {[DATA_FILE := broken_log]} = Raise decode_error /\
  save_evaluation {[DATA_FILE := broken_log]} (entry_dict sample_entry)
  = Ret (<[DATA_FILE := dumps (PList [entry_dict sample_entry])]>
           {[DATA_FILE := broken_log]}).
Proof.
  split.
  - unfold load_evaluations. rewrite lookup_singleton_eq. reflexivity.
  - apply (EvaluationFacts.save_evaluation_resets _ broken_log decode_error).
    + apply lookup_singleton_eq.
    + reflexivity.
    + reflexivity.
Qed.

(** C9. Started from the same prior content of their files, whatever it is,
    [save_evaluation] and the fallback writer of the application end the
    same way and leave the same content behind; they differ in the path
    they write, and neither touches any other file. *)
Theorem C9_fallback_writer_agrees (fs1 fs2 : files) (e : pyval) :
  fs1 !! DATA_FILE = fs2 !! App.LOCAL_FILE ->
  (.!! DATA_FILE) <$> save_evaluation fs1 e
  = (.!! App.LOCAL_FILE) <$> App.save_evaluation_fallback fs2 e
  /\ DATA_FILE <> App.LOCAL_FILE
  /\ (forall fs1' p, save_evaluation fs1 e = Ret fs1' -> p <> DATA_FILE ->
        fs1' !! p = fs1 !! p)
  /\ (forall fs2' p, App.save_evaluation_fallback fs2 e = Ret fs2' ->
        p <> App.LOCAL_FILE -> fs2' !! p = fs2 !! p).
Proof.
  intros Hsame. repeat split.
  - unfold save_evaluation, App.save_evaluation_fallback. rewrite Hsame.
    assert (Hwrite : forall data,
              (.!! DATA_FILE) <$>
                (content ← dumps_within data; Ret (<[DATA_FILE := content]> fs1))
              = (.!! App.LOCAL_FILE) <$>
                  (content ← dumps_within data;
                   Ret (<[App.LOCAL_FILE := content]> fs2))).
    { intros data. destruct (dumps_within data) as [content| |];
        [|reflexivity|reflexivity].
      cbn [mbind outcome_bind bind fmap outcome_fmap].
      rewrite !lookup_insert_eq. reflexivity. }
    destruct (fs2 !! App.LOCAL_FILE) as [c|]; [destruct (loads c) as [v| |]|];
      cbn [mbind outcome_bind bind try_except]; try reflexivity;
      try (destruct v; cbn [Evaluation.append mbind outcome_bind bind];
           try reflexivity);
      apply Hwrite.
  - discriminate.
  - intros fs1' p. apply EvaluationFacts.save_evaluation_frame.
  - intros fs2' p. apply EvaluationFacts.save_evaluation_fallback_frame.
Qed.

Lemma C9_fallback_writer_agrees_witness :
  (.!! DATA_FILE) <$> save_evaluation {[DATA_FILE := broken_log]} (entry_dict sample_entry)
  = (.!! App.LOCAL_FILE) <$>
      App.save_evaluation_fallback {[App.LOCAL_FILE := broken_log]} (entry_dict sample_entry).
Proof.
  apply (C9_fallback_writer_agrees {[DATA_FILE := broken_log]}
           {[App.LOCAL_FILE := broken_log]} (entry_dict sample_entry)).
  rewrite !lookup_singleton_eq. reflexivity.
Defined.

(* ===================================================================== *)
(** * Templates and [str.format]                                          *)
(* ===================================================================== *)

Module FormatFacts.

Lemma bind_ret_assoc (m : outcome text) (f g : text -> text) :
  (x ← (r ← m; Ret (f r)); Ret (g x)) = (r ← m; Ret (g (f r))).
Proof. destruct m; reflexivity. Qed.

Lemma format_scan_literal kw s rest :
  format_scan kw (flat_map escape_brace s ++ rest) None
  = (r ← format_scan kw rest None; Ret (s ++ r)).
Proof.
  induction s as [|c s IH].
  - cbn. destruct (format_scan kw rest None); reflexivity.
  - cbn [flat_map]. rewrite <- app_assoc. unfold escape_brace at 1.
    destruct (N.eqb_spec c 123) as [->|H123].
    { cbn [orb app format_scan N.eqb Pos.eqb]. rewrite IH.
      apply (bind_ret_assoc _ (fun r => s ++ r) (fun x => 123 :: x)). }
    destruct (N.eqb_spec c 125) as [->|H125].
    { cbn [orb app format_scan N.eqb Pos.eqb]. rewrite IH.
      apply (bind_ret_assoc _ (fun r => s ++ r) (fun x => 125 :: x)). }
    cbn [orb app format_scan].
    destruct (N.eqb_spec c 123); [contradiction|].
    destruct (N.eqb_spec c 125); [contradiction|].
    rewrite IH. apply (bind_ret_assoc _ (fun r => s ++ r) (fun x => c :: x)).
Qed.

Lemma format_scan_name name ex rest :
  format_scan [(lit "name", name); (lit "excerpt", ex)] (lit "{name}" ++ rest) None
  = (r ← format_scan [(lit "name", name); (lit "excerpt", ex)] rest None;
     Ret (name ++ r)).
Proof. reflexivity. Qed.

Lemma format_scan_excerpt name ex rest :
  format_scan [(lit "name", name); (lit "excerpt", ex)] (lit "{excerpt}" ++ rest) None
  = (r ← format_scan [(lit "name", name); (lit "excerpt", ex)] rest None;
     Ret (ex ++ r)).
Proof. reflexivity. Qed.

Lemma format_scan_pieces ps name ex rest :
  format_scan [(lit "name", name); (lit "excerpt", ex)]
    (template_text ps ++ rest) None
  = (r ← format_scan [(lit "name", name); (lit "excerpt", ex)] rest None;
     Ret (fill ps name ex ++ r)).
Proof.
  unfold template_text, fill.
  induction ps as [|p ps IH].
  - cbn. destruct (format_scan _ rest None); reflexivity.
  - cbn [flat_map]. rewrite <- !app_assoc.
    destruct p as [s| |]; cbn [piece_text];
      rewrite ?format_scan_literal, ?format_scan_name, ?format_scan_excerpt, IH;
      destruct (format_scan _ rest None); cbn; rewrite <- ?app_assoc; reflexivity.
Qed.

(** Formatting a template written from pieces fills the pieces. *)
Lemma format_template ps name ex :
  format (template_text ps) [(lit "name", name); (lit "excerpt", ex)]
  = Ret (fill ps name ex).
Proof.
  unfold format. rewrite <- (app_nil_r (template_text ps)).
  rewrite format_scan_pieces. cbn. rewrite app_nil_r. reflexivity.
Qed.

Lemma name_or_customer_greeted name :
  ResponseGenerator.name_or_customer name = greeted name.
Proof. destruct name as [[|c n]|]; reflexivity. Qed.

Lemma slice_excerpt s : slice_to 120 s = excerpt s.
Proof.
  unfold slice_to, excerpt.
  destruct (Nat.leb_spec (length s) 120) as [H|H]; [|reflexivity].
  apply firstn_all2. exact H.
Qed.

Lemma last_resort_fill s nm :
  App.last_resort_reply s nm = fill last_resort_pieces nm (slice_to 120 s).
Proof.
  unfold App.last_resort_reply, fill, last_resort_pieces. cbn [flat_map].
  rewrite app_nil_r, <- !app_assoc. reflexivity.
Qed.

End FormatFacts.

(* ===================================================================== *)
(** * The claims about translation, replies and detection                 *)
(* ===================================================================== *)

(** C3. Without a language-model key the endpoint [/translate] answers
    with the input text under [translated_text]; and whatever the
    surroundings do, it answers with such an object and never with an
    error. *)
Theorem C3_translate_endpoint_falls_through (w : world) (text0 : text) :
  (TranslationEngine.key_missing (backend_key w) = true ->
   Server.translate w text0
   = ([], Ret (PDict [(lit "translated_text", PStr text0)])))
  /\ (exists t, snd (Server.translate w text0)
                = Ret (PDict [(lit "translated_text", PStr t)])).
Proof.
  unfold Server.translate, TranslationEngine.translate_openai. split.
  - intros ->. reflexivity.
  - destruct (TranslationEngine.key_missing (backend_key w)); [eexists; reflexivity|].
    destruct (openai_importable w); [|eexists; reflexivity].
    cbn. destruct (chat_completion w _); eexists; reflexivity.
Qed.

Lemma C3_translate_endpoint_falls_through_witness :
  Server.translate offline bonjour
  = ([], Ret (PDict [(lit "translated_text", PStr bonjour)])).
Proof.
  apply (C3_translate_endpoint_falls_through offline bonjour). reflexivity.
Defined.

(** C4. The local translation fallback returns its input unchanged and
    cannot fail: the engine's [translate_local] is the identity, and so is
    the wrapper of the application, whether or not the engine can be
    imported. *)
Theorem C4_translate_local_is_identity (w : world) (text0 : text) :
  TranslationEngine.translate_local text0 = Ret text0 /\
  App.translate_local w text0 = ([Call f_translate_local], Ret text0).
Proof.
  split; [reflexivity|]. unfold App.translate_local.
  destruct (App.engine_importable w); reflexivity.
Qed.

(** C5. The canned reply is the template with the name put in, "Customer"
    standing in for a name that is empty or was not given, and with the
    first 120 characters of the translated text (all of it when it is
    shorter) as the excerpt.  The application's wrapper does the same with
    the canned template when there is one and with its own last-resort
    template otherwise. *)
Theorem C5_generate_local_reply_fills_template
    (ps : list piece) (w : world) (translated0 : text) (name : option text) :
  ResponseGenerator.generate_local_reply (template_text ps) translated0 name
  = Ret (fill ps (greeted name) (excerpt translated0))
  /\ (canned_template w = Some (template_text ps) ->
      App.generate_local_reply w translated0 name
      = ([Call f_generate_local_reply],
         Ret (fill ps (greeted name) (excerpt translated0))))
  /\ (canned_template w = None ->
      App.generate_local_reply w translated0 name
      = ([Call f_generate_local_reply],
         Ret (fill last_resort_pieces (greeted name) (excerpt translated0))))
  /\ excerpt translated0 = firstn 120 translated0
  /\ ((length translated0 <= 120)%nat -> excerpt translated0 = translated0)
  /\ (greeted None = lit "Customer" /\ greeted (Some []) = lit "Customer").
Proof.
  assert (Hfmt : ResponseGenerator.generate_local_reply (template_text ps)
                   translated0 name
                 = Ret (fill ps (greeted name) (excerpt translated0))).
  { unfold ResponseGenerator.generate_local_reply.
    rewrite FormatFacts.format_template, FormatFacts.name_or_customer_greeted,
      FormatFacts.slice_excerpt. reflexivity. }
  repeat split.
  - exact Hfmt.
  - intros Htpl. unfold App.generate_local_reply. rewrite Htpl.
    destruct (backend_present w).
    + rewrite Hfmt. reflexivity.
    + fold (ResponseGenerator.name_or_customer name).
      rewrite FormatFacts.format_template, FormatFacts.name_or_customer_greeted,
        FormatFacts.slice_excerpt. reflexivity.
  - intros Hnone. unfold App.generate_local_reply. rewrite Hnone.
    fold (ResponseGenerator.name_or_customer name).
    rewrite FormatFacts.last_resort_fill, FormatFacts.name_or_customer_greeted,
      FormatFacts.slice_excerpt.
    destruct (backend_present w); reflexivity.
  - symmetry. apply FormatFacts.slice_excerpt.
  - intros Hlen. unfold excerpt.
    destruct (Nat.leb_spec (length translated0) 120); [reflexivity | lia].
Qed.

Lemma C5_generate_local_reply_fills_template_witness :
  App.generate_local_reply offline bonjour None
  = ([Call f_generate_local_reply],
     Ret (fill sample_template (greeted None) (excerpt bonjour)))
  /\ excerpt bonjour = bonjour.
Proof.
  split.
  - apply (C5_generate_local_reply_fills_template sample_template offline
             bonjour None). reflexivity.
  - apply (C5_generate_local_reply_fills_template sample_template offline
             bonjour None). apply Nat.leb_le. reflexivity.
Defined.

(** C8. Language detection never raises: it returns the detector's code,
    or "unknown" when the detector cannot be imported or fails. *)
Theorem C8_detect_language_is_total (w : world) (text0 : text) :
  (exists code, App.detect_language_local w text0
                = ([Call f_detect_language_local], Ret code))
  /\ (langdetect w = None ->
      App.detect_language_local w text0
      = ([Call f_detect_language_local], Ret (lit "unknown")))
  /\ (forall detect e, langdetect w = Some detect -> detect text0 = inl e ->
      App.detect_language_local w text0
      = ([Call f_detect_language_local], Ret (lit "unknown")))
  /\ (forall detect code, langdetect w = Some detect -> detect text0 = inr code ->
      App.detect_language_local w text0
      = ([Call f_detect_language_local], Ret code)).
Proof.
  unfold App.detect_language_local. repeat split.
  - destruct (langdetect w) as [detect|]; [|eexists; reflexivity].
    cbn. destruct (detect text0); eexists; reflexivity.
  - intros ->. reflexivity.
  - intros detect e -> H. cbn. rewrite H. reflexivity.
  - intros detect code -> H. cbn. rewrite H. reflexivity.
Qed.

Lemma C8_detect_language_is_total_witness :
  App.detect_language_local offline [] = ([Call f_detect_language_local], Ret (lit "unknown"))
  /\ App.detect_language_local online [] = ([Call f_detect_language_local], Ret (lit "unknown")).
Proof.
  split.
  - apply (C8_detect_language_is_total offline []). reflexivity.
  - destruct (C8_detect_language_is_total online []) as (_ & _ & Hfail & _).
    eapply Hfail; reflexivity.
Defined.




(* ===================================================================== *)
(** * Traces                                                              *)
(* ===================================================================== *)

Module IoFacts.

Lemma emits_ret {A} P (a : A) : emits P (mret a : io A).
Proof. constructor. Qed.

Lemma emits_lift {A} P (o : outcome A) : emits P (lift o).
Proof. constructor. Qed.

Lemma emits_ask {A} P (a : answer A) : emits P (ask a).
Proof. destruct a; constructor. Qed.

Lemma emits_raise {A} P k msg : emits P (raise k msg : io A).
Proof. constructor. Qed.

Lemma emits_emit (P : event -> Prop) e : P e -> emits P (emit e).
Proof. intros H. repeat constructor. exact H. Qed.

Lemma emits_bind {A B} P (m : io A) (k : A -> io B) :
  emits P m -> (forall a, emits P (k a)) -> emits P (m ≫= k).
Proof.
  unfold emits, mbind, io_mbind, io_bind. intros Hm Hk.
  destruct m as [tr [a| |]]; cbn in *; try exact Hm.
  specialize (Hk a). destruct (k a) as [tr' r]. cbn in *.
  apply Forall_app. split; assumption.
Qed.

Lemma emits_try {A} P (m : io A) (h : exn -> io A) :
  emits P m -> (forall e, emits P (h e)) -> emits P (io_try m h).
Proof.
  unfold emits, io_try. intros Hm Hh.
  destruct m as [tr [a|e|]]; cbn in *; try exact Hm.
  specialize (Hh e). destruct (h e) as [tr' r]. cbn in *.
  apply Forall_app. split; assumption.
Qed.

(** A computation that returns splits at a bind. *)
Lemma bind_returns {A B} (m : io A) (k : A -> io B) tr b :
  m ≫= k = (tr, Ret b) ->
  exists a tr1 tr2, m = (tr1, Ret a) /\ k a = (tr2, Ret b) /\ tr = tr1 ++ tr2.
Proof.
  unfold mbind, io_mbind, io_bind.
  destruct m as [tr1 [a| |]]; try discriminate.
  destruct (k a) as [tr2 r] eqn:Hk. intros [= <- ->].
  exists a, tr1, tr2. auto.
Qed.

(** The trace of the first part is where the whole trace starts. *)
Lemma bind_trace_prefix {A B} (m : io A) (k : A -> io B) :
  exists tl, fst (m ≫= k) = fst m ++ tl.
Proof.
  unfold mbind, io_mbind, io_bind.
  destruct m as [tr [a| |]]; cbn; try (exists []; rewrite app_nil_r; reflexivity).
  destruct (k a) as [tr' r]. exists tr'. reflexivity.
Qed.

Lemma try_trace_prefix {A} (m : io A) (h : exn -> io A) :
  exists tl, fst (io_try m h) = fst m ++ tl.
Proof.
  unfold io_try.
  destruct m as [tr [a|e|]]; cbn; try (exists []; rewrite app_nil_r; reflexivity).
  destruct (h e) as [tr' r]. exists tr'. reflexivity.
Qed.


Lemma never_raises_ret {A} (a : A) : never_raises (mret a : io A).
Proof. intros e. discriminate. Qed.

Lemma never_raises_emit e : never_raises (emit e).
Proof. intros e'. discriminate. Qed.

Lemma never_raises_bind {A B} (m : io A) (k : A -> io B) :
  never_raises m -> (forall a, never_raises (k a)) -> never_raises (m ≫= k).
Proof.
  unfold never_raises, mbind, io_mbind, io_bind. intros Hm Hk e.
  destruct m as [tr [a|e'|]]; cbn in *.
  - specialize (Hk a e). destruct (k a). exact Hk.
  - exfalso. exact (Hm e' eq_refl).
  - discriminate.
Qed.

Lemma never_raises_try {A} (m : io A) (h : exn -> io A) :
  (forall e, never_raises (h e)) -> never_raises (io_try m h).
Proof.
  unfold never_raises, io_try. intros Hh e.
  destruct m as [tr [a|e'|]]; cbn; try discriminate.
  specialize (Hh e' e). destruct (h e'). exact Hh.
Qed.

Lemma starts_translating_bind {A B} (m : io A) (k : A -> io B) :
  starts_translating m -> starts_translating (m ≫= k).
Proof.
  intros (e & tl & Hm & He). destruct (bind_trace_prefix m k) as [tl' Htl].
  exists e, (tl ++ tl'). rewrite Htl, Hm. split; [reflexivity | exact He].
Qed.

Lemma starts_translating_try {A} (m : io A) (h : exn -> io A) :
  starts_translating m -> starts_translating (io_try m h).
Proof.
  intros (e & tl & Hm & He). destruct (try_trace_prefix m h) as [tl' Htl].
  exists e, (tl ++ tl'). rewrite Htl, Hm. split; [reflexivity | exact He].
Qed.

Lemma starts_translating_call {B} f (k : unit -> io B) :
  is_translation (Call f) = true -> starts_translating (emit (Call f) ≫= k).
Proof.
  intros Hf. destruct (bind_trace_prefix (emit (Call f)) k) as [tl Htl].
  exists (Call f), tl. split; [exact Htl | exact Hf].
Qed.


Lemma never_raises_returns {A} (m : io A) tr a : m = (tr, Ret a) -> never_raises m.
Proof. intros -> e. discriminate. Qed.

Lemma none_of_app p tr1 tr2 :
  none_of p tr1 -> none_of p tr2 -> none_of p (tr1 ++ tr2).
Proof. unfold none_of. intros. apply Forall_app. split; assumption. Qed.

Lemma starts_translating_some {A} (m : io A) :
  starts_translating m -> ~ none_of is_translation (fst m).
Proof.
  intros (e & tl & -> & He) Hnone. inversion Hnone as [|? ? Hf _]; subst.
  rewrite He in Hf. discriminate.
Qed.

(** A step that invokes no reply strategy keeps the two phases in order. *)
Lemma translation_first_bind {A B} (m : io A) (k : A -> io B) :
  emits not_reply m -> (forall a, translation_first (fst (k a))) ->
  translation_first (fst (m ≫= k)).
Proof.
  unfold emits, mbind, io_mbind, io_bind. intros Hm Hk.
  destruct m as [tr [a| |]]; cbn in *.
  - destruct (Hk a) as (before & after & Heq & Hb & Ha & Hlast).
    destruct (k a) as [tr' r]. cbn in *. subst tr'.
    exists (tr ++ before), after. rewrite app_assoc. repeat split; auto.
    + apply none_of_app; assumption.
    + intros Hr Hnone. apply (Hlast Hr).
      unfold none_of in *. apply Forall_app in Hnone. tauto.
  - exists tr, []. rewrite app_nil_r. repeat split; auto; try constructor.
    intros H. destruct H. constructor.
  - exists tr, []. rewrite app_nil_r. repeat split; auto; try constructor.
    intros H. destruct H. constructor.
Qed.

(** The step where translation happens, followed by steps that invoke no
    translation strategy any more. *)
Lemma translation_first_pivot {A B} (m : io A) (k : A -> io B) :
  emits not_reply m -> starts_translating m ->
  (forall a, emits not_translation (k a)) ->
  translation_first (fst (m ≫= k)).
Proof.
  intros Hm Hs Hk. apply starts_translating_some in Hs.
  unfold emits, mbind, io_mbind, io_bind in *.
  destruct m as [tr [a| |]]; cbn in *.
  - specialize (Hk a). destruct (k a) as [tr' r]. cbn in *.
    exists tr, tr'. repeat split; auto.
  - exists tr, []. rewrite app_nil_r. repeat split; auto; constructor.
  - exists tr, []. rewrite app_nil_r. repeat split; auto; constructor.
Qed.

End IoFacts.

Create HintDb emits discriminated.

Ltac emits_step :=
  match goal with
  | |- emits _ (_ ≫= _) => apply IoFacts.emits_bind; [|intros]
  | |- emits _ (io_try _ _) => apply IoFacts.emits_try; [|intros]
  | |- emits _ (emit _) => apply IoFacts.emits_emit; first [reflexivity | split; reflexivity]
  | |- emits _ (mret _) => apply IoFacts.emits_ret
  | |- emits _ (lift _) => apply IoFacts.emits_lift
  | |- emits _ (ask _) => apply IoFacts.emits_ask
  | |- emits _ (raise _ _) => apply IoFacts.emits_raise
  | |- emits _ (if ?b then _ else _) => destruct b
  | |- emits _ (match ?x with _ => _ end) => destruct x
  | |- emits _ _ => progress cbv beta zeta
  end.

Ltac emits_auto := repeat first [solve [auto with emits] | emits_step].

Ltac raises_step :=
  match goal with
  | |- never_raises (_ ≫= _) => apply IoFacts.never_raises_bind; [|intros]
  | |- never_raises (io_try _ _) => apply IoFacts.never_raises_try; intros
  | |- never_raises (emit _) => apply IoFacts.never_raises_emit
  | |- never_raises (mret _) => apply IoFacts.never_raises_ret
  | |- never_raises (if ?b then _ else _) => destruct b
  | |- never_raises (match ?x with _ => _ end) => destruct x
  | |- never_raises _ => progress cbv beta zeta
  end.

Ltac raises_auto := repeat first [solve [auto with emits] | raises_step].

Module AppFacts.
Import App IoFacts.


Lemma call_remote_translate_not_reply w t : emits not_reply (call_remote_translate w t).
Proof. unfold call_remote_translate, raise_for_status. emits_auto. Qed.

Lemma translate_with_openai_not_reply w t : emits not_reply (translate_with_openai w t).
Proof. unfold translate_with_openai. emits_auto. Qed.

Lemma translate_local_not_reply w t : emits not_reply (translate_local w t).
Proof. unfold translate_local. emits_auto. Qed.

Lemma detect_language_local_quiet w t :
  emits (fun e => is_reply e = false /\ is_translation e = false)
    (detect_language_local w t).
Proof.
  unfold detect_language_local.
  apply emits_bind; [apply emits_emit; split; reflexivity | intros _].
  emits_auto.
Qed.

#[export] Hint Resolve call_remote_translate_not_reply translate_with_openai_not_reply
  translate_local_not_reply : emits.

Lemma resolve_translation_not_reply w s t : emits not_reply (resolve_translation w s t).
Proof. unfold resolve_translation. emits_auto. Qed.

Lemma call_remote_response_not_translation w t n :
  emits not_translation (call_remote_response w t n).
Proof. unfold call_remote_response, raise_for_status. emits_auto. Qed.

Lemma generate_reply_with_openai_not_translation w t n q :
  emits not_translation (generate_reply_with_openai w t n q).
Proof. unfold generate_reply_with_openai. emits_auto. Qed.

Lemma generate_local_reply_not_translation w t n :
  emits not_translation (generate_local_reply w t n).
Proof. unfold generate_local_reply. emits_auto. Qed.

#[export] Hint Resolve call_remote_response_not_translation
  generate_reply_with_openai_not_translation
  generate_local_reply_not_translation : emits.

Lemma generate_suggestion_not_translation w s t n :
  emits not_translation (generate_suggestion w s t n).
Proof. unfold generate_suggestion. emits_auto. Qed.

Lemma show_error_quiet P msg : (forall w m, P (Show w m)) -> emits P (show_error msg).
Proof.
  intros HP. unfold show_error.
  destruct msg as [m|]; [destruct (truthy m)|]; try apply emits_ret.
  apply emits_emit, HP.
Qed.


Lemma detect_language_local_returns w t :
  exists code, detect_language_local w t = ([Call f_detect_language_local], Ret code).
Proof.
  unfold detect_language_local.
  destruct (langdetect w) as [detect|]; [|eexists; reflexivity].
  cbn. destruct (detect t); eexists; reflexivity.
Qed.

Lemma translation_strategy_starts w t :
  starts_translating (call_remote_translate w t)
  /\ starts_translating (translate_with_openai w t)
  /\ starts_translating (translate_local w t).
Proof. repeat split; apply starts_translating_call; reflexivity. Qed.

Lemma resolve_translation_starts w s t :
  starts_translating (resolve_translation w s t).
Proof.
  destruct (translation_strategy_starts w t) as (Hr & Ho & Hl).
  unfold resolve_translation. apply starts_translating_try.
  destruct (startswith _ (backend_choice s)).
  - apply starts_translating_try, starts_translating_bind, Hr.
  - apply starts_translating_bind.
    destruct (text_eqb _ _ && truthy _); assumption.
Qed.

Lemma resolve_translation_never_raises w s t :
  never_raises (resolve_translation w s t).
Proof.
  unfold resolve_translation. apply never_raises_try.
  intros e. apply never_raises_ret.
Qed.

Lemma generate_suggestion_never_raises w s t n :
  never_raises (generate_suggestion w s t n).
Proof.
  unfold generate_suggestion. apply never_raises_try.
  intros e. apply never_raises_ret.
Qed.

Lemma show_error_returns msg : exists tr, show_error msg = (tr, Ret tt).
Proof.
  unfold show_error. destruct msg as [m|]; [destruct (truthy m)|]; eexists; reflexivity.
Qed.

End AppFacts.

Module HandlerFacts.
Import App AppFacts IoFacts.

#[export] Hint Resolve resolve_translation_never_raises
  generate_suggestion_never_raises generate_suggestion_not_translation
  resolve_translation_not_reply : emits.

Lemma show_error_not_translation msg : emits not_translation (show_error msg).
Proof. apply show_error_quiet. reflexivity. Qed.

Lemma show_error_not_reply msg : emits not_reply (show_error msg).
Proof. apply show_error_quiet. reflexivity. Qed.

Lemma show_error_never_raises msg : never_raises (show_error msg).
Proof. destruct (show_error_returns msg) as [tr H]. exact (never_raises_returns _ _ _ H). Qed.

Lemma detect_language_local_never_raises w t : never_raises (detect_language_local w t).
Proof.
  destruct (detect_language_local_returns w t) as [c H].
  exact (never_raises_returns _ _ _ H).
Qed.

Lemma detect_language_local_not_reply w t : emits not_reply (detect_language_local w t).
Proof.
  destruct (detect_language_local_returns w t) as [c H]. rewrite H.
  repeat constructor.
Qed.

#[export] Hint Resolve show_error_not_translation show_error_not_reply
  show_error_never_raises detect_language_local_never_raises
  detect_language_local_not_reply : emits.

Lemma process_query_never_raises w s f : never_raises (process_query w s f).
Proof. unfold process_query. raises_auto. Qed.

Lemma process_query_translation_first w s f :
  translation_first (fst (process_query w s f)).
Proof.
  unfold process_query.
  destruct (negb (submit_btn f)).
  { exists [], []. repeat split; try constructor. intros H. destruct H. constructor. }
  destruct (negb (truthy (strip (incoming_text f)))).
  { eexists _, []. rewrite app_nil_r. repeat split; try (repeat constructor).
    intros H. destruct H. constructor. }
  apply translation_first_bind; [emits_auto | intros _].
  apply translation_first_bind; [emits_auto | intros lang].
  apply translation_first_bind; [emits_auto | intros _].
  apply translation_first_pivot;
    [apply resolve_translation_not_reply | apply resolve_translation_starts |].
  intros [t err]. emits_auto.
Qed.


Lemma process_query_empty_translation w s f tr p :
  process_query w s f = (tr, Ret p) -> translated p = [] ->
  suggested p = [] /\ none_of is_reply tr.
Proof.
  unfold process_query.
  destruct (negb (submit_btn f)).
  { intros [= <- <-] _. split; [reflexivity | constructor]. }
  destruct (negb (truthy (strip (incoming_text f)))).
  { intros [= <- <-] _. split; [reflexivity | repeat constructor]. }
  intros H Hempty.
  apply bind_returns in H as ([] & tr1 & tr1' & H1 & H & ->).
  apply bind_returns in H as (lang & tr2 & tr2' & H2 & H & ->).
  apply bind_returns in H as ([] & tr3 & tr3' & H3 & H & ->).
  apply bind_returns in H as ([t err] & tr4 & tr4' & H4 & H & ->).
  apply bind_returns in H as ([] & tr5 & tr5' & H5 & H & ->).
  apply bind_returns in H as (sg & tr6 & tr6' & H6 & H & ->).
  injection H as <- <-. cbn [translated suggested] in *. subst t.
  cbn [truthy] in H6. injection H6 as <- <-.
  split; [reflexivity|].
  pose proof (detect_language_local_not_reply w (incoming_text f)) as Hd.
  pose proof (resolve_translation_not_reply w s (incoming_text f)) as Hr.
  pose proof (show_error_not_reply err) as He.
  rewrite H2 in Hd. rewrite H4 in Hr. rewrite H5 in He.
  injection H1 as <-. injection H3 as <-.
  unfold emits in *. cbn [fst] in *.
  repeat apply none_of_app; try assumption; repeat constructor.
Qed.

End HandlerFacts.

(** C7. When the translated text a submission resolves to is empty, no
    reply strategy is invoked and the suggested reply stays empty; and in
    every run the translation strategies come before the reply strategies,
    none of which runs unless a translation strategy ran. *)
Theorem C7_reply_only_after_translation
    (w : world) (s : App.settings) (f : App.form) :
  (forall p, snd (App.process_query w s f) = Ret p -> App.translated p = [] ->
     App.suggested p = [] /\ none_of is_reply (fst (App.process_query w s f)))
  /\ translation_first (fst (App.process_query w s f))
  /\ never_raises (App.process_query w s f).
Proof.
  split; [|split].
  - intros p Hp. destruct (App.process_query w s f) as [tr out] eqn:Hq.
    cbn [fst snd] in *. subst out.
    exact (HandlerFacts.process_query_empty_translation w s f tr p Hq).
  - apply HandlerFacts.process_query_translation_first.
  - apply HandlerFacts.process_query_never_raises.
Qed.

Lemma C7_reply_only_after_translation_witness :
  App.suggested (App.Page [] [] (lit "unknown")) = [] /\
  none_of is_reply (fst (App.process_query hollow_backend remote_settings sample_form)).
Proof.
  apply (C7_reply_only_after_translation hollow_backend remote_settings sample_form);
    reflexivity.
Defined.

(** C6, as stated, fails for the Translation Engine: with a key set it
    sends one request, and the prompt of that request does not open with
    the quoted instruction. *)
Lemma C6_engine_prompt_differs :
  chat_requests (fst (TranslationEngine.translate_openai online bonjour))
  = [TranslationEngine.request online bonjour]
  /\ ~ translation_request_with quoted_instruction
         (TranslationEngine.request online bonjour) bonjour.
Proof.
  split; [reflexivity|].
  intros (Hm & _). vm_compute in Hm. discriminate Hm.
Qed.

(** C6, amended. Every request the application's [translate_with_openai]
    issues carries the quoted instruction, and every request the engine's
    [translate_openai] issues carries the engine's own instruction; in both
    the text is embedded after the instruction, the temperature is 0.0, at
    most 1024 tokens are asked for and the only message has the user role.
    With a key set and the client library present each issues exactly one
    request. *)
Theorem C6_translation_requests (w : world) (text0 : text) :
  Forall (fun req => translation_request_with quoted_instruction req text0)
    (chat_requests (fst (App.translate_with_openai w text0)))
  /\ Forall (fun req => translation_request_with engine_instruction req text0)
       (chat_requests (fst (TranslationEngine.translate_openai w text0)))
  /\ (truthy (app_key w) = true -> openai_importable w = true ->
      chat_requests (fst (App.translate_with_openai w text0))
      = [App.translation_request w text0])
  /\ (TranslationEngine.key_missing (backend_key w) = false ->
      openai_importable w = true ->
      chat_requests (fst (TranslationEngine.translate_openai w text0))
      = [TranslationEngine.request w text0]).
Proof.
  assert (Happ : translation_request_with quoted_instruction
                   (App.translation_request w text0) text0).
  { repeat split. }
  assert (Heng : translation_request_with engine_instruction
                   (TranslationEngine.request w text0) text0).
  { repeat split. }
  unfold App.translate_with_openai, TranslationEngine.translate_openai.
  repeat split.
  - destruct (truthy (app_key w)); [|constructor].
    destruct (openai_importable w); [|constructor].
    cbn. destruct (chat_completion w _); repeat constructor; exact Happ.
  - destruct (TranslationEngine.key_missing (backend_key w)); [constructor|].
    destruct (openai_importable w); [|constructor].
    cbn. destruct (chat_completion w _); repeat constructor; exact Heng.
  - intros -> ->. cbn. destruct (chat_completion w _); reflexivity.
  - intros -> ->. cbn. destruct (chat_completion w _); reflexivity.
Qed.

Lemma C6_translation_requests_witness :
  chat_requests (fst (App.translate_with_openai online bonjour))
  = [App.translation_request online bonjour]
  /\ chat_requests (fst (TranslationEngine.translate_openai online bonjour))
     = [TranslationEngine.request online bonjour].
Proof.
  split; apply (C6_translation_requests online bonjour); reflexivity.
Defined.

(* ===================================================================== *)
(** * Further properties of the evaluation store                          *)
(* ===================================================================== *)

Module StoreFacts.
Import JsonFacts JsonRoundTrip EvaluationFacts Further.

Lemma ascii_only_app a b : ascii_only (a ++ b) = ascii_only a && ascii_only b.
Proof. apply forallb_app. Qed.

Lemma hexdigit_ascii d : d < 16 -> (hexdigit d <? 128) = true.
Proof.
  intros Hd. unfold hexdigit. apply N.ltb_lt.
  destruct (N.ltb_spec d 10); lia.
Qed.

Lemma hex4_ascii n : ascii_only (hex4 n) = true.
Proof.
  unfold hex4, ascii_only. cbn [forallb].
  rewrite !hexdigit_ascii by JsonFacts.divmod. reflexivity.
Qed.

Lemma escape_char_ascii c : ascii_only (escape_char c) = true.
Proof.
  unfold escape_char.
  repeat match goal with
         | |- context [if ?b then _ else _] => destruct b eqn:?
         end; try reflexivity.
  - match goal with H : (32 <=? c) && (c <=? 126) = true |- _ =>
      apply andb_true_iff in H as [_ H]; apply N.leb_le in H end.
    unfold ascii_only. cbn [forallb]. rewrite andb_true_r. apply N.ltb_lt. lia.
  - change (92 :: 117 :: hex4 c) with ([92; 117] ++ hex4 c).
    rewrite ascii_only_app, hex4_ascii. reflexivity.
  - cbv zeta.
    change (92 :: 117 :: ?x) with ([92; 117] ++ x).
    rewrite !ascii_only_app, !hex4_ascii. reflexivity.
Qed.

Lemma encode_str_ascii s : ascii_only (encode_str s) = true.
Proof.
  unfold encode_str. change (34 :: ?x) with ([34] ++ x).
  rewrite !ascii_only_app. cbn [ascii_only forallb]. rewrite andb_true_r.
  cbn [andb N.ltb N.compare Pos.compare Pos.compare_cont].
  induction s as [|c s IH]; [reflexivity|].
  cbn [flat_map]. fold (ascii_only (escape_char c ++ flat_map escape_char s)).
  rewrite ascii_only_app, escape_char_ascii. exact IH.
Qed.

Lemma uint_digits_ascii d : ascii_only (uint_digits d) = true.
Proof. induction d; cbn [uint_digits]; try reflexivity; exact IHd. Qed.

Lemma encode_int_ascii z : ascii_only (encode_int z) = true.
Proof. destruct z; cbn [encode_int]; try apply uint_digits_ascii. Qed.

Lemma newline_indent_ascii level : ascii_only (newline_indent level) = true.
Proof.
  unfold newline_indent. generalize (2 * level)%nat. intros n.
  cbn [ascii_only forallb]. induction n as [|n IH]; [reflexivity | exact IH].
Qed.

Lemma separated_ascii sep chunks :
  ascii_only sep = true -> Forall (fun c => ascii_only c = true) chunks ->
  ascii_only (separated sep chunks) = true.
Proof.
  intros Hsep. induction 1 as [|c cs Hc _ IH]; [reflexivity|].
  rewrite separated_cons, !ascii_only_app, Hsep, Hc, IH. reflexivity.
Qed.

Lemma join_ascii sep chunks :
  ascii_only sep = true -> Forall (fun c => ascii_only c = true) chunks ->
  ascii_only (join sep chunks) = true.
Proof.
  intros Hsep Hall. destruct Hall as [|c cs Hc Hcs]; [reflexivity|].
  rewrite join_separated, ascii_only_app, Hc. apply separated_ascii; assumption.
Qed.

(** With [ensure_ascii] the encoder writes ASCII only. *)
Lemma encode_ascii v : forall level, ascii_only (encode level v) = true.
Proof.
  induction v as [| b | z | s | l IH | d IH] using pyval_ind; intros level.
  - reflexivity.
  - destruct b; reflexivity.
  - apply encode_int_ascii.
  - apply encode_str_ascii.
  - destruct l as [|x xs]; [reflexivity|].
    cbn [encode]. rewrite !ascii_only_app, newline_indent_ascii.
    rewrite join_ascii; [rewrite newline_indent_ascii; reflexivity | |].
    + unfold separator. change (44 :: ?x) with ([44] ++ x).
      rewrite ascii_only_app, newline_indent_ascii. reflexivity.
    + apply Forall_map. eapply Forall_impl; [exact IH|].
      intros y Hy. apply Hy.
  - destruct d as [|kv d']; [reflexivity|].
    cbn [encode]. rewrite !ascii_only_app, newline_indent_ascii.
    rewrite join_ascii; [rewrite newline_indent_ascii; reflexivity | |].
    + unfold separator. change (44 :: ?x) with ([44] ++ x).
      rewrite ascii_only_app, newline_indent_ascii. reflexivity.
    + apply Forall_map. eapply Forall_impl; [exact IH|].
      intros [k y] Hy. unfold encode_item. cbn [fst snd] in *.
      rewrite !ascii_only_app, encode_str_ascii, Hy. reflexivity.
Qed.

Lemma append_not_list data e :
  is_list data = false ->
  Evaluation.append data e = Raise (no_attribute data (lit "append")).
Proof. destruct data; try discriminate; intros _; reflexivity. Qed.

Lemma save_evaluation_appends fs content l e :
  fs !! DATA_FILE = Some content -> loads content = Ret (PList l) ->
  round_trips (PList l) = true -> round_trips (PList [e]) = true ->
  save_evaluation fs e = Ret (<[DATA_FILE := dumps (PList (l ++ [e]))]> fs)
  /\ load_evaluations (<[DATA_FILE := dumps (PList (l ++ [e]))]> fs)
     = Ret (PList (l ++ [e])).
Proof.
  intros Hc Hl Hwl Hwe.
  pose proof (round_trips_snoc _ _ Hwl Hwe) as Hall. split.
  - unfold save_evaluation. rewrite Hc, Hl.
    cbn [mbind outcome_bind bind try_except Evaluation.append].
    rewrite (EvaluationFacts.dumps_within_fits _ Hall). reflexivity.
  - unfold load_evaluations. rewrite lookup_insert_eq.
    apply loads_dumps. exact Hall.
Qed.

End StoreFacts.

Import Further.

(** X1. When the log decodes to a list, however it was laid out,
    [save_evaluation] puts the entry at its end: loading afterwards gives
    the old list followed by the entry, and no other file changes.  The
    list and the entry are values the encoder and the decoder carry
    faithfully. *)
Theorem save_appends_to_history
    (fs : files) (content : text) (l : list pyval) (e : pyval) :
  fs !! DATA_FILE = Some content -> loads content = Ret (PList l) ->
  round_trips (PList l) = true -> round_trips (PList [e]) = true ->
  exists fs', save_evaluation fs e = Ret fs'
    /\ load_evaluations fs' = Ret (PList (l ++ [e]))
    /\ (forall p, p <> DATA_FILE -> fs' !! p = fs !! p).
Proof.
  intros Hc Hl Hwl Hwe.
  destruct (StoreFacts.save_evaluation_appends fs content l e Hc Hl Hwl Hwe)
    as [Hs Hload].
  eexists. split; [exact Hs|]. split; [exact Hload|].
  intros p Hp. apply lookup_insert_ne. congruence.
Qed.

Lemma save_appends_to_history_witness :
  exists fs', save_evaluation {[DATA_FILE := compact_log]} (entry_dict sample_entry) = Ret fs'
    /\ load_evaluations fs'
       = Ret (PList ([PInt 1; PList [PInt 2]] ++ [entry_dict sample_entry])).
Proof.
  destruct (save_appends_to_history {[DATA_FILE := compact_log]} compact_log
              [PInt 1; PList [PInt 2]] (entry_dict sample_entry))
    as (fs' & Hs & Hl & _).
  - apply lookup_singleton_eq.
  - reflexivity.
  - reflexivity.
  - reflexivity.
  - exists fs'. split; assumption.
Defined.

(** X2. Saving onto a log that does not decode throws the old content
    away: the save succeeds and loading afterwards gives the new entry
    alone. *)
Theorem save_replaces_corrupt_log
    (fs : files) (content : text) (err : exn) (e : pyval) :
  fs !! DATA_FILE = Some content -> loads content = Raise err ->
  round_trips (PList [e]) = true ->
  exists fs', save_evaluation fs e = Ret fs'
    /\ load_evaluations fs' = Ret (PList [e]).
Proof.
  intros Hc Hl Hwe.
  rewrite (EvaluationFacts.save_evaluation_resets fs content err e Hc Hl Hwe).
  eexists. split; [reflexivity|].
  unfold load_evaluations. rewrite lookup_insert_eq.
  apply JsonRoundTrip.loads_dumps. exact Hwe.
Qed.

Lemma save_replaces_corrupt_log_witness :
  exists fs', save_evaluation {[DATA_FILE := broken_log]} (entry_dict sample_entry) = Ret fs'
    /\ load_evaluations fs' = Ret (PList [entry_dict sample_entry]).
Proof.
  apply (save_replaces_corrupt_log {[DATA_FILE := broken_log]} broken_log
           decode_error (entry_dict sample_entry)).
  - apply lookup_singleton_eq.
  - reflexivity.
  - reflexivity.
Defined.

(** X3. A log that decodes to something other than a list is not a
    history: [load_evaluations] hands that value back as it is, and
    [save_evaluation] fails with the AttributeError of [append], which
    names the type of the value, instead of writing. *)
Theorem save_rejects_non_list_log
    (fs : files) (content : text) (v e : pyval) :
  fs !! DATA_FILE = Some content -> loads content = Ret v -> is_list v = false ->
  load_evaluations fs = Ret v
  /\ save_evaluation fs e = Raise (no_attribute v (lit "append")).
Proof.
  intros Hc Hl Hv. split.
  - unfold load_evaluations. rewrite Hc. exact Hl.
  - unfold save_evaluation. rewrite Hc, Hl. cbn.
    rewrite (StoreFacts.append_not_list v e Hv). reflexivity.
Qed.

Lemma save_rejects_non_list_log_witness :
  load_evaluations {[DATA_FILE := object_log]} = Ret (PDict [])
  /\ save_evaluation {[DATA_FILE := object_log]} (entry_dict sample_entry)
     = Raise (Exn AttributeError (lit "'dict' object has no attribute 'append'")).
Proof.
  apply (save_rejects_non_list_log {[DATA_FILE := object_log]} object_log (PDict [])).
  - apply lookup_singleton_eq.
  - reflexivity.
  - reflexivity.
Defined.

(** X4. Whatever the entries hold, the log [save_evaluation] writes is pure
    ASCII, opening with a bracket and closing with one. *)
Theorem saved_log_is_ascii (fs fs' : files) (e : pyval) :
  save_evaluation fs e = Ret fs' ->
  exists content, fs' !! DATA_FILE = Some content
    /\ ascii_only content = true
    /\ head content = Some 91 /\ last content = Some 93.
Proof.
  intros Hs.
  pose proof (EvaluationFacts.save_evaluation_written fs fs' e Hs) as Hd.
  destruct Hd as [l ->]. eexists. split; [apply lookup_insert_eq|].
  split; [apply StoreFacts.encode_ascii|].
  unfold dumps. destruct (l ++ [e]) as [|x xs] eqn:E.
  { destruct l; discriminate E. }
  cbn [encode]. split; [reflexivity|].
  rewrite !app_assoc. apply last_snoc.
Qed.

Lemma saved_log_is_ascii_witness :
  exists content,
    (<[DATA_FILE := dumps (PList [entry_dict sample_entry])]> (∅ : files))
      !! DATA_FILE = Some content
    /\ ascii_only content = true
    /\ head content = Some 91 /\ last content = Some 93.
Proof.
  apply (saved_log_is_ascii ∅ _ (entry_dict sample_entry)). reflexivity.
Defined.

(* ===================================================================== *)
(** * The save button and its two stores                                  *)
(* ===================================================================== *)

Module LocalSaveFacts.
Import EvaluationFacts.

Lemma save_evaluation_fallback_keeps_primary fs fs' e :
  App.save_evaluation_fallback fs e = Ret fs' ->
  fs' !! DATA_FILE = fs !! DATA_FILE.
Proof.
  intros H. apply (save_evaluation_fallback_frame fs fs' e DATA_FILE H).
  discriminate.
Qed.

Lemma save_evaluation_keeps_local fs fs' e :
  save_evaluation fs e = Ret fs' -> fs' !! App.LOCAL_FILE = fs !! App.LOCAL_FILE.
Proof.
  intros H. apply (save_evaluation_frame fs fs' e App.LOCAL_FILE H).
  discriminate.
Qed.

(** How [save_evaluation_local] ends, by how the primary store ends. *)
Lemma save_evaluation_local_cases w fs e :
  (utils_evaluation_present w = true /\
   (forall err, save_evaluation fs e <> Raise err) /\
   App.save_evaluation_local w fs e = save_evaluation fs e)
  \/ ((utils_evaluation_present w = false \/ exists err, save_evaluation fs e = Raise err)
      /\ App.save_evaluation_local w fs e = App.save_evaluation_fallback fs e).
Proof.
  unfold App.save_evaluation_local.
  destruct (utils_evaluation_present w); [|right; split; [left|]; reflexivity].
  destruct (save_evaluation fs e) as [fs'|err|] eqn:Hs.
  - left. repeat split; discriminate.
  - right. split; [right; exists err|]; reflexivity.
  - left. repeat split; discriminate.
Qed.

Lemma evaluation_block_never_raises w fs f p rating comments clicked :
  never_raises (App.evaluation_block w fs f p rating comments clicked).
Proof.
  unfold App.evaluation_block.
  destruct (negb (App.submit_btn f)); [apply IoFacts.never_raises_ret|].
  destruct (negb (truthy (strip (App.incoming_text f))));
    [apply IoFacts.never_raises_ret|].
  apply IoFacts.never_raises_bind; [apply IoFacts.never_raises_emit | intros _].
  apply IoFacts.never_raises_bind; [apply IoFacts.never_raises_emit | intros _].
  destruct clicked; [|apply IoFacts.never_raises_ret].
  apply IoFacts.never_raises_try. intros e.
  apply IoFacts.never_raises_bind; [apply IoFacts.never_raises_emit | intros _].
  apply IoFacts.never_raises_ret.
Qed.

(** Outside a run that processed a message the block is not reached. *)
Lemma evaluation_block_skipped w fs f p rating comments clicked :
  App.submit_btn f = false \/ truthy (strip (App.incoming_text f)) = false ->
  App.evaluation_block w fs f p rating comments clicked = ([], Ret fs).
Proof.
  unfold App.evaluation_block. intros [-> | ->]; [reflexivity|].
  destruct (negb (App.submit_btn f)); reflexivity.
Qed.

Lemma process_query_skipped w s f :
  App.submit_btn f = false \/ truthy (strip (App.incoming_text f)) = false ->
  snd (App.process_query w s f) = Ret App.initial_page.
Proof.
  unfold App.process_query. intros [-> | ->]; [reflexivity|].
  destruct (negb (App.submit_btn f)); reflexivity.
Qed.

End LocalSaveFacts.

(** X5. [save_evaluation_local] writes one log and only that one: either it
    ends as [save_evaluation] does and the fallback log is as before, or it
    ends as the fallback writer does and the primary log is as before; no
    third file changes. *)
Theorem local_save_writes_one_log (w : world) (fs fs' : files) (e : pyval) :
  App.save_evaluation_local w fs e = Ret fs' ->
  ((save_evaluation fs e = Ret fs' /\ fs' !! App.LOCAL_FILE = fs !! App.LOCAL_FILE)
   \/ (App.save_evaluation_fallback fs e = Ret fs'
       /\ fs' !! DATA_FILE = fs !! DATA_FILE))
  /\ (forall p, p <> DATA_FILE -> p <> App.LOCAL_FILE -> fs' !! p = fs !! p).
Proof.
  intros H.
  destruct (LocalSaveFacts.save_evaluation_local_cases w fs e)
    as [(_ & _ & Heq) | (_ & Heq)]; rewrite Heq in H.
  - split.
    + left. split; [exact H|].
      exact (LocalSaveFacts.save_evaluation_keeps_local fs fs' e H).
    + intros p Hp _. exact (EvaluationFacts.save_evaluation_frame fs fs' e p H Hp).
  - split.
    + right. split; [exact H|].
      exact (LocalSaveFacts.save_evaluation_fallback_keeps_primary fs fs' e H).
    + intros p _ Hp.
      exact (EvaluationFacts.save_evaluation_fallback_frame fs fs' e p H Hp).
Qed.

Lemma local_save_writes_one_log_witness :
  (save_evaluation ∅ (entry_dict sample_entry)
   = Ret (<[DATA_FILE := dumps (PList [entry_dict sample_entry])]> (∅ : files))
   /\ (<[DATA_FILE := dumps (PList [entry_dict sample_entry])]> (∅ : files))
        !! App.LOCAL_FILE = (∅ : files) !! App.LOCAL_FILE)
  \/ (App.save_evaluation_fallback ∅ (entry_dict sample_entry)
      = Ret (<[DATA_FILE := dumps (PList [entry_dict sample_entry])]> (∅ : files))
      /\ (<[DATA_FILE := dumps (PList [entry_dict sample_entry])]> (∅ : files))
           !! DATA_FILE = (∅ : files) !! DATA_FILE).
Proof.
  apply (local_save_writes_one_log offline ∅ _ (entry_dict sample_entry)).
  reflexivity.
Defined.

(** X6. When the primary store cannot be imported, or fails on its own log
    (one that holds valid JSON other than a list), the entry goes to the
    fallback log: [save_evaluation_local] ends as the fallback writer does,
    and the primary log, and with it what [load_evaluations] returns, stay
    as they were. *)
Theorem local_save_falls_back (w : world) (fs : files) (e : pyval) :
  (utils_evaluation_present w = false \/ exists err, save_evaluation fs e = Raise err) ->
  App.save_evaluation_local w fs e = App.save_evaluation_fallback fs e
  /\ (forall fs', App.save_evaluation_local w fs e = Ret fs' ->
        fs' !! DATA_FILE = fs !! DATA_FILE
        /\ load_evaluations fs' = load_evaluations fs).
Proof.
  intros Hfail.
  assert (Heq : App.save_evaluation_local w fs e = App.save_evaluation_fallback fs e).
  { unfold App.save_evaluation_local.
    destruct Hfail as [-> | [err Herr]]; [reflexivity|].
    destruct (utils_evaluation_present w); [rewrite Herr|]; reflexivity. }
  split; [exact Heq|]. intros fs' H. rewrite Heq in H.
  pose proof (LocalSaveFacts.save_evaluation_fallback_keeps_primary fs fs' e H) as Hk.
  split; [exact Hk|]. unfold load_evaluations. rewrite Hk. reflexivity.
Qed.

Lemma local_save_falls_back_witness :
  App.save_evaluation_local offline {[DATA_FILE := object_log]} (entry_dict sample_entry)
  = App.save_evaluation_fallback {[DATA_FILE := object_log]} (entry_dict sample_entry)
  /\ App.save_evaluation_local bare ∅ (entry_dict sample_entry)
     = App.save_evaluation_fallback ∅ (entry_dict sample_entry).
Proof.
  split.
  - apply (local_save_falls_back offline {[DATA_FILE := object_log]}
             (entry_dict sample_entry)).
    right. eexists. unfold save_evaluation. rewrite lookup_singleton_eq.
    reflexivity.
  - apply (local_save_falls_back bare ∅ (entry_dict sample_entry)).
    left. reflexivity.
Defined.

(** X7. The save block is reached only in a run that processed a
    message, and it lets no exception out.  In a run whose form was not
    submitted, or was submitted with a blank message, nothing of the block
    is shown and no file changes, even when the save button reports a
    click: the run ends with the page at its defaults and the files as
    they were. *)
Theorem save_block_is_guarded
    (w : world) (fs : files) (s : App.settings) (f : App.form) (p : App.page)
    (rating : Z) (comments : text) (clicked : bool) :
  never_raises (App.evaluation_block w fs f p rating comments clicked)
  /\ (App.submit_btn f = false \/ truthy (strip (App.incoming_text f)) = false ->
      App.evaluation_block w fs f p rating comments clicked = ([], Ret fs)
      /\ snd (App.run w fs s f rating comments clicked)
         = Ret (App.initial_page, fs)).
Proof.
  split; [apply LocalSaveFacts.evaluation_block_never_raises|].
  intros Hskip. split.
  - exact (LocalSaveFacts.evaluation_block_skipped w fs f p rating comments
             clicked Hskip).
  - unfold App.run.
    pose proof (LocalSaveFacts.process_query_skipped w s f Hskip) as Hq.
    destruct (App.process_query w s f) as [tr out]. cbn [snd] in Hq. subst out.
    unfold mbind, io_mbind, io_bind.
    rewrite (LocalSaveFacts.evaluation_block_skipped w fs f App.initial_page
               rating comments clicked Hskip).
    reflexivity.
Qed.

Lemma save_block_is_guarded_witness :
  App.evaluation_block online {[DATA_FILE := compact_log]} blank_form
    App.initial_page 4 [] true
  = ([], Ret {[DATA_FILE := compact_log]})
  /\ snd (App.run online {[DATA_FILE := compact_log]} openai_settings blank_form
            4 [] true)
     = Ret (App.initial_page, {[DATA_FILE := compact_log]}).
Proof.
  destruct (save_block_is_guarded online {[DATA_FILE := compact_log]}
              openai_settings blank_form App.initial_page 4 [] true) as [_ H].
  apply H. right. reflexivity.
Defined.

(* ===================================================================== *)
(** * The language-model paths                                            *)
(* ===================================================================== *)

Module StripFacts.

Lemma lstrip_head s c r : lstrip s = c :: r -> isspace c = false.
Proof.
  induction s as [|a s IH]; [discriminate|].
  cbn [lstrip]. destruct (isspace a) eqn:Ha; [exact IH|].
  intros [= <- _]. exact Ha.
Qed.

Lemma lstrip_fixed c r : isspace c = false -> lstrip (c :: r) = c :: r.
Proof. intros H. cbn [lstrip]. rewrite H. reflexivity. Qed.

Lemma lstrip_idem s : lstrip (lstrip s) = lstrip s.
Proof.
  destruct (lstrip s) as [|c r] eqn:E; [reflexivity|].
  apply lstrip_fixed. exact (lstrip_head s c r E).
Qed.

Lemma lstrip_suffix s : exists pre, s = pre ++ lstrip s.
Proof.
  induction s as [|a s [pre IH]]; [exists []; reflexivity|].
  cbn [lstrip]. destruct (isspace a).
  - exists (a :: pre). cbn [app]. f_equal. exact IH.
  - exists []. reflexivity.
Qed.

(** [s.strip()] has no whitespace at either end. *)
Lemma strip_trimmed s : trimmed (strip s).
Proof.
  unfold trimmed, strip. split.
  - destruct (lstrip_suffix (rev (lstrip s))) as [pre Hpre].
    apply (f_equal (@rev char)) in Hpre.
    rewrite rev_involutive, rev_app_distr in Hpre.
    destruct (rev (lstrip (rev (lstrip s)))) as [|c r]; [reflexivity|].
    apply lstrip_fixed. exact (lstrip_head s _ _ Hpre).
  - rewrite rev_involutive. apply lstrip_idem.
Qed.

Lemma lstrip_blank s : forallb isspace s = true -> lstrip s = [].
Proof.
  induction s as [|a s IH]; [reflexivity|].
  cbn [forallb lstrip]. intros H. apply andb_true_iff in H as [Ha Hs].
  rewrite Ha. exact (IH Hs).
Qed.

Lemma strip_blank s : forallb isspace s = true -> strip s = [].
Proof. intros H. unfold strip. rewrite (lstrip_blank s H). reflexivity. Qed.

Lemma strip_nonempty s : truthy (strip s) = true -> truthy s = true.
Proof. destruct s; [discriminate | reflexivity]. Qed.

End StripFacts.

Module ModelFacts.

(** What the four model-backed functions do once the key is there. *)
Lemma translate_with_openai_keyed w t :
  truthy (app_key w) = true -> openai_importable w = true ->
  App.translate_with_openai w t
  = match chat_completion w (App.translation_request w t) with
    | inr content =>
        ([Call f_translate_with_openai; Chat (App.translation_request w t)],
         Ret (strip content))
    | inl e =>
        ([Call f_translate_with_openai; Chat (App.translation_request w t)],
         Raise (Exn RuntimeError (openai_translation_failed ++ exn_str e)))
    end.
Proof.
  intros Hk Hi. unfold App.translate_with_openai. rewrite Hk, Hi.
  cbn [negb]. unfold mbind, io_mbind, io_bind, io_try, emit, ask, mret, io_mret, io_ret, raise.
  destruct (chat_completion w _); reflexivity.
Qed.

Lemma translate_with_openai_no_key w t :
  truthy (app_key w) = false ->
  App.translate_with_openai w t
  = ([Call f_translate_with_openai],
     Raise (Exn RuntimeError key_not_configured)).
Proof. intros Hk. unfold App.translate_with_openai. rewrite Hk. reflexivity. Qed.

Lemma translate_with_openai_no_library w t :
  truthy (app_key w) = true -> openai_importable w = false ->
  exists cause,
    App.translate_with_openai w t
    = ([Call f_translate_with_openai],
       Raise (Exn RuntimeError (openai_translation_failed ++ exn_str cause))).
Proof.
  intros Hk Hi. unfold App.translate_with_openai. rewrite Hk, Hi.
  eexists (Exn ImportError _). reflexivity.
Qed.

Lemma generate_reply_with_openai_keyed w t n q :
  truthy (app_key w) = true -> openai_importable w = true ->
  App.generate_reply_with_openai w t n q
  = match chat_completion w (App.reply_request w t q) with
    | inr content =>
        ([Call f_generate_reply_with_openai; Chat (App.reply_request w t q)],
         Ret (strip content))
    | inl e =>
        ([Call f_generate_reply_with_openai; Chat (App.reply_request w t q)],
         Raise (Exn RuntimeError (openai_response_failed ++ exn_str e)))
    end.
Proof.
  intros Hk Hi. unfold App.generate_reply_with_openai. rewrite Hk, Hi.
  cbn [negb]. unfold mbind, io_mbind, io_bind, io_try, emit, ask, mret, io_mret, io_ret, raise.
  destruct (chat_completion w _); reflexivity.
Qed.

Lemma generate_reply_with_openai_no_key w t n q :
  truthy (app_key w) = false ->
  App.generate_reply_with_openai w t n q
  = ([Call f_generate_reply_with_openai],
     Raise (Exn RuntimeError key_not_configured)).
Proof. intros Hk. unfold App.generate_reply_with_openai. rewrite Hk. reflexivity. Qed.

Lemma generate_reply_with_openai_no_library w t n q :
  truthy (app_key w) = true -> openai_importable w = false ->
  exists cause,
    App.generate_reply_with_openai w t n q
    = ([Call f_generate_reply_with_openai],
       Raise (Exn RuntimeError (openai_response_failed ++ exn_str cause))).
Proof.
  intros Hk Hi. unfold App.generate_reply_with_openai. rewrite Hk, Hi.
  eexists (Exn ImportError _). reflexivity.
Qed.

Lemma translate_openai_keyed w t :
  TranslationEngine.key_missing (backend_key w) = false ->
  openai_importable w = true ->
  TranslationEngine.translate_openai w t
  = match chat_completion w (TranslationEngine.request w t) with
    | inr content => ([Chat (TranslationEngine.request w t)], Ret (strip content))
    | inl e => ([Chat (TranslationEngine.request w t)], Raise e)
    end.
Proof.
  intros Hk Hi. unfold TranslationEngine.translate_openai. rewrite Hk, Hi.
  unfold mbind, io_mbind, io_bind, emit, ask, mret, io_mret, io_ret.
  destruct (chat_completion w _); reflexivity.
Qed.

Lemma generate_openai_reply_keyed w t n q :
  TranslationEngine.key_missing (backend_key w) = false ->
  openai_importable w = true ->
  ResponseGenerator.generate_openai_reply w t n q
  = match chat_completion w (ResponseGenerator.request w t q) with
    | inr content => ([Chat (ResponseGenerator.request w t q)], Ret (strip content))
    | inl e => ([Chat (ResponseGenerator.request w t q)], Raise e)
    end.
Proof.
  intros Hk Hi. unfold ResponseGenerator.generate_openai_reply. rewrite Hk, Hi.
  unfold mbind, io_mbind, io_bind, emit, ask, mret, io_mret, io_ret.
  destruct (chat_completion w _); reflexivity.
Qed.

Lemma translate_openai_unavailable w t :
  TranslationEngine.key_missing (backend_key w) = true \/ openai_importable w = false ->
  exists e, TranslationEngine.translate_openai w t = ([], Raise e).
Proof.
  unfold TranslationEngine.translate_openai.
  destruct (TranslationEngine.key_missing (backend_key w)); [eexists; reflexivity|].
  intros [H | ->]; [discriminate H | eexists; reflexivity].
Qed.

Lemma generate_openai_reply_unavailable w t n q :
  TranslationEngine.key_missing (backend_key w) = true \/ openai_importable w = false ->
  exists e, ResponseGenerator.generate_openai_reply w t n q = ([], Raise e).
Proof.
  unfold ResponseGenerator.generate_openai_reply.
  destruct (TranslationEngine.key_missing (backend_key w)); [eexists; reflexivity|].
  intros [H | ->]; [discriminate H | eexists; reflexivity].
Qed.

End ModelFacts.

(** X9. Whatever text one of the four model-backed functions returns has
    been stripped: it neither starts nor ends with whitespace (and is empty
    when the model answered with whitespace only). *)
Theorem model_results_are_trimmed (w : world) (t : text) (n : option text)
    (name : text) (q : Q) (s : text) :
  (snd (TranslationEngine.translate_openai w t) = Ret s -> trimmed s)
  /\ (snd (ResponseGenerator.generate_openai_reply w t n q) = Ret s -> trimmed s)
  /\ (snd (App.translate_with_openai w t) = Ret s -> trimmed s)
  /\ (snd (App.generate_reply_with_openai w t name q) = Ret s -> trimmed s).
Proof.
  split; [|split; [|split]].
  - destruct (TranslationEngine.key_missing (backend_key w)) eqn:Hk;
      [|destruct (openai_importable w) eqn:Hi].
    + destruct (ModelFacts.translate_openai_unavailable w t (or_introl Hk)) as [e ->].
      discriminate.
    + rewrite (ModelFacts.translate_openai_keyed w t Hk Hi).
      destruct (chat_completion w _); [discriminate|].
      intros [= <-]. apply StripFacts.strip_trimmed.
    + destruct (ModelFacts.translate_openai_unavailable w t (or_intror Hi)) as [e ->].
      discriminate.
  - destruct (TranslationEngine.key_missing (backend_key w)) eqn:Hk;
      [|destruct (openai_importable w) eqn:Hi].
    + destruct (ModelFacts.generate_openai_reply_unavailable w t n q (or_introl Hk))
        as [e ->]. discriminate.
    + rewrite (ModelFacts.generate_openai_reply_keyed w t n q Hk Hi).
      destruct (chat_completion w _); [discriminate|].
      intros [= <-]. apply StripFacts.strip_trimmed.
    + destruct (ModelFacts.generate_openai_reply_unavailable w t n q (or_intror Hi))
        as [e ->]. discriminate.
  - destruct (truthy (app_key w)) eqn:Hk; [destruct (openai_importable w) eqn:Hi|].
    + rewrite (ModelFacts.translate_with_openai_keyed w t Hk Hi).
      destruct (chat_completion w _); [discriminate|].
      intros [= <-]. apply StripFacts.strip_trimmed.
    + destruct (ModelFacts.translate_with_openai_no_library w t Hk Hi) as [c ->].
      discriminate.
    + rewrite (ModelFacts.translate_with_openai_no_key w t Hk). discriminate.
  - destruct (truthy (app_key w)) eqn:Hk; [destruct (openai_importable w) eqn:Hi|].
    + rewrite (ModelFacts.generate_reply_with_openai_keyed w t name q Hk Hi).
      destruct (chat_completion w _); [discriminate|].
      intros [= <-]. apply StripFacts.strip_trimmed.
    + destruct (ModelFacts.generate_reply_with_openai_no_library w t name q Hk Hi)
        as [c ->]. discriminate.
    + rewrite (ModelFacts.generate_reply_with_openai_no_key w t name q Hk).
      discriminate.
Qed.

Lemma model_results_are_trimmed_witness :
  trimmed (lit "I would like to cancel my order.").
Proof.
  apply (model_results_are_trimmed online bonjour None [] 0
           (lit "I would like to cancel my order.")).
  reflexivity.
Defined.





(* ===================================================================== *)
(** * The backend and the calls to it                                     *)
(* ===================================================================== *)

Module RemoteFacts.

(** The helpers in one piece: one helper entry, one request, and the
    checked answer with failures wrapped. *)
Lemma call_remote_translate_served w t :
  App.call_remote_translate w t
  = ([Call f_call_remote_translate; Post (translate_url w) (translate_payload t)],
     wrapped remote_translation_failed
       (served (http_post w (translate_url w) (translate_payload t))
          (lit "translated_text"))).
Proof.
  unfold App.call_remote_translate, served, App.raise_for_status,
    translate_url, translate_payload.
  cbv zeta.
  destruct (http_post w _ _) as [e|resp]; [reflexivity|].
  unfold mbind, io_mbind, io_bind, io_try, emit, ask, lift, mret, io_mret,
    io_ret, raise.
  cbv beta iota.
  destruct ((400 <=? status_code resp)%Z && (status_code resp <? 600)%Z);
    [reflexivity|].
  cbv beta iota.
  destruct (loads (body resp)) as [data| |]; try reflexivity.
  cbn [outcome_bind bind].
  destruct (App.get_text data (lit "translated_text")); reflexivity.
Qed.

Lemma call_remote_response_served w t name :
  App.call_remote_response w t name
  = ([Call f_call_remote_response; Post (response_url w) (response_payload t name)],
     wrapped remote_response_failed
       (served (http_post w (response_url w) (response_payload t name))
          (lit "reply"))).
Proof.
  unfold App.call_remote_response, served, App.raise_for_status,
    response_url, response_payload.
  cbv zeta.
  destruct (http_post w _ _) as [e|resp]; [reflexivity|].
  unfold mbind, io_mbind, io_bind, io_try, emit, ask, lift, mret, io_mret,
    io_ret, raise.
  cbv beta iota.
  destruct ((400 <=? status_code resp)%Z && (status_code resp <? 600)%Z);
    [reflexivity|].
  cbv beta iota.
  destruct (loads (body resp)) as [data| |]; try reflexivity.
  cbn [outcome_bind bind].
  destruct (App.get_text data (lit "reply")); reflexivity.
Qed.

Lemma wrapped_raises prefix o err :
  wrapped prefix o = Raise err ->
  exn_kind err = RuntimeError
  /\ exists cause, o = Raise cause /\ exn_str err = prefix ++ exn_str cause.
Proof.
  destruct o as [s|e|]; try discriminate. intros [= <-].
  split; [reflexivity|]. exists e. split; reflexivity.
Qed.

Lemma served_carries a resp v key :
  a = inr resp -> carries resp v -> served a key = App.get_text v key.
Proof.
  intros -> [Hok Hbody]. unfold served, http_success in *.
  destruct (Z.leb_spec 400 (status_code resp));
    [destruct (Z.ltb_spec (status_code resp) 600); [lia|] |];
    cbn [andb]; rewrite Hbody; reflexivity.
Qed.

Lemma get_text_non_dict v key :
  is_dict v = false -> exists e, App.get_text v key = Raise e.
Proof. destruct v; try discriminate; intros _; eexists; reflexivity. Qed.

(** The two endpoints when the model path is closed. *)
Lemma translate_endpoint_keyless w t :
  TranslationEngine.key_missing (backend_key w) = true \/ openai_importable w = false ->
  Server.translate w t = ([], Ret (PDict [(lit "translated_text", PStr t)])).
Proof.
  intros H. unfold Server.translate.
  destruct (ModelFacts.translate_openai_unavailable w t H) as [e ->].
  reflexivity.
Qed.

Lemma response_endpoint_keyless w t name ps :
  TranslationEngine.key_missing (backend_key w) = true \/ openai_importable w = false ->
  canned_template w = Some (template_text ps) ->
  Server.response w t name
  = ([], Ret (PDict [(lit "reply", PStr (fill ps (greeted name) (excerpt t)))])).
Proof.
  intros H Htpl. unfold Server.response.
  destruct (ModelFacts.generate_openai_reply_unavailable w t name
              ResponseGenerator.default_temperature H) as [e ->].
  unfold io_try. rewrite Htpl.
  rewrite FormatFacts.format_template, FormatFacts.name_or_customer_greeted,
    FormatFacts.slice_excerpt.
  reflexivity.
Qed.

End RemoteFacts.

(** X12. Without a key (or without the client library) [/response] sends
    nothing to the model and answers with the canned template: the name, or
    "Customer" for an empty or missing one, and the first 120 characters of
    the translated text. *)
Theorem response_endpoint_without_model
    (w : world) (t : text) (name : option text) (ps : list piece) :
  TranslationEngine.key_missing (backend_key w) = true \/ openai_importable w = false ->
  canned_template w = Some (template_text ps) ->
  Server.response w t name
  = ([], Ret (PDict [(lit "reply", PStr (fill ps (greeted name) (excerpt t)))])).
Proof. apply RemoteFacts.response_endpoint_keyless. Qed.

Lemma response_endpoint_without_model_witness :
  Server.response offline bonjour None
  = ([], Ret (PDict [(lit "reply",
                      PStr (fill sample_template (lit "Customer") bonjour))])).
Proof.
  apply (response_endpoint_without_model offline bonjour None sample_template).
  - left. reflexivity.
  - reflexivity.
Defined.

(** X13. With a key and the client library both endpoints ask the model
    exactly once: [/translate] answers with the stripped completion, or
    with the unchanged input when the request fails; [/response] asks at
    the generator's default temperature 0.2 and, when the request fails,
    answers with the canned template. *)
Theorem endpoints_ask_the_model_once
    (w : world) (t : text) (name : option text) (ps : list piece) :
  TranslationEngine.key_missing (backend_key w) = false ->
  openai_importable w = true ->
  Server.translate w t
  = ([Chat (TranslationEngine.request w t)],
     Ret (PDict [(lit "translated_text",
                  PStr (match chat_completion w (TranslationEngine.request w t) with
                        | inr content => strip content
                        | inl _ => t
                        end))]))
  /\ (canned_template w = Some (template_text ps) ->
      Server.response w t name
      = ([Chat (ResponseGenerator.request w t (2 # 10))],
         Ret (PDict [(lit "reply",
                      PStr (match chat_completion w
                                    (ResponseGenerator.request w t (2 # 10)) with
                            | inr content => strip content
                            | inl _ => fill ps (greeted name) (excerpt t)
                            end))]))).
Proof.
  intros Hk Hi. split.
  - unfold Server.translate.
    rewrite (ModelFacts.translate_openai_keyed w t Hk Hi).
    destruct (chat_completion w _); reflexivity.
  - intros Htpl. unfold Server.response.
    rewrite (ModelFacts.generate_openai_reply_keyed w t name _ Hk Hi).
    change ResponseGenerator.default_temperature with (2 # 10)%Q.
    destruct (chat_completion w _); [|reflexivity].
    unfold io_try. rewrite Htpl.
    rewrite FormatFacts.format_template, FormatFacts.name_or_customer_greeted,
      FormatFacts.slice_excerpt.
    reflexivity.
Qed.

Lemma endpoints_ask_the_model_once_witness :
  Server.translate online bonjour
  = ([Chat (TranslationEngine.request online bonjour)],
     Ret (PDict [(lit "translated_text",
                  PStr (lit "I would like to cancel my order."))])).
Proof.
  apply (endpoints_ask_the_model_once online bonjour None sample_template);
    reflexivity.
Defined.

(** X14. Each remote-call helper sends exactly one request, to its own
    endpoint and with its own payload, however the call ends; and the only
    exception it lets out is a RuntimeError whose message is its prefix
    followed by the message of what went wrong. *)
Theorem remote_calls_post_once_and_wrap (w : world) (t name : text) :
  posts (fst (App.call_remote_translate w t))
  = [(translate_url w, translate_payload t)]
  /\ posts (fst (App.call_remote_response w t name))
     = [(response_url w, response_payload t name)]
  /\ (forall err, snd (App.call_remote_translate w t) = Raise err ->
        exn_kind err = RuntimeError
        /\ exists cause, exn_str err = remote_translation_failed ++ exn_str cause)
  /\ (forall err, snd (App.call_remote_response w t name) = Raise err ->
        exn_kind err = RuntimeError
        /\ exists cause, exn_str err = remote_response_failed ++ exn_str cause).
Proof.
  rewrite RemoteFacts.call_remote_translate_served,
    RemoteFacts.call_remote_response_served.
  split; [reflexivity|]. split; [reflexivity|]. split.
  - intros err H. apply RemoteFacts.wrapped_raises in H as (Hk & cause & _ & Hm).
    split; [exact Hk | exists cause; exact Hm].
  - intros err H. apply RemoteFacts.wrapped_raises in H as (Hk & cause & _ & Hm).
    split; [exact Hk | exists cause; exact Hm].
Qed.

Lemma remote_calls_post_once_and_wrap_witness :
  exn_kind (Exn RuntimeError
              (remote_translation_failed ++ lit "connection refused"))
  = RuntimeError
  /\ exists cause,
       remote_translation_failed ++ lit "connection refused"
       = remote_translation_failed ++ exn_str cause.
Proof.
  destruct (remote_calls_post_once_and_wrap offline bonjour []) as (_ & _ & H & _).
  apply (H (Exn RuntimeError
              (remote_translation_failed ++ lit "connection refused"))).
  reflexivity.
Defined.

(** X15. An answer with a status from 400 to 599 is a failure whatever its
    body says, and so is a success answer whose body is valid JSON but not
    an object: both helpers then raise their RuntimeError. *)
Theorem bad_answers_are_failures
    (w : world) (t name : text) (resp : http_response) (v : pyval) :
  ((400 <= status_code resp < 600)%Z \/ (carries resp v /\ is_dict v = false)) ->
  (http_post w (translate_url w) (translate_payload t) = inr resp ->
   exists cause,
     snd (App.call_remote_translate w t)
     = Raise (Exn RuntimeError (remote_translation_failed ++ exn_str cause)))
  /\ (http_post w (response_url w) (response_payload t name) = inr resp ->
      exists cause,
        snd (App.call_remote_response w t name)
        = Raise (Exn RuntimeError (remote_response_failed ++ exn_str cause))).
Proof.
  intros Hbad.
  assert (Hserved : forall key, exists cause, served (inr resp) key = Raise cause).
  { intros key. destruct Hbad as [Hst | [Hc Hv]].
    - unfold served.
      destruct (Z.leb_spec 400 (status_code resp)); [|lia].
      destruct (Z.ltb_spec (status_code resp) 600); [|lia].
      eexists. reflexivity.
    - rewrite (RemoteFacts.served_carries (inr resp) resp v key eq_refl Hc).
      apply RemoteFacts.get_text_non_dict. exact Hv. }
  split; intros Hpost.
  - rewrite RemoteFacts.call_remote_translate_served, Hpost.
    destruct (Hserved (lit "translated_text")) as [cause ->].
    exists cause. reflexivity.
  - rewrite RemoteFacts.call_remote_response_served, Hpost.
    destruct (Hserved (lit "reply")) as [cause ->].
    exists cause. reflexivity.
Qed.

Lemma bad_answers_are_failures_witness :
  (exists cause,
     snd (App.call_remote_translate
            (backend_answering 500 (lit "{}")) bonjour)
     = Raise (Exn RuntimeError (remote_translation_failed ++ exn_str cause)))
  /\ (exists cause,
        snd (App.call_remote_translate
               (backend_answering 200 (lit "[]")) bonjour)
        = Raise (Exn RuntimeError (remote_translation_failed ++ exn_str cause))).
Proof.
  split.
  - apply (bad_answers_are_failures (backend_answering 500 (lit "{}")) bonjour []
             (HttpResponse 500 (lit "{}")) PNone).
    + left. cbn. lia.
    + reflexivity.
  - apply (bad_answers_are_failures (backend_answering 200 (lit "[]")) bonjour []
             (HttpResponse 200 (lit "[]")) (PList [])).
    + right. split; [split; [unfold http_success; cbn; lia | reflexivity] | reflexivity].
    + reflexivity.
Defined.

(** X16. Through a backend that has no key the remote calls come back with
    the local answers: when the body of a success answer decodes to what
    the endpoint returned, [call_remote_translate] returns the text it
    sent and [call_remote_response] returns the canned reply. *)
Theorem remote_calls_through_keyless_backend
    (w backend : world) (t name : text) (resp : http_response)
    (v : pyval) (ps : list piece) :
  TranslationEngine.key_missing (backend_key backend) = true ->
  carries resp v ->
  (http_post w (translate_url w) (translate_payload t) = inr resp ->
   snd (Server.translate backend t) = Ret v ->
   snd (App.call_remote_translate w t) = Ret t)
  /\ (http_post w (response_url w) (response_payload t name) = inr resp ->
      canned_template backend = Some (template_text ps) ->
      snd (Server.response backend t (Some name)) = Ret v ->
      snd (App.call_remote_response w t name)
      = Ret (fill ps (greeted (Some name)) (excerpt t))).
Proof.
  intros Hk Hc. split.
  - intros Hpost Hv.
    rewrite (RemoteFacts.translate_endpoint_keyless backend t (or_introl Hk)) in Hv.
    injection Hv as <-.
    rewrite RemoteFacts.call_remote_translate_served.
    cbn [snd]. rewrite (RemoteFacts.served_carries _ resp _ _ Hpost Hc).
    reflexivity.
  - intros Hpost Htpl Hv.
    rewrite (RemoteFacts.response_endpoint_keyless backend t (Some name) ps
               (or_introl Hk) Htpl) in Hv.
    injection Hv as <-.
    rewrite RemoteFacts.call_remote_response_served.
    cbn [snd]. rewrite (RemoteFacts.served_carries _ resp _ _ Hpost Hc).
    reflexivity.
Qed.

Lemma remote_calls_through_keyless_backend_witness :
  snd (App.call_remote_translate
         (backend_answering 200
            (dumps (PDict [(lit "translated_text", PStr bonjour)]))) bonjour)
  = Ret bonjour.
Proof.
  apply (remote_calls_through_keyless_backend
           (backend_answering 200
              (dumps (PDict [(lit "translated_text", PStr bonjour)])))
           offline bonjour []
           (HttpResponse 200 (dumps (PDict [(lit "translated_text", PStr bonjour)])))
           (PDict [(lit "translated_text", PStr bonjour)]) sample_template).
  - reflexivity.
  - split; [unfold http_success; cbn; lia | reflexivity].
  - reflexivity.
  - reflexivity.
Defined.

(* ===================================================================== *)
(** * The page as a whole                                                 *)
(* ===================================================================== *)

Module CountFacts.
Import IoFacts.

Lemma posts_count tr : length (posts tr) = length (List.filter is_post tr).
Proof.
  induction tr as [|e tr IH]; [reflexivity|].
  destruct e; cbn; rewrite <- ?IH; reflexivity.
Qed.

Lemma chat_requests_count tr :
  length (chat_requests tr) = length (List.filter is_chat tr).
Proof.
  induction tr as [|e tr IH]; [reflexivity|].
  destruct e; cbn; rewrite <- ?IH; reflexivity.
Qed.

Lemma not_chat_requests tr : Forall not_chat tr -> chat_requests tr = [].
Proof.
  induction 1 as [|e tr He _ IH]; [reflexivity|].
  destruct e; cbn; try exact IH. destruct He.
Qed.

Lemma filter_length_app (p : event -> bool) a b :
  length (List.filter p (a ++ b))
  = (length (List.filter p a) + length (List.filter p b))%nat.
Proof. rewrite List.filter_app, length_app. reflexivity. Qed.

Lemma at_most_bind {A B} a b p (m : io A) (k : A -> io B) :
  at_most a p m -> (forall x, at_most b p (k x)) -> at_most (a + b) p (m ≫= k).
Proof.
  unfold at_most. destruct m as [tr [x|e|]]; cbn; intros Hm Hk; try lia.
  specialize (Hk x). destruct (k x) as [tr' o]. cbn in *.
  rewrite filter_length_app. lia.
Qed.

Lemma at_most_try {A} a b p (m : io A) (h : exn -> io A) :
  at_most a p m -> (forall e, at_most b p (h e)) -> at_most (a + b) p (io_try m h).
Proof.
  unfold at_most. destruct m as [tr [x|e|]]; cbn; intros Hm Hh; try lia.
  specialize (Hh e). destruct (h e) as [tr' o]. cbn in *.
  rewrite filter_length_app. lia.
Qed.

Lemma at_most_ret {A} n p (a : A) : at_most n p (mret a : io A).
Proof. unfold at_most. cbn. lia. Qed.
Lemma at_most_lift {A} n p (o : outcome A) : at_most n p (lift o).
Proof. unfold at_most. cbn. lia. Qed.
Lemma at_most_ask {A} n p (a : answer A) : at_most n p (ask a).
Proof. unfold at_most. destruct a; cbn; lia. Qed.
Lemma at_most_raise {A} n p k msg : at_most n p (raise k msg : io A).
Proof. unfold at_most. cbn. lia. Qed.
Lemma at_most_emit n p e : at_most (S n) p (emit e).
Proof. unfold at_most. cbn. destruct (p e); cbn; lia. Qed.
Lemma at_most_emit_other n p e : p e = false -> at_most n p (emit e).
Proof. unfold at_most. cbn. intros ->. cbn. lia. Qed.

End CountFacts.

Create HintDb bounds discriminated.

#[export] Hint Resolve CountFacts.at_most_ret CountFacts.at_most_lift
  CountFacts.at_most_ask CountFacts.at_most_raise CountFacts.at_most_emit : bounds.
#[export] Hint Extern 1 (at_most _ _ (emit _)) =>
  (apply CountFacts.at_most_emit_other; reflexivity) : bounds.

(** Splits the budget of a sequence between its two halves. *)
Ltac bound :=
  cbv beta zeta;
  lazymatch goal with
  | |- at_most _ _ (if ?b then _ else _) => destruct b; bound
  | |- at_most _ _ (match ?x with _ => _ end) => destruct x; bound
  | |- at_most ?n _ (_ ≫= _) =>
      first [ apply (CountFacts.at_most_bind 0 n); [solve [bound] | intros; solve [bound]]
            | apply (CountFacts.at_most_bind n 0); [solve [bound] | intros; solve [bound]]
            | match n with
              | S ?k => apply (CountFacts.at_most_bind 1 k);
                          [solve [bound] | intros; solve [bound]]
              end ]
  | |- at_most ?n _ (io_try _ _) =>
      first [ apply (CountFacts.at_most_try 0 n); [solve [bound] | intros; solve [bound]]
            | apply (CountFacts.at_most_try n 0); [solve [bound] | intros; solve [bound]]
            | match n with
              | S ?k => apply (CountFacts.at_most_try 1 k);
                          [solve [bound] | intros; solve [bound]]
              end ]
  | |- _ => solve [auto with bounds]
  end.

(** Runs a computation whose branches are decided. *)
Ltac run_io :=
  unfold mbind, io_mbind, io_bind, io_try, emit, ask, lift, mret, io_mret,
    io_ret, raise;
  cbv beta iota.

Module PageFacts.
Import App IoFacts.

Lemma truthy_prefixed p rest : truthy p = true -> truthy (p ++ rest) = true.
Proof. destruct p; [discriminate | reflexivity]. Qed.

(** *** The helpers that stay on the machine *)

Lemma translate_local_returns w t :
  App.translate_local w t = ([Call f_translate_local], Ret t).
Proof. unfold App.translate_local. destruct (engine_importable w); reflexivity. Qed.

Lemma generate_local_reply_canned w t n ps :
  canned_template w = Some (template_text ps) ->
  App.generate_local_reply w t n
  = ([Call f_generate_local_reply], Ret (fill ps (greeted n) (excerpt t))).
Proof.
  intros Htpl. unfold App.generate_local_reply, ResponseGenerator.generate_local_reply.
  rewrite Htpl. fold (ResponseGenerator.name_or_customer n).
  rewrite FormatFacts.format_template, FormatFacts.name_or_customer_greeted,
    FormatFacts.slice_excerpt.
  destruct (backend_present w); reflexivity.
Qed.

(** *** How many requests a helper sends *)

Lemma detect_language_local_sends n p w t :
  (forall f, p (Call f) = false) -> at_most n p (detect_language_local w t).
Proof.
  intros Hp.
  destruct (AppFacts.detect_language_local_returns w t) as [code ->].
  unfold at_most. cbn. rewrite Hp. cbn. lia.
Qed.

Lemma show_error_sends n p msg :
  (forall k m, p (Show k m) = false) -> at_most n p (show_error msg).
Proof.
  intros Hp. unfold show_error, at_most.
  destruct msg as [m|]; [destruct (truthy m)|]; cbn; rewrite ?Hp; cbn; lia.
Qed.

Lemma translate_local_sends n p w t :
  (forall f, p (Call f) = false) -> at_most n p (App.translate_local w t).
Proof.
  intros Hp. rewrite translate_local_returns. unfold at_most. cbn.
  rewrite Hp. cbn. lia.
Qed.

Lemma generate_local_reply_sends n p w t name :
  (forall f, p (Call f) = false) -> at_most n p (App.generate_local_reply w t name).
Proof.
  intros Hp.
  unfold App.generate_local_reply, at_most,
    mbind, io_mbind, io_bind, io_try, emit, lift, raise, mret, io_mret, io_ret.
  destruct (backend_present w), (canned_template w) as [tpl|]; cbn;
    repeat match goal with
           | |- context [match ?o with Ret _ => _ | Raise _ => _ | Beyond => _ end] =>
               destruct o; cbn
           end; rewrite Hp; cbn; lia.
Qed.

Lemma call_remote_translate_posts n w t :
  at_most (S n) is_post (call_remote_translate w t).
Proof.
  rewrite RemoteFacts.call_remote_translate_served. unfold at_most. cbn. lia.
Qed.

Lemma call_remote_translate_chats n w t :
  at_most n is_chat (call_remote_translate w t).
Proof.
  rewrite RemoteFacts.call_remote_translate_served. unfold at_most. cbn. lia.
Qed.

Lemma call_remote_response_posts n w t name :
  at_most (S n) is_post (call_remote_response w t name).
Proof.
  rewrite RemoteFacts.call_remote_response_served. unfold at_most. cbn. lia.
Qed.

Lemma call_remote_response_chats n w t name :
  at_most n is_chat (call_remote_response w t name).
Proof.
  rewrite RemoteFacts.call_remote_response_served. unfold at_most. cbn. lia.
Qed.

Lemma translate_with_openai_posts n w t :
  at_most n is_post (translate_with_openai w t).
Proof. unfold translate_with_openai. bound. Qed.

Lemma translate_with_openai_chats n w t :
  at_most (S n) is_chat (translate_with_openai w t).
Proof. unfold translate_with_openai. bound. Qed.

Lemma generate_reply_with_openai_posts n w t name q :
  at_most n is_post (generate_reply_with_openai w t name q).
Proof. unfold generate_reply_with_openai. bound. Qed.

Lemma generate_reply_with_openai_chats n w t name q :
  at_most (S n) is_chat (generate_reply_with_openai w t name q).
Proof. unfold generate_reply_with_openai. bound. Qed.

#[export] Hint Extern 1 (at_most _ _ (detect_language_local _ _)) =>
  (apply detect_language_local_sends; reflexivity) : bounds.
#[export] Hint Extern 1 (at_most _ _ (show_error _)) =>
  (apply show_error_sends; reflexivity) : bounds.
#[export] Hint Extern 1 (at_most _ _ (App.translate_local _ _)) =>
  (apply translate_local_sends; reflexivity) : bounds.
#[export] Hint Extern 1 (at_most _ _ (App.generate_local_reply _ _ _)) =>
  (apply generate_local_reply_sends; reflexivity) : bounds.
#[export] Hint Resolve
  call_remote_translate_posts call_remote_translate_chats
  call_remote_response_posts call_remote_response_chats
  translate_with_openai_posts translate_with_openai_chats
  generate_reply_with_openai_posts generate_reply_with_openai_chats : bounds.

Lemma resolve_translation_posts w s t :
  at_most 1 is_post (resolve_translation w s t).
Proof. unfold resolve_translation. bound. Qed.

Lemma resolve_translation_chats w s t :
  at_most 1 is_chat (resolve_translation w s t).
Proof. unfold resolve_translation. bound. Qed.

Lemma generate_suggestion_posts w s t name :
  at_most 1 is_post (generate_suggestion w s t name).
Proof. unfold generate_suggestion. bound. Qed.

Lemma generate_suggestion_chats w s t name :
  at_most 1 is_chat (generate_suggestion w s t name).
Proof. unfold generate_suggestion. bound. Qed.

#[export] Hint Resolve resolve_translation_posts resolve_translation_chats
  generate_suggestion_posts generate_suggestion_chats : bounds.

Lemma process_query_posts w s f : at_most 2 is_post (process_query w s f).
Proof. unfold process_query. bound. Qed.

Lemma process_query_chats w s f : at_most 2 is_chat (process_query w s f).
Proof. unfold process_query. bound. Qed.

(** *** Without a key *)

Lemma translate_with_openai_keyless w t :
  truthy (app_key w) = false -> emits not_chat (translate_with_openai w t).
Proof.
  intros Hk. rewrite ModelFacts.translate_with_openai_no_key by exact Hk.
  repeat constructor.
Qed.

Lemma generate_reply_with_openai_keyless w t name q :
  truthy (app_key w) = false -> emits not_chat (generate_reply_with_openai w t name q).
Proof.
  intros Hk. rewrite ModelFacts.generate_reply_with_openai_no_key by exact Hk.
  repeat constructor.
Qed.

Ltac quiet_step :=
  match goal with
  | |- emits _ (_ ≫= _) => apply IoFacts.emits_bind; [|intros]
  | |- emits _ (io_try _ _) => apply IoFacts.emits_try; [|intros]
  | |- emits _ (emit _) => apply IoFacts.emits_emit; exact I
  | |- emits _ (mret _) => apply IoFacts.emits_ret
  | |- emits _ (lift _) => apply IoFacts.emits_lift
  | |- emits _ (ask _) => apply IoFacts.emits_ask
  | |- emits _ (raise _ _) => apply IoFacts.emits_raise
  | |- emits _ (if ?b then _ else _) => destruct b
  | |- emits _ (match ?x with _ => _ end) => destruct x
  | |- emits _ _ => progress cbv beta zeta
  end.

Ltac quiet := repeat first [solve [auto] | quiet_step].

Lemma process_query_keyless w s f :
  truthy (app_key w) = false -> emits not_chat (process_query w s f).
Proof.
  intros Hk.
  pose proof (fun t => translate_with_openai_keyless w t Hk) as Ht.
  pose proof (fun t name q => generate_reply_with_openai_keyless w t name q Hk) as Hg.
  assert (Hd : forall t, emits not_chat (detect_language_local w t)).
  { intros t. destruct (AppFacts.detect_language_local_returns w t) as [code ->].
    repeat constructor. }
  assert (He : forall msg, emits not_chat (show_error msg)).
  { intros msg. apply AppFacts.show_error_quiet. intros; exact I. }
  assert (Hct : forall t, emits not_chat (call_remote_translate w t)).
  { intros t. rewrite RemoteFacts.call_remote_translate_served. repeat constructor. }
  assert (Hcr : forall t name, emits not_chat (call_remote_response w t name)).
  { intros t name. rewrite RemoteFacts.call_remote_response_served. repeat constructor. }
  assert (Htl : forall t, emits not_chat (App.translate_local w t)).
  { intros t. rewrite translate_local_returns. repeat constructor. }
  assert (Hgl : forall t name, emits not_chat (App.generate_local_reply w t name)).
  { intros t name. unfold App.generate_local_reply. clear. quiet. }
  unfold process_query, resolve_translation, generate_suggestion.
  quiet.
Qed.

(** *** The script after the two early exits *)

Lemma process_query_resolved w s f trR t err :
  submit_btn f = true -> truthy (strip (incoming_text f)) = true ->
  resolve_translation w s (incoming_text f) = (trR, Ret (t, err)) ->
  exists code,
    detect_language_local w (incoming_text f)
    = ([Call f_detect_language_local], Ret code)
    /\ process_query w s f
       = (Show st_markdown (lit "### Processing")
            :: Call f_detect_language_local
            :: Show st_write (lit "**Detected language code:** `" ++ code ++ lit "`")
            :: trR ++ fst (after_translation w s f code t err),
          snd (after_translation w s f code t err)).
Proof.
  intros Hs Hb HR.
  destruct (AppFacts.detect_language_local_returns w (incoming_text f)) as [code Hc].
  exists code. split; [exact Hc|].
  unfold process_query. rewrite Hs, Hb. cbn [negb].
  change (process_query w s f) with (process_query w s f).
  unfold mbind at 1 2 3 4. unfold io_mbind at 1 2 3 4.
  unfold io_bind at 1. unfold emit at 1. cbv beta iota.
  unfold io_bind at 1. rewrite Hc. cbv beta iota.
  unfold io_bind at 1. unfold emit at 1. cbv beta iota.
  unfold io_bind at 1. rewrite HR. cbv beta iota.
  fold (after_translation w s f code t err).
  destruct (after_translation w s f code t err) as [tr2 o2].
  cbn. reflexivity.
Qed.

(** *** Local mode *)

Lemma resolve_translation_local w s t :
  startswith (lit "remote") (backend_choice s) = false ->
  model_not_chosen w s ->
  resolve_translation w s t = ([Call f_translate_local], Ret (t, None)).
Proof.
  intros Hr Hm. unfold resolve_translation. unfold model_not_chosen in Hm.
  rewrite Hr, Hm, translate_local_returns. reflexivity.
Qed.

Lemma exact_mode_starts_with_AI m :
  text_eqb m (lit "AI-generated (if available)") = true ->
  startswith (lit "AI") m = true.
Proof.
  unfold text_eqb. intros H. apply bool_decide_eq_true in H. subst m. reflexivity.
Qed.

Lemma second_test_is_implied m :
  startswith (lit "AI") m || text_eqb m (lit "AI-generated (if available)")
  = startswith (lit "AI") m.
Proof.
  destruct (text_eqb m _) eqn:He.
  - rewrite (exact_mode_starts_with_AI m He). reflexivity.
  - apply orb_false_r.
Qed.

Lemma generate_suggestion_canned w s t name ps :
  startswith (lit "AI") (response_mode s) = false ->
  canned_template w = Some (template_text ps) ->
  generate_suggestion w s t name
  = ([Call f_generate_local_reply],
     Ret (fill ps (greeted (Some name)) (excerpt t), None)).
Proof.
  intros Hm Htpl. unfold generate_suggestion.
  rewrite second_test_is_implied, Hm.
  rewrite (generate_local_reply_canned w t (Some name) ps Htpl). reflexivity.
Qed.

Lemma generate_suggestion_local w s t name ps :
  startswith (lit "remote") (backend_choice s) = false ->
  model_not_chosen w s ->
  canned_template w = Some (template_text ps) ->
  generate_suggestion w s t name
  = ([Call f_generate_local_reply],
     Ret (fill ps (greeted (Some name)) (excerpt t), None)).
Proof.
  intros Hr Hm Htpl. unfold generate_suggestion. unfold model_not_chosen in Hm.
  rewrite Hr, Hm.
  rewrite (generate_local_reply_canned w t (Some name) ps Htpl).
  destruct (_ || _); reflexivity.
Qed.

End PageFacts.

(** X17. A form that was not submitted does nothing, and a submitted
    message of whitespace only is answered with one warning: no helper
    runs, and the page keeps its defaults. *)
Theorem nothing_to_process (w : world) (s : App.settings) (f : App.form) :
  (App.submit_btn f = false ->
   App.process_query w s f = ([], Ret App.initial_page))
  /\ (App.submit_btn f = true ->
      forallb isspace (App.incoming_text f) = true ->
      App.process_query w s f
      = ([Show st_warning (lit "Please paste a message to translate.")],
         Ret App.initial_page)).
Proof.
  split.
  - intros Hs. unfold App.process_query. rewrite Hs. reflexivity.
  - intros Hs Hb. unfold App.process_query.
    rewrite Hs, (StripFacts.strip_blank _ Hb). reflexivity.
Qed.

Lemma nothing_to_process_witness :
  App.process_query online openai_settings blank_form
  = ([Show st_warning (lit "Please paste a message to translate.")],
     Ret App.initial_page).
Proof.
  destruct (nothing_to_process online openai_settings blank_form) as [_ H].
  apply H; reflexivity.
Defined.

(** X18. Without a key in the application, no setting of the sidebar and
    no failure of the backend makes the page send a request to the
    language model. *)
Theorem no_key_no_model_request (w : world) (s : App.settings) (f : App.form) :
  truthy (app_key w) = false ->
  chat_requests (fst (App.process_query w s f)) = [].
Proof.
  intros Hk. apply CountFacts.not_chat_requests.
  exact (PageFacts.process_query_keyless w s f Hk).
Qed.

Lemma no_key_no_model_request_witness :
  chat_requests (fst (App.process_query offline openai_settings sample_form)) = [].
Proof. apply no_key_no_model_request. reflexivity. Defined.

(** X19. With the backend choice "local" and the model not chosen (or no
    key), a submitted message stays on the machine: nothing is posted and
    nothing is sent to the model, the translation is the message itself,
    and the suggestion, when asked for, is the canned template filled in. *)
Theorem local_mode_stays_local
    (w : world) (s : App.settings) (f : App.form) (ps : list piece) :
  App.submit_btn f = true ->
  truthy (strip (App.incoming_text f)) = true ->
  startswith (lit "remote") (App.backend_choice s) = false ->
  model_not_chosen w s ->
  canned_template w = Some (template_text ps) ->
  exists tr p,
    App.process_query w s f = (tr, Ret p)
    /\ posts tr = [] /\ chat_requests tr = []
    /\ shown st_error tr = []
    /\ App.translated p = App.incoming_text f
    /\ App.suggested p
       = (if App.want_generate f
          then fill ps (greeted (Some (App.customer_name f)))
                 (excerpt (App.incoming_text f))
          else []).
Proof.
  intros Hs Hb Hr Hm Htpl.
  pose proof (StripFacts.strip_nonempty _ Hb) as Ht.
  destruct (PageFacts.process_query_resolved w s f _ _ _ Hs Hb
              (PageFacts.resolve_translation_local w s (App.incoming_text f) Hr Hm))
    as (code & _ & ->).
  unfold after_translation. rewrite Ht.
  destruct (App.want_generate f).
  - rewrite (PageFacts.generate_suggestion_local w s (App.incoming_text f)
               (App.customer_name f) ps Hr Hm Htpl).
    run_io. unfold App.show_error. cbv beta iota.
    match goal with
    | |- context [truthy (fill ps ?a ?b)] => destruct (truthy (fill ps a b))
    end; eexists _, _; (split; [reflexivity|]); cbn; repeat split; reflexivity.
  - eexists _, _; (split; [reflexivity|]); cbn; repeat split; reflexivity.
Qed.

Lemma local_mode_stays_local_witness :
  exists tr p,
    App.process_query offline sample_settings sample_form = (tr, Ret p)
    /\ posts tr = [] /\ chat_requests tr = []
    /\ shown st_error tr = []
    /\ App.translated p = App.incoming_text sample_form
    /\ App.suggested p
       = (if App.want_generate sample_form
          then fill sample_template (greeted (Some (App.customer_name sample_form)))
                 (excerpt (App.incoming_text sample_form))
          else []).
Proof.
  apply (local_mode_stays_local offline sample_settings sample_form sample_template);
    reflexivity.
Defined.

(* ===================================================================== *)
(** * Failures on the way through the page                                *)
(* ===================================================================== *)

Module FallbackFacts.
Import App IoFacts.

(** The backend cannot be reached and no key is set. *)
Lemma resolve_translation_backend_down w s t e1 :
  startswith (lit "remote") (backend_choice s) = true ->
  http_post w (translate_url w) (translate_payload t) = inl e1 ->
  truthy (app_key w) = false ->
  resolve_translation w s t
  = ([Call f_call_remote_translate;
      Post (translate_url w) (translate_payload t);
      Call f_translate_local],
     Ret (t, Some (remote_translation_failed ++ remote_translation_failed
                   ++ exn_str e1))).
Proof.
  intros Hr Hp Hk. unfold resolve_translation.
  rewrite Hr, RemoteFacts.call_remote_translate_served, Hp, Hk,
    PageFacts.translate_local_returns, andb_false_r.
  destruct (text_eqb (translation_backend s) (lit "local")); reflexivity.
Qed.

Lemma generate_suggestion_backend_down w s t name ps e2 :
  startswith (lit "AI") (response_mode s) = true ->
  startswith (lit "remote") (backend_choice s) = true ->
  http_post w (response_url w) (response_payload t name) = inl e2 ->
  truthy (app_key w) = false ->
  canned_template w = Some (template_text ps) ->
  generate_suggestion w s t name
  = ([Call f_call_remote_response;
      Post (response_url w) (response_payload t name);
      Call f_generate_local_reply],
     Ret (fill ps (greeted (Some name)) (excerpt t), None)).
Proof.
  intros Hm Hr Hp Hk Htpl. unfold generate_suggestion.
  rewrite Hm, Hr, RemoteFacts.call_remote_response_served, Hp, Hk,
    (PageFacts.generate_local_reply_canned w t (Some name) ps Htpl).
  reflexivity.
Qed.

(** The backend cannot be reached, and the model answers with an error. *)
Lemma resolve_translation_both_down w s t e1 e2 :
  startswith (lit "remote") (backend_choice s) = true ->
  text_eqb (translation_backend s) (lit "local") = false ->
  http_post w (translate_url w) (translate_payload t) = inl e1 ->
  truthy (app_key w) = true -> openai_importable w = true ->
  chat_completion w (translation_request w t) = inl e2 ->
  resolve_translation w s t
  = ([Call f_call_remote_translate;
      Post (translate_url w) (translate_payload t);
      Call f_translate_with_openai;
      Chat (translation_request w t)],
     Ret ([], Some (openai_translation_failed ++ exn_str e2))).
Proof.
  intros Hr Hl Hp Hk Hi Hc. unfold resolve_translation.
  rewrite Hr, RemoteFacts.call_remote_translate_served, Hp, Hk, Hl,
    (ModelFacts.translate_with_openai_keyed w t Hk Hi), Hc, andb_true_r.
  destruct (text_eqb (translation_backend s) (lit "openai")); reflexivity.
Qed.

(** The model is asked in local mode and answers. *)
Lemma resolve_translation_model w s t content :
  startswith (lit "remote") (backend_choice s) = false ->
  text_eqb (translation_backend s) (lit "openai") = true ->
  truthy (app_key w) = true -> openai_importable w = true ->
  chat_completion w (translation_request w t) = inr content ->
  resolve_translation w s t
  = ([Call f_translate_with_openai; Chat (translation_request w t)],
     Ret (strip content, None)).
Proof.
  intros Hr Ho Hk Hi Hc. unfold resolve_translation.
  rewrite Hr, Ho, Hk, (ModelFacts.translate_with_openai_keyed w t Hk Hi), Hc.
  reflexivity.
Qed.

End FallbackFacts.

(** X20. Nothing is tried twice: each of the two steps sends at most one
    request to the backend and at most one to the language model, so a
    submission sends at most two of each. *)
Theorem no_request_is_repeated (w : world) (s : App.settings) (f : App.form) :
  (length (posts (fst (App.process_query w s f))) <= 2)%nat
  /\ (length (chat_requests (fst (App.process_query w s f))) <= 2)%nat
  /\ (forall t,
        (length (posts (fst (App.resolve_translation w s t))) <= 1)%nat
        /\ (length (chat_requests (fst (App.resolve_translation w s t))) <= 1)%nat)
  /\ (forall t name,
        (length (posts (fst (App.generate_suggestion w s t name))) <= 1)%nat
        /\ (length (chat_requests (fst (App.generate_suggestion w s t name))) <= 1)%nat).
Proof.
  rewrite CountFacts.posts_count, CountFacts.chat_requests_count.
  split; [apply PageFacts.process_query_posts|].
  split; [apply PageFacts.process_query_chats|].
  split; intros; rewrite CountFacts.posts_count, CountFacts.chat_requests_count.
  - split; [apply PageFacts.resolve_translation_posts
           | apply PageFacts.resolve_translation_chats].
  - split; [apply PageFacts.generate_suggestion_posts
           | apply PageFacts.generate_suggestion_chats].
Qed.

(** X21. With the remote backend chosen but out of reach and no key set,
    the page still answers: the translation is the message itself and the
    suggestion the filled template; each endpoint was tried once, the
    model never; and the one error shown repeats the prefix
    "Remote translation failed: ", once from the helper and once from the
    page.  The failure of the reply request is not shown. *)
Theorem backend_down_falls_back
    (w : world) (s : App.settings) (f : App.form) (ps : list piece) (e1 e2 : exn) :
  App.submit_btn f = true ->
  truthy (strip (App.incoming_text f)) = true ->
  App.want_generate f = true ->
  startswith (lit "remote") (App.backend_choice s) = true ->
  startswith (lit "AI") (App.response_mode s) = true ->
  truthy (app_key w) = false ->
  canned_template w = Some (template_text ps) ->
  http_post w (translate_url w) (translate_payload (App.incoming_text f)) = inl e1 ->
  http_post w (response_url w)
    (response_payload (App.incoming_text f) (App.customer_name f)) = inl e2 ->
  exists tr p,
    App.process_query w s f = (tr, Ret p)
    /\ App.translated p = App.incoming_text f
    /\ App.suggested p
       = fill ps (greeted (Some (App.customer_name f))) (excerpt (App.incoming_text f))
    /\ shown st_error tr
       = [remote_translation_failed ++ remote_translation_failed ++ exn_str e1]
    /\ posts tr
       = [(translate_url w, translate_payload (App.incoming_text f));
          (response_url w,
           response_payload (App.incoming_text f) (App.customer_name f))]
    /\ chat_requests tr = [].
Proof.
  intros Hs Hb Hg Hr Hm Hk Htpl Hp1 Hp2.
  pose proof (StripFacts.strip_nonempty _ Hb) as Ht.
  destruct (PageFacts.process_query_resolved w s f _ _ _ Hs Hb
              (FallbackFacts.resolve_translation_backend_down w s
                 (App.incoming_text f) e1 Hr Hp1 Hk))
    as (code & _ & ->).
  unfold after_translation. rewrite Ht, Hg.
  rewrite (FallbackFacts.generate_suggestion_backend_down w s (App.incoming_text f)
             (App.customer_name f) ps e2 Hm Hr Hp2 Hk Htpl).
  unfold App.show_error.
  rewrite (PageFacts.truthy_prefixed remote_translation_failed
             (remote_translation_failed ++ exn_str e1) eq_refl).
  run_io.
  match goal with
  | |- context [truthy (fill ps ?a ?b)] => destruct (truthy (fill ps a b))
  end; eexists _, _; (split; [reflexivity|]); cbn; repeat split; reflexivity.
Qed.

Lemma backend_down_falls_back_witness :
  exists tr p,
    App.process_query offline remote_settings sample_form = (tr, Ret p)
    /\ App.translated p = bonjour
    /\ App.suggested p = fill sample_template (greeted (Some [])) (excerpt bonjour)
    /\ shown st_error tr
       = [remote_translation_failed ++ remote_translation_failed
          ++ lit "connection refused"]
    /\ posts tr
       = [(translate_url offline, translate_payload bonjour);
          (response_url offline, response_payload bonjour [])]
    /\ chat_requests tr = [].
Proof.
  apply (backend_down_falls_back offline remote_settings sample_form sample_template
           (Exn ConnectionError (lit "connection refused"))
           (Exn ConnectionError (lit "connection refused")));
    reflexivity.
Defined.

(** X22. The second test on the response mode never decides: a mode equal
    to "AI-generated (if available)" already starts with "AI".  And with
    any other mode the reply is the filled template, whatever the backend
    choice and whether or not a key is set: nothing is posted and the
    model is not asked. *)
Theorem canned_mode_uses_the_template
    (w : world) (s : App.settings) (t name : text) (ps : list piece) :
  (startswith (lit "AI") (App.response_mode s)
   || text_eqb (App.response_mode s) (lit "AI-generated (if available)")
   = startswith (lit "AI") (App.response_mode s))
  /\ (startswith (lit "AI") (App.response_mode s) = false ->
      canned_template w = Some (template_text ps) ->
      App.generate_suggestion w s t name
      = ([Call f_generate_local_reply],
         Ret (fill ps (greeted (Some name)) (excerpt t), None))).
Proof.
  split.
  - apply PageFacts.second_test_is_implied.
  - apply PageFacts.generate_suggestion_canned.
Qed.

Lemma canned_mode_uses_the_template_witness :
  App.generate_suggestion online canned_remote_settings bonjour (lit "Ana")
  = ([Call f_generate_local_reply],
     Ret (fill sample_template (greeted (Some (lit "Ana"))) (excerpt bonjour), None)).
Proof.
  destruct (canned_mode_uses_the_template online canned_remote_settings bonjour
              (lit "Ana") sample_template) as [_ H].
  apply H; reflexivity.
Defined.

(** X23. When the model answers a translation request with whitespace
    only, the stripped translation is empty: the page shows "No
    translation was produced." and no error, and goes no further, so no
    reply is asked for. *)
Theorem blank_completion_is_no_translation
    (w : world) (s : App.settings) (f : App.form) (content : text) :
  App.submit_btn f = true ->
  truthy (strip (App.incoming_text f)) = true ->
  startswith (lit "remote") (App.backend_choice s) = false ->
  text_eqb (App.translation_backend s) (lit "openai") = true ->
  truthy (app_key w) = true -> openai_importable w = true ->
  chat_completion w (App.translation_request w (App.incoming_text f)) = inr content ->
  forallb isspace content = true ->
  exists code,
    App.process_query w s f
    = ([Show st_markdown (lit "### Processing");
        Call f_detect_language_local;
        Show st_write (lit "**Detected language code:** `" ++ code ++ lit "`");
        Call f_translate_with_openai;
        Chat (App.translation_request w (App.incoming_text f));
        Show st_warning (lit "No translation was produced.")],
       Ret (App.Page [] [] code)).
Proof.
  intros Hs Hb Hr Ho Hk Hi Hc Hblank.
  destruct (PageFacts.process_query_resolved w s f _ _ _ Hs Hb
              (FallbackFacts.resolve_translation_model w s (App.incoming_text f)
                 content Hr Ho Hk Hi Hc))
    as (code & _ & ->).
  exists code. rewrite (StripFacts.strip_blank _ Hblank). reflexivity.
Qed.

Lemma blank_completion_is_no_translation_witness :
  exists code,
    App.process_query blank_model openai_settings sample_form
    = ([Show st_markdown (lit "### Processing");
        Call f_detect_language_local;
        Show st_write (lit "**Detected language code:** `" ++ code ++ lit "`");
        Call f_translate_with_openai;
        Chat (App.translation_request blank_model bonjour);
        Show st_warning (lit "No translation was produced.")],
       Ret (App.Page [] [] code)).
Proof.
  apply (blank_completion_is_no_translation blank_model openai_settings sample_form
           [32; 10; 9; 32]); reflexivity.
Defined.

(** X24. When the backend is out of reach and the model, tried next,
    fails as well, the only error shown is the model's: the message about
    the backend is overwritten, the translation is empty, and the page
    stops at "No translation was produced.". *)
Theorem model_failure_hides_remote_failure
    (w : world) (s : App.settings) (f : App.form) (e1 e2 : exn) :
  App.submit_btn f = true ->
  truthy (strip (App.incoming_text f)) = true ->
  startswith (lit "remote") (App.backend_choice s) = true ->
  text_eqb (App.translation_backend s) (lit "local") = false ->
  truthy (app_key w) = true -> openai_importable w = true ->
  http_post w (translate_url w) (translate_payload (App.incoming_text f)) = inl e1 ->
  chat_completion w (App.translation_request w (App.incoming_text f)) = inl e2 ->
  exists code,
    App.process_query w s f
    = ([Show st_markdown (lit "### Processing");
        Call f_detect_language_local;
        Show st_write (lit "**Detected language code:** `" ++ code ++ lit "`");
        Call f_call_remote_translate;
        Post (translate_url w) (translate_payload (App.incoming_text f));
        Call f_translate_with_openai;
        Chat (App.translation_request w (App.incoming_text f));
        Show st_error (openai_translation_failed ++ exn_str e2);
        Show st_warning (lit "No translation was produced.")],
       Ret (App.Page [] [] code)).
Proof.
  intros Hs Hb Hr Hl Hk Hi Hp Hc.
  destruct (PageFacts.process_query_resolved w s f _ _ _ Hs Hb
              (FallbackFacts.resolve_translation_both_down w s (App.incoming_text f)
                 e1 e2 Hr Hl Hp Hk Hi Hc))
    as (code & _ & ->).
  exists code. unfold after_translation, App.show_error.
  rewrite (PageFacts.truthy_prefixed openai_translation_failed (exn_str e2) eq_refl).
  reflexivity.
Qed.

Lemma model_failure_hides_remote_failure_witness :
  exists code,
    App.process_query model_down remote_settings sample_form
    = ([Show st_markdown (lit "### Processing");
        Call f_detect_language_local;
        Show st_write (lit "**Detected language code:** `" ++ code ++ lit "`");
        Call f_call_remote_translate;
        Post (translate_url model_down) (translate_payload bonjour);
        Call f_translate_with_openai;
        Chat (App.translation_request model_down bonjour);
        Show st_error (openai_translation_failed ++ lit "rate limit reached");
        Show st_warning (lit "No translation was produced.")],
       Ret (App.Page [] [] code)).
Proof.
  apply (model_failure_hides_remote_failure model_down remote_settings sample_form
           (Exn ConnectionError (lit "connection refused"))
           (Exn OpenAIError (lit "rate limit reached"))); reflexivity.
Defined.

(** X25. A template the two arguments cannot fill (a stray placeholder, a
    lone brace) is handled differently on the two sides: the page's helper
    drops to its last-resort sentence, while the endpoint [/response],
    once the model path has failed, lets the formatting error escape. *)
Theorem unfillable_template
    (w : world) (t : text) (name : option text) (tpl : text) (e e0 : exn)
    (tr : list event) :
  canned_template w = Some tpl ->
  ResponseGenerator.generate_local_reply tpl t name = Raise e ->
  App.generate_local_reply w t name
  = ([Call f_generate_local_reply],
     Ret (fill last_resort_pieces (greeted name) (excerpt t)))
  /\ (ResponseGenerator.generate_openai_reply w t name
        ResponseGenerator.default_temperature = (tr, Raise e0) ->
      Server.response w t name = (tr, Raise e)).
Proof.
  intros Htpl Hfmt. split.
  - unfold App.generate_local_reply. rewrite Htpl, Hfmt.
    unfold ResponseGenerator.generate_local_reply in Hfmt.
    unfold ResponseGenerator.name_or_customer in Hfmt. rewrite Hfmt.
    fold (ResponseGenerator.name_or_customer name).
    rewrite FormatFacts.last_resort_fill, FormatFacts.name_or_customer_greeted,
      FormatFacts.slice_excerpt.
    destruct (backend_present w); reflexivity.
  - intros Hm. unfold Server.response. rewrite Hm, Htpl.
    unfold ResponseGenerator.generate_local_reply in Hfmt. rewrite Hfmt.
    cbn. rewrite app_nil_r. reflexivity.
Qed.

Lemma unfillable_template_witness :
  App.generate_local_reply (with_template stray_template) bonjour None
  = ([Call f_generate_local_reply],
     Ret (fill last_resort_pieces (greeted None) (excerpt bonjour)))
  /\ Server.response (with_template stray_template) bonjour None
     = ([], Raise (Exn KeyError (lit "'greeting'"))).
Proof.
  destruct (unfillable_template (with_template stray_template) bonjour None
              stray_template (key_error (lit "greeting"))
              (Exn RuntimeError (lit "OpenAI key not configured")) [])
    as [H1 H2]; [reflexivity | reflexivity |].
  split; [exact H1 | apply H2; reflexivity].
Defined.
